(** * dentls: listing or unlinking the regular files of one directory

    A shallow embedding of [dentls.c].  The program reads a directory with
    the raw [getdents] system call, sorts the names of the regular files
    into a search tree ([tsearch] of <search.h>) and walks that tree with
    [twalk], printing or unlinking each name.

    Conventions of the embedding:
    - C [char] cells are [ascii]; a C string is read from memory up to its
      terminating NUL and handled as a [string] afterwards;
    - C integers are [Z]; where the source type is narrower the
      wrap-around is written out ([wrap_int], [wrap_ulong]);
    - memory is a list of blocks addressed by allocation order, a pointer
      is a block address with a byte offset;
    - the operating system is a record of oracles ([world]); what the
      process changes (globals, heap, directory stream, directory content,
      the trace of writes and system calls) is the [state] threaded through
      a small state-and-exit monad. *)

From Stdlib Require Import ZArith List String Ascii Bool Lia Permutation.
Import ListNotations.
Open Scope Z_scope.

(** ** Characters and C strings *)

Definition NUL : ascii := Ascii.zero.

(** The value of a cell read as [unsigned char]. *)
Definition uchar (c : ascii) : Z := Z.of_N (N_of_ascii c).

(** [strcmp] of <string.h> on two C strings already cut at their NUL.
    Only the sign of the result is specified by the C standard; the
    difference of the first two differing cells is one valid choice and
    the program looks at the sign alone. *)
Fixpoint strcmp (s1 s2 : string) : Z :=
  match s1, s2 with
  | EmptyString, EmptyString => 0
  | EmptyString, String c2 _ => 0 - uchar c2
  | String c1 _, EmptyString => uchar c1 - 0
  | String c1 r1, String c2 r2 =>
      if Ascii.eqb c1 c2 then strcmp r1 r2 else uchar c1 - uchar c2
  end.

Fixpoint nul_free (s : string) : bool :=
  match s with
  | EmptyString => true
  | String c r => negb (Ascii.eqb c NUL) && nul_free r
  end.

(** ** Integer types of the source *)

Definition wrap_int (x : Z) : Z := (x + 2147483648) mod 4294967296 - 2147483648.
Definition wrap_ulong (x : Z) : Z := x mod 18446744073709551616.

(** ** Memory: blocks of cells, pointers into them *)

Definition block := list ascii.

(** A pointer: the address of a block and a byte offset inside it. *)
Definition ptr : Type := (nat * Z)%type.

(** A heap cell is [None] once the block has been freed. *)
Definition heap_t := list (option block).

Definition load (b : block) (off : Z) : ascii := nth (Z.to_nat off) b NUL.

(** The C string that starts at the head of a run of cells. *)
Fixpoint cstring (cells : list ascii) : string :=
  match cells with
  | [] => EmptyString
  | c :: rest => if Ascii.eqb c NUL then EmptyString else String c (cstring rest)
  end.

Definition cstring_at (b : block) (off : Z) : string :=
  cstring (skipn (Z.to_nat off) b).

Definition block_at (h : heap_t) (a : nat) : block :=
  match nth_error h a with
  | Some (Some b) => b
  | _ => []
  end.

(** [*(char * )p] read as a C string. *)
Definition name_at (h : heap_t) (p : ptr) : string :=
  cstring_at (block_at h (fst p)) (snd p).

Fixpoint heap_store (h : heap_t) (a : nat) (b : block) : heap_t :=
  match h, a with
  | [], _ => []
  | _ :: rest, O => Some b :: rest
  | x :: rest, S a' => x :: heap_store rest a' b
  end.

Fixpoint heap_free (h : heap_t) (a : nat) : heap_t :=
  match h, a with
  | [], _ => []
  | _ :: rest, O => None :: rest
  | x :: rest, S a' => x :: heap_free rest a'
  end.

(** ** [struct linux_dirent]

    [long d_ino; off_t d_off; unsigned short d_reclen; char d_name[]]:
    on the LP64 little-endian targets that have [SYS_getdents] the name
    starts at byte 18 of the record and [d_reclen] is the two bytes at 16.
    The type tag is the last byte of the record. *)

Definition off_d_reclen : Z := 16.
Definition off_d_name : Z := 18.
Definition DT_REG : Z := 8.

Definition d_reclen_at (b : block) (dent : Z) : Z :=
  uchar (load b (dent + off_d_reclen)) + 256 * uchar (load b (dent + off_d_reclen + 1)).

Definition d_name_of (dent : Z) : Z := dent + off_d_name.

(** [d_type = (char * )dent + dent->d_reclen-1]. *)
Definition d_type_of (b : block) (dent : Z) : Z := dent + d_reclen_at b dent - 1.

(** What the kernel writes for one entry, seen as data.  [d_pad] is
    whatever lies between the NUL of the name and the type tag. *)
Record dirent := mkDirent {
  d_ino : Z;
  d_off : Z;
  d_name : string;
  d_pad : list ascii;
  d_type : ascii
}.

Fixpoint le_bytes (n : nat) (x : Z) : list ascii :=
  match n with
  | O => []
  | S n' => ascii_of_N (Z.to_N (x mod 256)) :: le_bytes n' (x / 256)
  end.

Definition reclen_of (r : dirent) : Z :=
  18 + Z.of_nat (String.length (d_name r)) + 1 + Z.of_nat (List.length (d_pad r)) + 1.

Definition encode_dirent (r : dirent) : block :=
  le_bytes 8 (d_ino r) ++ le_bytes 8 (d_off r) ++ le_bytes 2 (reclen_of r)
  ++ list_ascii_of_string (d_name r) ++ NUL :: d_pad r ++ [d_type r].

Definition encode_batch (rs : list dirent) : block :=
  List.concat (map encode_dirent rs).

(** A record the kernel can produce: no NUL inside the name and a length
    that fits [unsigned short]. *)
Definition wf_dirent (r : dirent) : bool :=
  nul_free (d_name r) && (reclen_of r <? 65536).

Definition is_regular (r : dirent) : bool := uchar (d_type r) =? DT_REG.

Definition is_dot (r : dirent) : bool :=
  String.eqb (d_name r) "." || String.eqb (d_name r) "..".

(** The entries the program is meant to act on. *)
Definition wanted (r : dirent) : bool := negb (is_dot r) && is_regular r.


(** ** <search.h>: [tsearch], [twalk], [tdestroy]

    These are library functions: the program fixes only the comparison
    and the visiting callback.  The library is a parameter of the
    embedding ([search_impl]) with the contract of POSIX as its laws
    ([search_ok]); [bst_impl] is the plain unbalanced search tree. *)

Inductive VISIT := preorder | postorder | endorder | leaf.

(** The binary tree [twalk] traverses; a node holds the key pointer that
    was handed to [tsearch], never a copy of the name. *)
Inductive tree := E | T (l : tree) (key : ptr) (r : tree).

Class search_impl := {
  tree_t : Type;
  tnull : tree_t;
  view : tree_t -> tree;
  tinsert : (ptr -> ptr -> Z) -> ptr -> tree_t -> tree_t
}.

Fixpoint inorder (t : tree) : list ptr :=
  match t with
  | E => []
  | T l k r => inorder l ++ k :: inorder r
  end.

(** The order in which [twalk] reaches the [leaf] and [endorder] visits. *)
Fixpoint endorder_keys (t : tree) : list ptr :=
  match t with
  | E => []
  | T l k r => endorder_keys l ++ endorder_keys r ++ [k]
  end.

(** Some key of the tree compares equal to [k]. *)
Definition tmember (cmp : ptr -> ptr -> Z) (k : ptr) (t : tree) : bool :=
  existsb (fun x => cmp k x =? 0) (inorder t).

Fixpoint bst (cmp : ptr -> ptr -> Z) (t : tree) : Prop :=
  match t with
  | E => True
  | T l k r =>
      bst cmp l /\ bst cmp r /\
      Forall (fun x => cmp x k < 0) (inorder l) /\
      Forall (fun x => cmp k x < 0) (inorder r)
  end.

(** A comparison function that is a total preorder. *)
Definition cmp_order (cmp : ptr -> ptr -> Z) : Prop :=
  (forall x y, Z.sgn (cmp x y) = - Z.sgn (cmp y x)) /\
  (forall x y z, cmp x y <= 0 -> cmp y z <= 0 -> cmp x z <= 0).

(** The contract of [tsearch]: the tree stays a search tree; a key that
    compares equal to a stored one adds nothing, any other key is added. *)
Definition search_ok (L : search_impl) : Prop :=
  view tnull = E /\
  forall cmp k t, cmp_order cmp -> bst cmp (view t) ->
    bst cmp (view (tinsert cmp k t)) /\
    Permutation (inorder (view (tinsert cmp k t)))
                (if tmember cmp k (view t) then inorder (view t)
                 else k :: inorder (view t)).

Fixpoint bst_insert (cmp : ptr -> ptr -> Z) (k : ptr) (t : tree) : tree :=
  match t with
  | E => T E k E
  | T l x r =>
      let c := cmp k x in
      if c =? 0 then t
      else if c <? 0 then T (bst_insert cmp k l) x r
      else T l x (bst_insert cmp k r)
  end.

Definition bst_impl : search_impl :=
  {| tree_t := tree; tnull := E; view := fun t => t; tinsert := bst_insert |}.

(** ** What the process does to the outside *)

Inductive arg := AStr (s : string) | AInt (n : Z) | AULong (n : Z).

Inductive syscall :=
| sys_access (path : string)
| sys_lstat (path : string)
| sys_open (path : string)
| sys_fchdir (fd : Z)
| sys_getdents (fd : Z) (buf : nat) (count : Z)
| sys_unlink (name : string)
| sys_close (fd : Z).

(** Format strings are kept as the source spells them. *)
Inductive event :=
| Stdout (fmt : string) (args : list arg)
| Stderr (fmt : string) (args : list arg)
| Perror (msg : string) (errno : Z)
| FflushStderr
| Sleep (seconds : Z)
| Syscall (c : syscall).

Inductive sysret (A : Type) := Ok (a : A) | Err (errno : Z).
Arguments Ok {A} a.
Arguments Err {A} errno.

Record stat := mkStat { st_mode : Z; st_size : Z }.

Definition S_IFMT : Z := 61440.
Definition S_IFDIR : Z := 16384.
Definition S_ISDIR (m : Z) : bool := Z.land m S_IFMT =? S_IFDIR.

Definition ENOENT : Z := 2.
Definition ENOMEM : Z := 12.

(** The operating system as the process meets it.  [w_getdents] lists the
    answers of the successive [getdents] calls on the directory; once the
    list is used up the call returns 0.  [w_files] are the names present in
    the directory and [w_unlink] lets a removal be refused. *)
Record world := mkWorld {
  argv : list string;
  getenv : string -> option string;
  w_access : string -> sysret unit;
  w_lstat : string -> sysret stat;
  w_open : string -> sysret Z;
  w_fchdir : Z -> sysret unit;
  w_getdents : list (sysret block);
  w_malloc : nat -> bool;
  w_files : list string;
  w_unlink : string -> sysret unit
}.

Inductive result (A : Type) := Val (a : A) | Exit (status : Z) | Hang.
Arguments Val {A} a.
Arguments Exit {A} status.
Arguments Hang {A}.

(** The status the parent process sees. *)
Definition exit_status (r : result Z) : option Z :=
  match r with
  | Val rc => Some (rc mod 256)
  | Exit status => Some (status mod 256)
  | Hang => None
  end.

Definition exits_nonzero (r : result Z) : Prop :=
  exists st, exit_status r = Some st /\ st <> 0.

Definition is_stdout (e : event) : bool :=
  match e with Stdout _ _ => true | _ => false end.

(** The primary output stream. *)
Definition stdout_of (tr : list event) : list event := filter is_stdout tr.

Definition printed_name (e : event) : list string :=
  match e with
  | Stdout _ [AStr s] => [s]
  | _ => []
  end.

(** The names written on the primary output stream, in order. *)
Definition stdout_names (tr : list event) : list string := flat_map printed_name tr.

Definition unlinked_name (e : event) : list string :=
  match e with
  | Syscall (sys_unlink n) => [n]
  | _ => []
  end.

(** The names [unlink] was called on, in order. *)
Definition unlink_calls (tr : list event) : list string := flat_map unlinked_name tr.

Fixpoint remove_name (n : string) (l : list string) : list string :=
  match l with
  | [] => []
  | x :: rest => if String.eqb n x then rest else x :: remove_name n rest
  end.

Section Program.

Context {libc : search_impl}.
Variable w : world.

(** Globals of the program, then the state of the process. *)
Record state := mkState {
  delete_count : Z;
  show_progress : Z;
  print_only : Z;
  tree_root : tree_t;
  heap : heap_t;
  errno : Z;
  allocs : nat;
  files : list string;
  trace : list event
}.

Definition progress_interval_minor : Z := 1000.
Definition progress_interval_major : Z := 50.

Definition init_state : state :=
  {| delete_count := 0; show_progress := 0; print_only := 1; tree_root := tnull;
     heap := []; errno := 0; allocs := 0; files := w_files w; trace := [] |}.

Definition set_delete_count (v : Z) (s : state) : state :=
  mkState v (show_progress s) (print_only s) (tree_root s) (heap s) (errno s)
          (allocs s) (files s) (trace s).
Definition set_show_progress (v : Z) (s : state) : state :=
  mkState (delete_count s) v (print_only s) (tree_root s) (heap s) (errno s)
          (allocs s) (files s) (trace s).
Definition set_print_only (v : Z) (s : state) : state :=
  mkState (delete_count s) (show_progress s) v (tree_root s) (heap s) (errno s)
          (allocs s) (files s) (trace s).
Definition set_tree_root (v : tree_t) (s : state) : state :=
  mkState (delete_count s) (show_progress s) (print_only s) v (heap s) (errno s)
          (allocs s) (files s) (trace s).
Definition set_heap (v : heap_t) (s : state) : state :=
  mkState (delete_count s) (show_progress s) (print_only s) (tree_root s) v (errno s)
          (allocs s) (files s) (trace s).
Definition set_errno (v : Z) (s : state) : state :=
  mkState (delete_count s) (show_progress s) (print_only s) (tree_root s) (heap s) v
          (allocs s) (files s) (trace s).
Definition set_allocs (v : nat) (s : state) : state :=
  mkState (delete_count s) (show_progress s) (print_only s) (tree_root s) (heap s)
          (errno s) v (files s) (trace s).
Definition set_files (v : list string) (s : state) : state :=
  mkState (delete_count s) (show_progress s) (print_only s) (tree_root s) (heap s)
          (errno s) (allocs s) v (trace s).
Definition emit_event (e : event) (s : state) : state :=
  mkState (delete_count s) (show_progress s) (print_only s) (tree_root s) (heap s)
          (errno s) (allocs s) (files s) (trace s ++ [e]).

(** *** The monad: state, with [exit] and non-termination as outcomes *)

Definition M (A : Type) : Type := state -> result A * state.

Definition ret {A} (a : A) : M A := fun s => (Val a, s).

Definition bind {A B} (m : M A) (k : A -> M B) : M B :=
  fun s =>
    match m s with
    | (Val a, s') => k a s'
    | (Exit st, s') => (Exit st, s')
    | (Hang, s') => (Hang, s')
    end.

Notation "x <- m ;; k" := (bind m (fun x => k))
  (at level 61, m at next level, right associativity).
Notation "m ;; k" := (bind m (fun _ => k))
  (at level 61, right associativity).

Definition gets {A} (f : state -> A) : M A := fun s => (Val (f s), s).
Definition modify (f : state -> state) : M unit := fun s => (Val tt, f s).
Definition emit (e : event) : M unit := modify (emit_event e).
Definition exit {A} (status : Z) : M A := fun s => (Exit status, s).
Definition hang {A} : M A := fun s => (Hang, s).

Definition printf (fmt : string) (args : list arg) : M unit := emit (Stdout fmt args).
Definition fprintf_stderr (fmt : string) (args : list arg) : M unit := emit (Stderr fmt args).
Definition perror (msg : string) : M unit :=
  e <- gets errno ;; emit (Perror msg e).
Definition fflush_stderr : M unit := emit FflushStderr.
Definition sleep (seconds : Z) : M unit := emit (Sleep seconds).

(** *** System calls and the allocator *)

(** A failing call sets [errno] and returns -1. *)
Definition fail_with (e : Z) : M Z := modify (set_errno e) ;; ret (-1).

Definition access (path : string) : M Z :=
  emit (Syscall (sys_access path)) ;;
  match w_access w path with Ok _ => ret 0 | Err e => fail_with e end.

Definition lstat (path : string) : M (Z * stat) :=
  emit (Syscall (sys_lstat path)) ;;
  match w_lstat w path with
  | Ok st => ret (0, st)
  | Err e => rc <- fail_with e ;; ret (rc, mkStat 0 0)
  end.

Definition open (path : string) : M Z :=
  emit (Syscall (sys_open path)) ;;
  match w_open w path with Ok fd => ret fd | Err e => fail_with e end.

Definition fchdir (fd : Z) : M Z :=
  emit (Syscall (sys_fchdir fd)) ;;
  match w_fchdir w fd with Ok _ => ret 0 | Err e => fail_with e end.

Definition close (fd : Z) : M unit := emit (Syscall (sys_close fd)).

(** [unlink] of a bare name, relative to the current directory. *)
Definition unlink (name : string) : M Z :=
  emit (Syscall (sys_unlink name)) ;;
  match w_unlink w name with
  | Err e => fail_with e
  | Ok _ =>
      fs <- gets files ;;
      if existsb (String.eqb name) fs
      then modify (set_files (remove_name name fs)) ;; ret 0
      else fail_with ENOENT
  end.

(** One request to the allocator: the oracle of the world says whether
    the request in this position is served. *)
Definition alloc_request : M bool :=
  n <- gets allocs ;;
  modify (set_allocs (S n)) ;;
  if w_malloc w n then ret true else modify (set_errno ENOMEM) ;; ret false.

(** [malloc] of a buffer: a fresh block whose cells are not yet written.
    [None] is the NULL pointer. *)
Definition malloc (size : Z) : M (option nat) :=
  ok <- alloc_request ;;
  if ok then
    h <- gets heap ;;
    modify (set_heap (h ++ [Some []])) ;;
    ret (Some (List.length h))
  else ret None.

Definition free (a : nat) : M unit :=
  h <- gets heap ;; modify (set_heap (heap_free h a)).

(** [syscall(SYS_getdents, dirfd, buffer, count)] given the answer of the
    kernel to this call: the bytes are written to [buffer] and their
    number is returned, or -1 with [errno]. *)
Definition getdents (answer : sysret block) (dirfd : Z) (buffer : nat) (count : Z) : M Z :=
  emit (Syscall (sys_getdents dirfd buffer count)) ;;
  match answer with
  | Ok bytes =>
      h <- gets heap ;;
      modify (set_heap (heap_store h buffer bytes)) ;;
      ret (Z.of_nat (List.length bytes))
  | Err e => fail_with e
  end.

(** *** The program *)

Definition compare_fnames (h : heap_t) (key1 key2 : ptr) : Z :=
  strcmp (name_at h key1) (name_at h key2).

(** [tsearch(key, &tree, compare_fnames)]; [false] is the NULL result,
    which the library gives when it cannot allocate the new node. *)
Definition tsearch (key : ptr) : M bool :=
  h <- gets heap ;;
  t <- gets tree_root ;;
  if tmember (compare_fnames h) key (view t)
  then modify (set_tree_root (tinsert (compare_fnames h) key t)) ;; ret true
  else
    ok <- alloc_request ;;
    if ok then modify (set_tree_root (tinsert (compare_fnames h) key t)) ;; ret true
    else ret false.

Definition walk_tree (node : ptr) (val : VISIT) (lvl : Z) : M unit :=
  let act : M Z :=
    po <- gets print_only ;;
    h <- gets heap ;;
    rc <- (if negb (po =? 0)
           then printf "%s\n" [AStr (name_at h node)] ;; ret 0
           else unlink (name_at h node)) ;;
    dc <- gets delete_count ;;
    modify (set_delete_count (wrap_ulong (dc + 1))) ;;
    ret rc in
  let rest (rc : Z) : M unit :=
    (if rc <? 0 then
       h <- gets heap ;;
       fprintf_stderr "Failed to delete %s" [AStr (name_at h node)] ;;
       perror "unlink problem" ;;
       exit 1
     else ret tt) ;;
    sp <- gets show_progress ;;
    if negb (sp =? 0) then
      dc <- gets delete_count ;;
      if dc mod wrap_ulong (progress_interval_minor * progress_interval_major) =? 0 then
        sleep 1 ;;
        fprintf_stderr "%s%lu" [AStr (if negb (dc =? 0) then "\n" else ""); AULong dc] ;;
        fflush_stderr
      else if dc mod progress_interval_minor =? 0 then
        fprintf_stderr "." [] ;;
        fflush_stderr
      else ret tt
    else ret tt in
  match val with
  | leaf => rc <- act ;; rest rc
  | endorder => rc <- act ;; rest rc
  | _ => ret tt
  end.

Definition is_E (t : tree) : bool :=
  match t with E => true | T _ _ _ => false end.

(** [twalk]: a node without children is visited once as [leaf]; any other
    node three times, before, between and after its subtrees. *)
Fixpoint twalk_rec (t : tree) (action : ptr -> VISIT -> Z -> M unit) (lvl : Z) : M unit :=
  match t with
  | E => ret tt
  | T l k r =>
      if is_E l && is_E r then action k leaf lvl
      else
        action k preorder lvl ;;
        twalk_rec l action (lvl + 1) ;;
        action k postorder lvl ;;
        twalk_rec r action (lvl + 1) ;;
        action k endorder lvl
  end.

Definition twalk (root : tree_t) (action : ptr -> VISIT -> Z -> M unit) : M unit :=
  twalk_rec (view root) action 0.

(** [tdestroy(tree, dummy_destroy)] frees the nodes of the library; the
    names they point to are left to [free_linked_list]. *)
Definition tdestroy (root : tree_t) : M unit := ret tt.

(** The list of buffers is a list of block addresses, newest first. *)
Definition linked_list_prepend_override
    (head_in_out : option (list nat)) (data_ptr : nat) : M (list nat) :=
  match head_in_out with
  | None =>
      fprintf_stderr "linked_list_prepend_override: head_in_out is NULL\n" [] ;;
      exit 1
  | Some head =>
      ok <- alloc_request ;;
      if ok then ret (data_ptr :: head)
      else perror "malloc" ;; exit 1
  end.

Fixpoint free_linked_list (head : list nat) : M unit :=
  match head with
  | [] => ret tt
  | data :: next => free data ;; free_linked_list next
  end.

(** The inner loop of [main] over one buffer.  Every turn adds [d_reclen]
    to [offset]; [fuel] bounds the number of turns, and a record with
    [d_reclen = 0], on which the loop of the source never ends, runs it
    out. *)
Fixpoint scan_buffer (fuel : nat) (buffer : nat) (offset bufcount totalfiles : Z) : M Z :=
  if offset <? bufcount then
    match fuel with
    | O => hang
    | S fuel' =>
        h <- gets heap ;;
        let b := block_at h buffer in
        let dent := offset in
        let name := cstring_at b (d_name_of dent) in
        totalfiles' <-
          (if negb ((strcmp "." name =? 0) || (strcmp ".." name =? 0)) then
             let d_type := d_type_of b dent in
             if uchar (load b d_type) =? DT_REG then
               found <- tsearch (buffer, d_name_of dent) ;;
               if negb found then
                 fprintf_stderr "Cannot acquire resources for tree!\n" [] ;;
                 exit 1
               else ret (wrap_int (totalfiles + 1))
             else ret totalfiles
           else ret totalfiles) ;;
        scan_buffer fuel' buffer (wrap_int (offset + d_reclen_at b dent)) bufcount totalfiles'
    end
  else ret totalfiles.

(** The outer loop of [main]: one turn for each answer of the kernel; an
    exhausted directory answers 0. *)
Fixpoint read_directory (answers : list (sysret block)) (dirfd : Z) (size : Z)
    (buffer : nat) (totalfiles : Z) (bufs : list nat) : M (Z * list nat) :=
  match answers with
  | [] =>
      bufcount <- getdents (Ok []) dirfd buffer size ;;
      ret (totalfiles, bufs)
  | answer :: later =>
      n <- getdents answer dirfd buffer size ;;
      let bufcount := wrap_int n in
      if bufcount =? 0 then ret (totalfiles, bufs)
      else if bufcount =? -1 then perror "getdents" ;; exit 1
      else
        totalfiles' <- scan_buffer (Z.to_nat bufcount) buffer 0 bufcount totalfiles ;;
        p <- malloc size ;;
        match p with
        | None => perror "malloc failed" ;; exit 1
        | Some buffer' =>
            bufs' <- linked_list_prepend_override (Some bufs) buffer' ;;
            read_directory later dirfd size buffer' totalfiles' bufs'
        end
  end.

Definition first_char (s : string) : ascii :=
  match s with EmptyString => NUL | String c _ => c end.

Definition main : M Z :=
  let argc := Z.of_nat (List.length (argv w)) in
  let argv0 := nth 0 (argv w) EmptyString in
  let argv1 := nth 1 (argv w) EmptyString in
  if argc <? 2 then
    fprintf_stderr "You must supply a valid directory path.\n" [] ;;
    exit 1
  else if Ascii.eqb (first_char argv1) "-" || negb (Ascii.eqb (first_char argv1) "/") then
    fprintf_stderr "Usage: %s <directory>\n" [AStr argv0] ;;
    fprintf_stderr "  For safety, <directory> must be fully-qualified (i.e., start with /).\n" [] ;;
    fprintf_stderr "  Env: Set DENTLS_DELETE=delete to delete instead of print.\n" [] ;;
    fprintf_stderr "  Env: Set DENTLS_PROGRESS to show progress on stderr.\n" [] ;;
    ret (-1)
  else
    let after_mode : M Z :=
      (match getenv w "DENTLS_PROGRESS" with
       | Some _ => modify (set_show_progress 1)
       | None => ret tt
       end) ;;
      let path := argv1 in
      rc <- access path ;;
      if rc <? 0 then perror "Could not access directory" ;; exit 1 else
      r <- lstat path ;;
      let dstat := snd r in
      if fst r <? 0 then perror "Unable to lstat path" ;; exit 1 else
      if negb (S_ISDIR (st_mode dstat)) then
        fprintf_stderr "The path %s is not a directory.\n" [AStr path] ;;
        exit 1
      else
      let getdents_buf_size := wrap_ulong (st_size dstat * 2) in
      p <- malloc getdents_buf_size ;;
      match p with
      | None => perror "malloc failed" ;; exit 1
      | Some buffer =>
          bufs <- linked_list_prepend_override (Some []) buffer ;;
          dirfd <- open path ;;
          if dirfd <? 0 then perror "Open error" ;; exit 1 else
          rc <- fchdir dirfd ;;
          if rc <? 0 then perror "fchdir" ;; exit 1 else
          r <- read_directory (w_getdents w) dirfd getdents_buf_size buffer 0 bufs ;;
          let totalfiles := fst r in
          let dirent_buffers_list := snd r in
          fprintf_stderr "Total files: %d\n" [AInt totalfiles] ;;
          po <- gets print_only ;;
          fprintf_stderr "Performing %s...\n" [AStr (if negb (po =? 0) then "print" else "delete")] ;;
          t <- gets tree_root ;;
          twalk t walk_tree ;;
          fprintf_stderr "Done\n" [] ;;
          close dirfd ;;
          free_linked_list dirent_buffers_list ;;
          tdestroy t ;;
          ret 0
      end in
    match getenv w "DENTLS_DELETE" with
    | Some v =>
        if negb (strcmp v "delete" =? 0) then
          fprintf_stderr "If you'd like to delete files, please set DENTLS_DELETE to 'delete', *EXACTLY*.\n" [] ;;
          fprintf_stderr "If you did not intend to run deletes, please unset the variable entirely.\n" [] ;;
          ret 1
        else modify (set_print_only 0) ;; after_mode
    | None => after_mode
    end.

(** A run of the program from its initial state. *)
Definition run : result Z * state := main init_state.

End Program.

Arguments M {libc} A.

Notation "x <- m ;; k" := (bind m (fun x => k))
  (at level 61, m at next level, right associativity).
Notation "m ;; k" := (bind m (fun _ => k))
  (at level 61, right associativity).

(** ** Vocabulary of the statements *)

(** The two visits on which [walk_tree] acts, one after the other over a
    list of keys. *)
Fixpoint visit_all {libc : search_impl} (w : world) (ks : list ptr) : M unit :=
  match ks with
  | [] => ret tt
  | k :: later => walk_tree w k endorder 0 ;; visit_all w later
  end.

(** The names the index holds, read through its key pointers. *)
Definition names_of {libc : search_impl} (s : state) : list string :=
  map (name_at (heap s)) (inorder (view (tree_root s))).

(** The markers of progress accounting. *)
Definition progress_event (e : event) : bool :=
  match e with
  | Sleep _ => true
  | FflushStderr => true
  | Stderr fmt _ => String.eqb fmt "%s%lu" || String.eqb fmt "."
  | _ => false
  end.

(** A trace without its progress markers. *)
Definition actions (tr : list event) : list event :=
  filter (fun e => negb (progress_event e)) tr.

Definition is_total (e : event) : bool :=
  match e with
  | Stderr fmt _ => String.eqb fmt "Total files: %d\n"
  | _ => false
  end.


(** The names acted on, printed or handed to [unlink], in order. *)
Definition acted (tr : list event) : list string :=
  flat_map (fun e => printed_name e ++ unlinked_name e) tr.

(** [totalfiles++] done [n] times. *)
Fixpoint bump (n : nat) (totalfiles : Z) : Z :=
  match n with
  | O => totalfiles
  | S n' => bump n' (wrap_int (totalfiles + 1))
  end.

(** [delete_count++] done [n] times. *)
Fixpoint bump_ulong (n : nat) (count : Z) : Z :=
  match n with
  | O => count
  | S n' => bump_ulong n' (wrap_ulong (count + 1))
  end.

(** What a run leaves untouched while the directory is read. *)
Record frame {libc : search_impl} (s s' : state) : Prop := mkFrame {
  fr_delete_count : delete_count s' = delete_count s;
  fr_show_progress : show_progress s' = show_progress s;
  fr_print_only : print_only s' = print_only s;
  fr_heap : heap s' = heap s;
  fr_files : files s' = files s;
  fr_trace : trace s' = trace s
}.

(** What the walk leaves untouched. *)
Record walk_frame {libc : search_impl} (s s' : state) : Prop := mkWalkFrame {
  wf_show_progress : show_progress s' = show_progress s;
  wf_print_only : print_only s' = print_only s;
  wf_tree_root : tree_root s' = tree_root s;
  wf_heap : heap s' = heap s;
  wf_allocs : allocs s' = allocs s
}.

(** The index while buffer [bound] is being filled or scanned. *)
Definition index_inv {libc : search_impl} (s : state) (bound : nat) : Prop :=
  bst (compare_fnames (heap s)) (view (tree_root s)) /\
  NoDup (names_of s) /\
  Forall (fun k => (fst k <= bound)%nat) (inorder (view (tree_root s))).

(** The index at the head of the reading loop: [buffer] is the newest
    block and no key points into it yet. *)
Definition loop_inv {libc : search_impl} (s : state) (buffer : nat) : Prop :=
  S buffer = List.length (heap s) /\
  bst (compare_fnames (heap s)) (view (tree_root s)) /\
  NoDup (names_of s) /\
  Forall (fun k => (fst k < buffer)%nat) (inorder (view (tree_root s))).

Definition getdents_event (dirfd size : Z) (buffer : nat) : event :=
  Syscall (sys_getdents dirfd buffer size).

(** The arguments and the directory pass every check of [main]. *)
Definition healthy (w : world) : bool :=
  let path := nth 1 (argv w) EmptyString in
  (2 <=? Z.of_nat (List.length (argv w))) &&
  Ascii.eqb (first_char path) "/" &&
  match w_access w path with Ok _ => true | Err _ => false end &&
  match w_lstat w path with Ok st => S_ISDIR (st_mode st) | Err _ => false end &&
  match w_open w path with
  | Ok fd => (0 <=? fd) && match w_fchdir w fd with Ok _ => true | Err _ => false end
  | Err _ => false
  end.

(** What [main] makes of [DENTLS_DELETE]: [Some true] to delete, [Some false]
    to print, [None] when the value is refused. *)
Definition mode_request (w : world) : option bool :=
  match getenv w "DENTLS_DELETE" with
  | None => Some false
  | Some v => if strcmp v "delete" =? 0 then Some true else None
  end.

Definition dir_path (w : world) : string := nth 1 (argv w) EmptyString.

Definition dir_fd (w : world) : Z :=
  match w_open w (dir_path w) with Ok fd => fd | Err _ => -1 end.

Definition getdents_buf_size (w : world) : Z :=
  match w_lstat w (dir_path w) with
  | Ok st => wrap_ulong (st_size st * 2)
  | Err _ => 0
  end.

(** The system calls of [main] before the first [getdents]. *)
Definition prelude (w : world) : list event :=
  [Syscall (sys_access (dir_path w)); Syscall (sys_lstat (dir_path w));
   Syscall (sys_open (dir_path w)); Syscall (sys_fchdir (dir_fd w))].

(** The trace of a healthy run that has read [n] batches and the end of
    the directory. *)
Definition reading_trace (w : world) (n : nat) : list event :=
  prelude w ++ map (getdents_event (dir_fd w) (getdents_buf_size w)) (seq 0 (S n)).

Definition total_event (n : Z) : event := Stderr "Total files: %d\n" [AInt n].

Definition mode_event (destructive : bool) : event :=
  Stderr "Performing %s...\n" [AStr (if destructive then "delete" else "print")].

Definition done_events (w : world) : list event :=
  [Stderr "Done\n" []; Syscall (sys_close (dir_fd w))].

(** A batch the kernel can return: at least one record, every record well
    formed, and a byte count that fits the [int] it is stored in. *)
Definition wf_batch (b : list dirent) : bool :=
  match b with [] => false | _ :: _ => true end &&
  forallb wf_dirent b &&
  (Z.of_nat (List.length (encode_batch b)) <? 2147483648).

Definition answer_of (b : list dirent) : sysret block := Ok (encode_batch b).

(** The answer on which the reading loop stops without an error. *)
Definition ends_enumeration (tail : list (sysret block)) : bool :=
  match tail with
  | [] => true
  | Ok [] :: _ => true
  | _ => false
  end.

Definition wanted_names (rs : list dirent) : list string :=
  map d_name (filter wanted rs).

Definition print_event (n : string) : event := Stdout "%s\n" [AStr n].
Definition unlink_event (n : string) : event := Syscall (sys_unlink n).

Definition unlink_errno (w : world) (fs : list string) (n : string) : option Z :=
  match w_unlink w n with
  | Err e => Some e
  | Ok _ => if existsb (String.eqb n) fs then None else Some ENOENT
  end.

Definition remove_names (ns fs : list string) : list string :=
  fold_left (fun acc n => remove_name n acc) ns fs.

(** Every removal of [ns], done in this order from the directory content
    [fs], succeeds. *)
Fixpoint unlinks_ok (w : world) (fs : list string) (ns : list string) : bool :=
  match ns with
  | [] => true
  | n :: later =>
      match unlink_errno w fs n with
      | None => unlinks_ok w (remove_name n fs) later
      | Some _ => false
      end
  end.

Definition failure_events (n : string) (e : Z) : list event :=
  [unlink_event n; Stderr "Failed to delete %s" [AStr n]; Perror "unlink problem" e].

Definition total_line (e : event) : list event :=
  if is_total e then [e] else [].

(** The lines of the trace that report the number of files found. *)
Definition totals (tr : list event) : list event := flat_map total_line tr.

Definition getdents_buffer (e : event) : list nat :=
  match e with
  | Syscall (sys_getdents _ b _) => [b]
  | _ => []
  end.

(** The buffers handed to the successive [getdents] calls. *)
Definition getdents_buffers (tr : list event) : list nat := flat_map getdents_buffer tr.

(** A run that passes every check, is served every allocation, and whose
    directory is answered by the batches [batches], then by its end. *)
Definition clean_run (w : world) (batches : list (list dirent)) : Prop :=
  healthy w = true /\
  (forall n, w_malloc w n = true) /\
  forallb wf_batch batches = true /\
  w_getdents w = map answer_of batches.

(** An argument list [main] accepts. *)
Definition good_args (w : world) : Prop :=
  (2 <= List.length (argv w))%nat /\ first_char (nth 1 (argv w) EmptyString) = "/"%char.

Definition is_stderr (e : event) : bool :=
  match e with Stderr _ _ => true | _ => false end.

Definition is_syscall (e : event) : bool :=
  match e with Syscall _ => true | _ => false end.

(** What any step of the program keeps of the mode, whatever the world:
    the mode flag itself; in report mode the directory and the list of
    [unlink] calls; in destructive mode the primary output stream. *)
Definition mode_kept {libc : search_impl} (s s' : state) : Prop :=
  print_only s' = print_only s /\
  (print_only s <> 0 ->
   unlink_calls (trace s') = unlink_calls (trace s) /\ files s' = files s) /\
  (print_only s = 0 -> stdout_names (trace s') = stdout_names (trace s)).

(** A computation whose final state is always related to its initial one. *)
Definition preserves {libc : search_impl} (R : state -> state -> Prop) {A} (m : M A) : Prop :=
  forall s, R s (snd (m s)).

(** What a step that neither allocates a buffer, nor touches the index,
    nor prints, leaves as it was. *)
Definition same_view {libc : search_impl} (s s' : state) : Prop :=
  heap s' = heap s /\ tree_root s' = tree_root s /\
  print_only s' = print_only s /\ stdout_of (trace s') = stdout_of (trace s).

(** Two states of two runs in report mode that agree on the buffers, the
    index and the primary output stream. *)
Definition sim {libc : search_impl} (s1 s2 : state) : Prop :=
  heap s1 = heap s2 /\ tree_root s1 = tree_root s2 /\
  print_only s1 = print_only s2 /\ print_only s1 <> 0 /\
  stdout_of (trace s1) = stdout_of (trace s2).

(** Two computations that, started in agreeing states, give related values
    and agreeing states whenever both give a value. *)
Definition sim_run {libc : search_impl} {A} (V : A -> A -> Prop) (m1 m2 : M A) : Prop :=
  forall s1 s2, sim s1 s2 ->
  forall a1 s1' a2 s2', m1 s1 = (Val a1, s1') -> m2 s2 = (Val a2, s2') ->
  V a1 a2 /\ sim s1' s2'.

(** A computation that never gives a value: it exits or does not end. *)
Definition fails {libc : search_impl} {A} (m : M A) : Prop :=
  forall s a s', m s <> (Val a, s').

(** Every block of the heap has been freed. *)
Definition all_freed (h : heap_t) : Prop := Forall (fun c => c = None) h.

(** The list of buffers of a run that has read [n] batches, newest first. *)
Definition buffers_of (n : nat) : list nat := rev (seq 1 n) ++ [0%nat].



(** ** Worlds used as examples *)

Definition regular_entry (n : string) : dirent :=
  mkDirent 1 2 n [] (ascii_of_nat 8).

Definition directory_entry (n : string) : dirent :=
  mkDirent 1 2 n [NUL; NUL] (ascii_of_nat 4).

Definition example_batches : list (list dirent) :=
  [[directory_entry "."%string; directory_entry ".."%string; regular_entry "b"%string];
   [regular_entry "a"%string; directory_entry "sub"%string; regular_entry "c"%string]].

(** The same name in two records, which no real directory returns. *)
Definition degenerate_batches : list (list dirent) :=
  [[regular_entry "b"%string; regular_entry "a"%string]; [regular_entry "b"%string]].

(** A directory [/tmp/d] with the regular files a, b, c and a subdirectory;
    the file c cannot be removed. *)
Definition example_world (mode : option string) (answers : list (sysret block)) : world :=
  {| argv := ["dentls"%string; "/tmp/d"%string];
     getenv := fun k => if String.eqb k "DENTLS_DELETE"%string then mode else None;
     w_access := fun _ => Ok tt;
     w_lstat := fun _ => Ok (mkStat 16877 4096);
     w_open := fun _ => Ok 5;
     w_fchdir := fun _ => Ok tt;
     w_getdents := answers;
     w_malloc := fun _ => true;
     w_files := ["a"%string; "b"%string; "c"%string; "sub"%string];
     w_unlink := fun n => if String.eqb n "c"%string then Err 1 else Ok tt |}.

Definition report_world : world := example_world None (map answer_of example_batches).
Definition delete_world : world :=
  example_world (Some "delete"%string) (map answer_of example_batches).
Definition degenerate_world : world :=
  example_world None (map answer_of degenerate_batches).

(** The second [getdents] call fails with [EIO]. *)
Definition failing_world : world :=
  example_world None [answer_of [regular_entry "b"%string]; Err 5].

(** A relative path as the first argument. *)
Definition usage_world : world :=
  {| argv := ["dentls"%string; "tmp/d"%string];
     getenv := getenv delete_world;
     w_access := w_access delete_world;
     w_lstat := w_lstat delete_world;
     w_open := w_open delete_world;
     w_fchdir := w_fchdir delete_world;
     w_getdents := w_getdents delete_world;
     w_malloc := w_malloc delete_world;
     w_files := w_files delete_world;
     w_unlink := w_unlink delete_world |}.

(** A mistyped value of the mode selector. *)
Definition mistyped_world : world :=
  example_world (Some "Delete"%string) (map answer_of example_batches).

(** The same directory answers met by another process: other path, size
    and descriptor, another directory content, progress reporting on. *)
Definition other_report_world : world :=
  {| argv := ["/usr/bin/dentls"%string; "/var/spool/x"%string];
     getenv := fun k => if String.eqb k "DENTLS_PROGRESS"%string
                        then Some "1"%string else None;
     w_access := fun _ => Ok tt;
     w_lstat := fun _ => Ok (mkStat 16877 65536);
     w_open := fun _ => Ok 7;
     w_fchdir := fun _ => Ok tt;
     w_getdents := map answer_of example_batches;
     w_malloc := fun _ => true;
     w_files := ["x"%string];
     w_unlink := fun _ => Err 13 |}.

(** ** Vocabulary of the further properties *)

(** A computation that, from a state where [P] holds, can only return a
    value and a state that satisfy [Q]. *)
Definition hoare {libc : search_impl} {A}
    (P : state -> Prop) (m : M A) (Q : A -> state -> Prop) : Prop :=
  forall s, P s -> forall a s', m s = (Val a, s') -> Q a s'.

(** Every request made to the allocator so far was served. *)
Definition served {libc : search_impl} (w : world) (s : state) : Prop :=
  forall n, (n < allocs s)%nat -> w_malloc w n = true.

(** A computation that exits with status 1 whenever it exits. *)
Definition exits_one {libc : search_impl} {A} (m : M A) : Prop :=
  forall s st s', m s = (Exit st, s') -> st = 1.

(** Between two states of a run: the trace has grown, no name has been
    added to the directory, and every name that has left it was handed to
    [unlink] in between. *)
Definition directory_kept {libc : search_impl} (s s' : state) : Prop :=
  exists evs,
    trace s' = trace s ++ evs /\
    incl (files s') (files s) /\
    forall n, In n (files s) -> In n (files s') \/ In n (unlink_calls evs).

Definition is_sleep (e : event) : bool :=
  match e with Sleep _ => true | _ => false end.

Definition is_dot_marker (e : event) : bool :=
  match e with
  | Stderr fmt _ => String.eqb fmt "."
  | _ => false
  end.

(** The number of pauses and of minor markers in a trace. *)
Definition sleeps (tr : list event) : Z := Z.of_nat (List.length (filter is_sleep tr)).
Definition dot_markers (tr : list event) : Z :=
  Z.of_nat (List.length (filter is_dot_marker tr)).

(** A state in which one buffer holds the record of a file b. *)
Definition one_buffer_state : state (libc := bst_impl) :=
  set_heap [Some (encode_batch [regular_entry "b"%string])] (init_state report_world).

(** A state whose one buffer holds the records of [example_batches],
    followed by two bytes that are not part of them. *)
Definition trailing_buffer_state : state (libc := bst_impl) :=
  set_heap [Some (encode_batch (List.concat example_batches) ++ [NUL; NUL])]
           (init_state report_world).

(** The state at the head of the reading loop: one buffer, not yet
    written, and an empty index. *)
Definition fresh_buffer_state : state (libc := bst_impl) :=
  set_heap [Some []] (init_state report_world).

(** A buffer of zero bytes: its first record has [d_reclen = 0]. *)
Definition zero_buffer_state : state (libc := bst_impl) :=
  set_heap [Some (repeat NUL 24)] (init_state report_world).

(** The directory of [example_world]; nothing is refused. *)
Definition willing_world : world :=
  {| argv := argv delete_world;
     getenv := getenv delete_world;
     w_access := w_access delete_world;
     w_lstat := w_lstat delete_world;
     w_open := w_open delete_world;
     w_fchdir := w_fchdir delete_world;
     w_getdents := w_getdents delete_world;
     w_malloc := w_malloc delete_world;
     w_files := w_files delete_world;
     w_unlink := fun _ => Ok tt |}.

(** A directory that holds a subdirectory only, read as one batch. *)
Definition bare_batches : list (list dirent) :=
  [[directory_entry "."%string; directory_entry ".."%string;
    directory_entry "sub"%string]].

Definition bare_world : world :=
  example_world (Some "delete"%string) (map answer_of bare_batches).

(** The path cannot be read ([EACCES]). *)
Definition unreadable_world : world :=
  {| argv := argv report_world;
     getenv := getenv report_world;
     w_access := fun _ => Err 13;
     w_lstat := w_lstat report_world;
     w_open := w_open report_world;
     w_fchdir := w_fchdir report_world;
     w_getdents := w_getdents report_world;
     w_malloc := w_malloc report_world;
     w_files := w_files report_world;
     w_unlink := w_unlink report_world |}.

(** The directory cannot be opened ([EMFILE]). *)
Definition unopenable_world : world :=
  {| argv := argv report_world;
     getenv := getenv report_world;
     w_access := w_access report_world;
     w_lstat := w_lstat report_world;
     w_open := fun _ => Err 24;
     w_fchdir := w_fchdir report_world;
     w_getdents := w_getdents report_world;
     w_malloc := w_malloc report_world;
     w_files := w_files report_world;
     w_unlink := w_unlink report_world |}.

(** The third request to the allocator, the first node of the index, is
    refused. *)
Definition exhausted_world : world :=
  {| argv := argv report_world;
     getenv := getenv report_world;
     w_access := w_access report_world;
     w_lstat := w_lstat report_world;
     w_open := w_open report_world;
     w_fchdir := w_fchdir report_world;
     w_getdents := w_getdents report_world;
     w_malloc := fun n => negb (Nat.eqb n 2);
     w_files := w_files report_world;
     w_unlink := w_unlink report_world |}.

(** The part of [main] that follows the mode selector, from the look at
    [DENTLS_PROGRESS] to [return 0], taken from [main] itself. *)
Definition after_mode {libc : search_impl} (w : world) : M Z :=
  ltac:(let t := eval cbv beta delta [main] zeta in (main w) in
        match t with
        | context [match getenv w "DENTLS_DELETE" with Some _ => _ | None => ?B end] =>
            exact B
        end).

(** The outcome [out] of a run is [exit(1)] after the system calls
    [calls], with [ev] as the last thing written, the directory as it was
    and [n] requests made to the allocator. *)
Definition ended_after (w : world) {libc : search_impl} (out : result Z * state)
    (calls : list event) (ev : event) (n : nat) : Prop :=
  fst out = Exit 1 /\
  trace (snd out) = calls ++ [ev] /\
  files (snd out) = w_files w /\
  allocs (snd out) = n.

(** A state whose index holds the one name of its buffer, with progress
    marks switched on. *)
Definition indexed_state : state (libc := bst_impl) :=
  set_show_progress 1 (set_tree_root (libc := bst_impl) (T E (0%nat, 18) E) one_buffer_state).

(** Between two states of a run, only events that pass [ok] were added to
    the trace. *)
Definition emits_only {libc : search_impl} (ok : event -> bool) (s s' : state) : Prop :=
  exists evs, trace s' = trace s ++ evs /\ forallb ok evs = true.

Definition not_unlink (e : event) : bool :=
  match e with Syscall (sys_unlink _) => false | _ => true end.

Definition not_getdents (e : event) : bool :=
  match e with Syscall (sys_getdents _ _ _) => false | _ => true end.

(** Not the diagnostic of [linked_list_prepend_override] for a NULL head. *)
Definition not_null_head (e : event) : bool :=
  match e with
  | Stderr fmt _ =>
      negb (String.eqb fmt "linked_list_prepend_override: head_in_out is NULL\n")
  | _ => true
  end.

(** What the program emits while it reads, and while it walks and tears
    down. *)
Definition reading_event (e : event) : bool := not_unlink e && not_null_head e.
Definition walking_event (e : event) : bool := not_getdents e && not_null_head e.

(** The trace has grown by a reading part followed by a walking part. *)
Definition reads_then_removes {libc : search_impl} (s s' : state) : Prop :=
  exists a b,
    trace s' = trace s ++ a ++ b /\ forallb reading_event a = true /\
    forallb walking_event b = true.
(** ** Facts on characters, strings and records *)

Lemma uchar_inj c1 c2 : uchar c1 = uchar c2 -> c1 = c2.
Proof.
  unfold uchar. intros H. apply N2Z.inj in H.
  rewrite <- (ascii_N_embedding c1), <- (ascii_N_embedding c2). now rewrite H.
Qed.

Lemma uchar_range c : 0 <= uchar c < 256.
Proof.
  unfold uchar. pose proof (N_ascii_bounded c). lia.
Qed.

Lemma uchar_NUL c : uchar c = 0 -> c = NUL.
Proof.
  intros H. apply uchar_inj. rewrite H. reflexivity.
Qed.

Lemma uchar_of_N n : 0 <= n < 256 -> uchar (ascii_of_N (Z.to_N n)) = n.
Proof.
  intros H. unfold uchar. rewrite N_ascii_embedding by lia. lia.
Qed.

Lemma strcmp_refl s : strcmp s s = 0.
Proof.
  induction s as [|c s IH]; simpl; [reflexivity|]. now rewrite Ascii.eqb_refl.
Qed.

Lemma strcmp_eq s1 : forall s2,
  nul_free s1 = true -> nul_free s2 = true -> strcmp s1 s2 = 0 -> s1 = s2.
Proof.
  induction s1 as [|c1 r1 IH]; intros [|c2 r2]; simpl; intros H1 H2 H; try reflexivity.
  - apply andb_prop in H2 as [Hc _]. assert (c2 = NUL) by (apply uchar_NUL; lia).
    subst. now rewrite Ascii.eqb_refl in Hc.
  - apply andb_prop in H1 as [Hc _]. assert (c1 = NUL) by (apply uchar_NUL; lia).
    subst. now rewrite Ascii.eqb_refl in Hc.
  - apply andb_prop in H1 as [_ H1]. apply andb_prop in H2 as [_ H2].
    destruct (Ascii.eqb_spec c1 c2) as [->|Hne].
    + f_equal. now apply IH.
    + exfalso. apply Hne. apply uchar_inj. lia.
Qed.

Lemma strcmp_antisym s1 : forall s2, Z.sgn (strcmp s1 s2) = - Z.sgn (strcmp s2 s1).
Proof.
  induction s1 as [|c1 r1 IH]; intros [|c2 r2]; simpl; try reflexivity.
  - pose proof (uchar_range c2). lia.
  - pose proof (uchar_range c1). lia.
  - rewrite (Ascii.eqb_sym c2 c1). destruct (Ascii.eqb c1 c2); [apply IH | lia].
Qed.

Lemma strcmp_trans s1 : forall s2 s3,
  nul_free s1 = true -> nul_free s2 = true -> nul_free s3 = true ->
  strcmp s1 s2 <= 0 -> strcmp s2 s3 <= 0 -> strcmp s1 s3 <= 0.
Proof.
  induction s1 as [|c1 r1 IH]; intros [|c2 r2] [|c3 r3]; simpl;
    intros H1 H2 H3 H12 H23; try lia;
    try (pose proof (uchar_range c3); lia).
  - apply andb_prop in H1 as [Hc _]. assert (c1 = NUL) by (apply uchar_NUL; pose proof (uchar_range c1); lia).
    subst. now rewrite Ascii.eqb_refl in Hc.
  - apply andb_prop in H2 as [Hc _]. assert (c2 = NUL) by (apply uchar_NUL; pose proof (uchar_range c2); lia).
    subst. now rewrite Ascii.eqb_refl in Hc.
  - apply andb_prop in H1 as [_ H1]. apply andb_prop in H2 as [_ H2].
    apply andb_prop in H3 as [_ H3].
    destruct (Ascii.eqb_spec c1 c2) as [->|N12].
    + destruct (Ascii.eqb_spec c2 c3) as [->|N23]; [now apply (IH r2) | lia].
    + destruct (Ascii.eqb_spec c2 c3) as [->|N23].
      * destruct (Ascii.eqb_spec c1 c3); [congruence | lia].
      * destruct (Ascii.eqb_spec c1 c3) as [->|N13].
        -- exfalso. assert (uchar c3 <> uchar c2) by (intro; apply N12; now apply uchar_inj). lia.
        -- lia.
Qed.

Lemma cstring_nul_free cells : nul_free (cstring cells) = true.
Proof.
  induction cells as [|c rest IH]; simpl; [reflexivity|].
  destruct (Ascii.eqb c NUL) eqn:E; simpl; [reflexivity|]. now rewrite E.
Qed.

Lemma cstring_app s rest :
  nul_free s = true -> cstring (list_ascii_of_string s ++ NUL :: rest) = s.
Proof.
  induction s as [|c s IH]; simpl; intros H; [reflexivity|].
  apply andb_prop in H as [Hc Hs]. apply negb_true_iff in Hc. rewrite Hc.
  now rewrite IH.
Qed.

(** ** The plain search tree meets the contract of [tsearch] *)

Section Order.

Variable cmp : ptr -> ptr -> Z.
Hypothesis cmp_ok : cmp_order cmp.

Lemma cmp_sgn x y : Z.sgn (cmp x y) = - Z.sgn (cmp y x).
Proof. apply cmp_ok. Qed.

Lemma cmp_le_trans x y z : cmp x y <= 0 -> cmp y z <= 0 -> cmp x z <= 0.
Proof. apply cmp_ok. Qed.

Lemma cmp_lt_gt x y : cmp x y < 0 <-> 0 < cmp y x.
Proof. pose proof (cmp_sgn x y). lia. Qed.

Lemma cmp_lt_le_trans x y z : cmp x y < 0 -> cmp y z <= 0 -> cmp x z < 0.
Proof.
  intros Hxy Hyz.
  assert (Hxz : cmp x z <= 0) by (apply (cmp_le_trans x y z); lia).
  destruct (Z.eq_dec (cmp x z) 0) as [E0|]; [|lia].
  assert (cmp z x <= 0) by (pose proof (cmp_sgn z x); lia).
  assert (cmp y x <= 0) by (now apply (cmp_le_trans y z x)).
  pose proof (cmp_sgn x y). lia.
Qed.

Lemma cmp_le_lt_trans x y z : cmp x y <= 0 -> cmp y z < 0 -> cmp x z < 0.
Proof.
  intros Hxy Hyz.
  assert (Hxz : cmp x z <= 0) by (apply (cmp_le_trans x y z); lia).
  destruct (Z.eq_dec (cmp x z) 0) as [E0|]; [|lia].
  assert (cmp z x <= 0) by (pose proof (cmp_sgn z x); lia).
  assert (cmp z y <= 0) by (now apply (cmp_le_trans z x y)).
  pose proof (cmp_sgn y z). lia.
Qed.

Lemma tmember_false_lt k x l :
  cmp k x <= 0 -> Forall (fun y => cmp x y < 0) l ->
  existsb (fun y => cmp k y =? 0) l = false.
Proof.
  intros Hk Hl. induction Hl as [|y l Hy _ IH]; simpl; [reflexivity|].
  rewrite IH, orb_false_r. apply Z.eqb_neq.
  pose proof (cmp_le_lt_trans k x y Hk Hy). lia.
Qed.

Lemma tmember_false_gt k x l :
  0 <= cmp k x -> Forall (fun y => cmp y x < 0) l ->
  existsb (fun y => cmp k y =? 0) l = false.
Proof.
  intros Hk Hl. induction Hl as [|y l Hy _ IH]; simpl; [reflexivity|].
  rewrite IH, orb_false_r. apply Z.eqb_neq.
  assert (cmp x k <= 0) by (pose proof (cmp_sgn x k); lia).
  pose proof (cmp_lt_le_trans y x k Hy H).
  pose proof (cmp_sgn k y). lia.
Qed.

Lemma bst_insert_ok k t :
  bst cmp t ->
  bst cmp (bst_insert cmp k t) /\
  Permutation (inorder (bst_insert cmp k t))
              (if tmember cmp k t then inorder t else k :: inorder t).
Proof.
  induction t as [|l IHl x r IHr]; intros Hb.
  - simpl. repeat split; auto.
  - destruct Hb as (Hl & Hr & Fl & Fr).
    unfold tmember. cbn [bst_insert inorder].
    rewrite existsb_app. cbn [existsb].
    destruct (Z.eqb_spec (cmp k x) 0) as [E0|N0].
    + rewrite orb_true_l, orb_true_r. split; [now repeat split | reflexivity].
    + rewrite orb_false_l.
      destruct (Z.ltb_spec (cmp k x) 0) as [Lt|Ge].
      * destruct (IHl Hl) as [Bl Pl].
        rewrite (tmember_false_lt k x (inorder r)) by (lia || assumption).
        rewrite orb_false_r. fold (tmember cmp k l).
        cbn [bst inorder]. split.
        -- repeat split; try assumption.
           eapply Permutation_Forall; [symmetry; exact Pl|].
           destruct (tmember cmp k l); [assumption | now constructor].
        -- destruct (tmember cmp k l).
           ++ now apply Permutation_app_tail.
           ++ change (k :: inorder l ++ x :: inorder r)
                with ((k :: inorder l) ++ x :: inorder r).
              now apply Permutation_app_tail.
      * destruct (IHr Hr) as [Br Pr].
        rewrite (tmember_false_gt k x (inorder l)) by (lia || assumption).
        rewrite orb_false_l. fold (tmember cmp k r).
        cbn [bst inorder]. split.
        -- repeat split; try assumption.
           eapply Permutation_Forall; [symmetry; exact Pr|].
           destruct (tmember cmp k r); [assumption|].
           constructor; [|assumption]. apply cmp_lt_gt. lia.
        -- destruct (tmember cmp k r).
           ++ apply Permutation_app_head. now constructor.
           ++ rewrite Permutation_middle. apply Permutation_app_head.
              etransitivity; [|apply perm_swap]. now constructor.
Qed.

End Order.

Lemma bst_impl_ok : search_ok bst_impl.
Proof.
  split; [reflexivity|]. intros cmp k t Hc Hb. now apply bst_insert_ok.
Qed.

Lemma bst_ext cmp cmp' t :
  (forall x y, In x (inorder t) -> In y (inorder t) -> cmp' x y = cmp x y) ->
  bst cmp t -> bst cmp' t.
Proof.
  induction t as [|l IHl k r IHr]; intros Hext Hb; [exact I|].
  destruct Hb as (Hl & Hr & Fl & Fr). cbn [inorder] in Hext. cbn [bst].
  repeat split.
  - apply IHl; [|assumption]. intros x y Hx Hy. apply Hext; apply in_or_app; now left.
  - apply IHr; [|assumption]. intros x y Hx Hy.
    apply Hext; apply in_or_app; right; now right.
  - rewrite Forall_forall in *. intros x Hx. rewrite Hext; [now apply Fl | |].
    + apply in_or_app; now left.
    + apply in_or_app; right; now left.
  - rewrite Forall_forall in *. intros x Hx. rewrite Hext; [now apply Fr | |].
    + apply in_or_app; right; now left.
    + apply in_or_app; right; now right.
Qed.

Lemma endorder_inorder t : Permutation (endorder_keys t) (inorder t).
Proof.
  induction t as [|l IHl k r IHr]; simpl; [reflexivity|].
  rewrite IHl. apply Permutation_app_head.
  rewrite <- IHr. symmetry. apply Permutation_cons_append.
Qed.

Lemma compare_fnames_order h : cmp_order (compare_fnames h).
Proof.
  split.
  - intros x y. apply strcmp_antisym.
  - intros x y z. unfold compare_fnames, name_at, cstring_at.
    apply strcmp_trans; apply cstring_nul_free.
Qed.

(** ** Reading a record back from the bytes of a buffer *)

Lemma le_bytes_length n : forall x, List.length (le_bytes n x) = n.
Proof.
  induction n as [|n IH]; intros x; simpl; [reflexivity|]. now rewrite IH.
Qed.

Lemma list_ascii_length s : List.length (list_ascii_of_string s) = String.length s.
Proof.
  induction s as [|c s IH]; simpl; [reflexivity|]. now rewrite IH.
Qed.

Lemma encode_dirent_length r :
  Z.of_nat (List.length (encode_dirent r)) = reclen_of r.
Proof.
  unfold encode_dirent, reclen_of.
  rewrite !length_app, !le_bytes_length. cbn [List.length].
  rewrite length_app, list_ascii_length. cbn [List.length]. lia.
Qed.

Lemma encode_dirent_nonempty r : (20 <= List.length (encode_dirent r))%nat.
Proof.
  pose proof (encode_dirent_length r). unfold reclen_of in H. lia.
Qed.

Lemma encode_batch_length_ge rs :
  (List.length rs <= List.length (encode_batch rs))%nat.
Proof.
  induction rs as [|r rs IH]; simpl; [lia|].
  unfold encode_batch in *. cbn [map List.concat]. rewrite length_app.
  pose proof (encode_dirent_nonempty r). lia.
Qed.

Lemma load_at (P : list ascii) x Q z :
  z = Z.of_nat (List.length P) -> load (P ++ x :: Q) z = x.
Proof.
  intros ->. unfold load. rewrite Nat2Z.id. apply nth_middle.
Qed.

Lemma skipn_exact {A} (P Q : list A) : skipn (List.length P) (P ++ Q) = Q.
Proof.
  induction P as [|p P IH]; simpl; [reflexivity | exact IH].
Qed.

Lemma cstring_at_app (P : list ascii) s Q z :
  z = Z.of_nat (List.length P) -> nul_free s = true ->
  cstring_at (P ++ list_ascii_of_string s ++ NUL :: Q) z = s.
Proof.
  intros -> Hs. unfold cstring_at. rewrite Nat2Z.id, skipn_exact.
  now apply cstring_app.
Qed.

Ltac list_norm := repeat (rewrite <- app_assoc || rewrite <- app_comm_cons).

Lemma reclen_bounds r : wf_dirent r = true -> 20 <= reclen_of r < 65536.
Proof.
  intros H. apply andb_prop in H as [_ H].
  apply Z.ltb_lt in H. unfold reclen_of in *. lia.
Qed.

Section Decode.

Variables (pre rest : list ascii) (r : dirent).
Hypothesis r_ok : wf_dirent r = true.

Lemma decode_reclen :
  d_reclen_at (pre ++ encode_dirent r ++ rest) (Z.of_nat (List.length pre)) = reclen_of r.
Proof.
  pose proof (reclen_bounds r r_ok) as Hb.
  set (b := pre ++ encode_dirent r ++ rest).
  set (dent := Z.of_nat (List.length pre)).
  set (lo := ascii_of_N (Z.to_N (reclen_of r mod 256))).
  set (hi := ascii_of_N (Z.to_N (reclen_of r / 256 mod 256))).
  set (tl := list_ascii_of_string (d_name r) ++ NUL :: d_pad r ++ [d_type r]).
  set (hd := pre ++ le_bytes 8 (d_ino r) ++ le_bytes 8 (d_off r)).
  assert (Hlen : Z.of_nat (List.length hd) = dent + 16).
  { unfold hd. rewrite !length_app, !le_bytes_length. unfold dent. lia. }
  assert (E1 : b = hd ++ lo :: hi :: tl ++ rest).
  { unfold b, encode_dirent, hd, tl. rewrite <- !app_assoc. reflexivity. }
  assert (E2 : b = (hd ++ [lo]) ++ hi :: tl ++ rest).
  { rewrite E1, <- app_assoc. reflexivity. }
  unfold d_reclen_at, off_d_reclen.
  rewrite E1 at 1. rewrite (load_at hd lo) by lia.
  rewrite E2. rewrite (load_at (hd ++ [lo]) hi).
  2: { rewrite length_app. cbn [List.length]. lia. }
  unfold lo, hi. rewrite !uchar_of_N by (apply Z.mod_pos_bound; lia).
  rewrite (Z.div_mod (reclen_of r) 256) at 3 by lia.
  rewrite (Z.mod_small (reclen_of r / 256)); [lia|].
  split; [apply Z.div_pos; lia | apply Z.div_lt_upper_bound; lia].
Qed.

Lemma decode_name :
  cstring_at (pre ++ encode_dirent r ++ rest) (d_name_of (Z.of_nat (List.length pre)))
  = d_name r.
Proof.
  pose proof r_ok as Hn. apply andb_prop in Hn as [Hn _].
  unfold encode_dirent, d_name_of, off_d_name.
  replace (pre ++ (le_bytes 8 (d_ino r) ++ le_bytes 8 (d_off r) ++ le_bytes 2 (reclen_of r)
                   ++ list_ascii_of_string (d_name r) ++ NUL :: d_pad r ++ [d_type r]) ++ rest)
    with ((pre ++ le_bytes 8 (d_ino r) ++ le_bytes 8 (d_off r) ++ le_bytes 2 (reclen_of r))
          ++ list_ascii_of_string (d_name r) ++ NUL :: ((d_pad r ++ [d_type r]) ++ rest))
    by (list_norm; reflexivity).
  apply cstring_at_app; [|assumption].
  rewrite !length_app, !le_bytes_length. lia.
Qed.

Lemma decode_type :
  load (pre ++ encode_dirent r ++ rest)
       (d_type_of (pre ++ encode_dirent r ++ rest) (Z.of_nat (List.length pre)))
  = d_type r.
Proof.
  unfold d_type_of. rewrite decode_reclen.
  unfold encode_dirent.
  replace (pre ++ (le_bytes 8 (d_ino r) ++ le_bytes 8 (d_off r) ++ le_bytes 2 (reclen_of r)
                   ++ list_ascii_of_string (d_name r) ++ NUL :: d_pad r ++ [d_type r]) ++ rest)
    with ((pre ++ le_bytes 8 (d_ino r) ++ le_bytes 8 (d_off r) ++ le_bytes 2 (reclen_of r)
           ++ list_ascii_of_string (d_name r) ++ NUL :: d_pad r) ++ d_type r :: rest)
    by (list_norm; reflexivity).
  apply load_at.
  rewrite !length_app, !le_bytes_length. cbn [List.length].
  rewrite list_ascii_length. unfold reclen_of. lia.
Qed.

End Decode.

Lemma strcmp_eqb a b :
  nul_free a = true -> nul_free b = true -> (strcmp a b =? 0) = String.eqb b a.
Proof.
  intros Ha Hb. destruct (String.eqb_spec b a) as [->|Hne].
  - rewrite strcmp_refl. reflexivity.
  - apply Z.eqb_neq. intros H. apply Hne. symmetry. now apply strcmp_eq.
Qed.

Lemma wrap_int_small x : -2147483648 <= x < 2147483648 -> wrap_int x = x.
Proof.
  intros H. unfold wrap_int. rewrite Z.mod_small; lia.
Qed.

(** ** The heap *)

Lemma block_at_store_same h a b :
  (a < List.length h)%nat -> block_at (heap_store h a b) a = b.
Proof.
  unfold block_at. revert a. induction h as [|x h IH]; intros [|a] H; simpl in *; try lia.
  - reflexivity.
  - apply IH. lia.
Qed.

Lemma block_at_store_other h a a' b :
  a <> a' -> block_at (heap_store h a b) a' = block_at h a'.
Proof.
  unfold block_at. revert a a'.
  induction h as [|x h IH]; intros [|a] [|a'] H; simpl; try reflexivity; try lia.
  apply IH. lia.
Qed.

Lemma heap_store_length h a b : List.length (heap_store h a b) = List.length h.
Proof.
  revert a. induction h as [|x h IH]; intros [|a]; simpl; try reflexivity.
  now rewrite IH.
Qed.

Lemma block_at_grow h x a :
  (a < List.length h)%nat -> block_at (h ++ [x]) a = block_at h a.
Proof.
  intros H. unfold block_at. now rewrite nth_error_app1.
Qed.

Lemma name_at_store_other h a b p :
  fst p <> a -> name_at (heap_store h a b) p = name_at h p.
Proof.
  intros H. unfold name_at. rewrite block_at_store_other; auto.
Qed.

Lemma name_at_grow h x p :
  (fst p < List.length h)%nat -> name_at (h ++ [x]) p = name_at h p.
Proof.
  intros H. unfold name_at. now rewrite block_at_grow.
Qed.

Lemma name_at_nul_free h p : nul_free (name_at h p) = true.
Proof. apply cstring_nul_free. Qed.

Lemma heap_free_length h : forall a, List.length (heap_free h a) = List.length h.
Proof.
  induction h as [|x h IH]; intros [|a]; simpl; try reflexivity. now rewrite IH.
Qed.

Lemma heap_free_same h : forall a,
  (a < List.length h)%nat -> nth_error (heap_free h a) a = Some None.
Proof.
  induction h as [|x h IH]; intros [|a] H; simpl in *; try lia; [reflexivity|].
  apply IH. lia.
Qed.

Lemma heap_free_keeps h : forall a b,
  nth_error h b = Some None -> nth_error (heap_free h a) b = Some None.
Proof.
  induction h as [|x h IH]; intros [|a] [|b] H; simpl in *; try discriminate;
    try assumption; try reflexivity.
  now apply IH.
Qed.

Lemma free_all_keeps bufs : forall h b,
  nth_error h b = Some None -> nth_error (fold_left heap_free bufs h) b = Some None.
Proof.
  induction bufs as [|a bufs IH]; intros h b H; [exact H|].
  cbn [fold_left]. apply IH. now apply heap_free_keeps.
Qed.

Lemma free_all_length bufs : forall h,
  List.length (fold_left heap_free bufs h) = List.length h.
Proof.
  induction bufs as [|a bufs IH]; intros h; [reflexivity|].
  cbn [fold_left]. now rewrite IH, heap_free_length.
Qed.

Lemma free_all_frees bufs : forall h b,
  In b bufs -> (b < List.length h)%nat ->
  nth_error (fold_left heap_free bufs h) b = Some None.
Proof.
  induction bufs as [|a bufs IH]; intros h b Hin Hb; [destruct Hin|].
  cbn [fold_left]. destruct Hin as [->|Hin].
  - apply free_all_keeps. now apply heap_free_same.
  - apply IH; [assumption|]. now rewrite heap_free_length.
Qed.

Lemma buffers_of_all_freed n h :
  List.length h = S n -> all_freed (fold_left heap_free (buffers_of n) h).
Proof.
  intros Hlen. unfold all_freed. apply Forall_forall. intros c Hc.
  apply In_nth_error in Hc as [b Hb].
  assert (Hlt : (b < S n)%nat).
  { rewrite <- Hlen, <- (free_all_length (buffers_of n) h).
    apply nth_error_Some. rewrite Hb. discriminate. }
  rewrite free_all_frees in Hb; [now injection Hb as <-| |lia].
  unfold buffers_of. apply in_or_app. destruct b as [|b]; [right; now left|].
  left. apply -> in_rev. apply in_seq. lia.
Qed.

(** ** The monad *)

Section Monad.

Context {libc : search_impl}.

Lemma bind_val {A B} (m : M A) (k : A -> M B) s a s' :
  m s = (Val a, s') -> bind m k s = k a s'.
Proof. intros H. unfold bind. now rewrite H. Qed.

Lemma bind_exit {A B} (m : M A) (k : A -> M B) s st s' :
  m s = (Exit st, s') -> bind m k s = (Exit st, s').
Proof. intros H. unfold bind. now rewrite H. Qed.

Lemma bind_assoc {A B C} (m : M A) (f : A -> M B) (g : B -> M C) s :
  bind (bind m f) g s = bind m (fun a => bind (f a) g) s.
Proof. unfold bind. destruct (m s) as [[a| |] s']; reflexivity. Qed.

Lemma bind_ret_unit (m : M unit) s : bind m (fun _ => ret tt) s = m s.
Proof. unfold bind, ret. destruct (m s) as [[[]| |] s']; reflexivity. Qed.

Lemma bind_ext {A B} (m m' : M A) (k k' : A -> M B) s :
  m s = m' s -> (forall a s', k a s' = k' a s') -> bind m k s = bind m' k' s.
Proof.
  intros Hm Hk. unfold bind. rewrite Hm. destruct (m' s) as [[a| |] s']; auto.
Qed.

(** A computation that gives a value has gone through its first part. *)
Lemma bind_inv {A B} (m : M A) (k : A -> M B) s b s'' :
  bind m k s = (Val b, s'') ->
  exists a s', m s = (Val a, s') /\ k a s' = (Val b, s'').
Proof.
  unfold bind. destruct (m s) as [[a| |] s']; intros H; try discriminate.
  now exists a, s'.
Qed.

End Monad.

(** ** The walk *)

Lemma progress_not_printed e : progress_event e = true -> printed_name e = [].
Proof.
  destruct e as [fmt args|fmt args| | | |c]; simpl; try discriminate; reflexivity.
Qed.

Lemma progress_not_unlink e : progress_event e = true -> unlinked_name e = [].
Proof.
  destruct e as [fmt args|fmt args| | | |c]; simpl; try discriminate; reflexivity.
Qed.

Lemma progress_not_total e : progress_event e = true -> is_total e = false.
Proof.
  destruct e as [fmt args|fmt args| | | |c]; simpl; try discriminate; try reflexivity.
  intros H. apply orb_prop in H as [H|H]; apply String.eqb_eq in H; subst; reflexivity.
Qed.

Lemma flat_map_actions {A} (f : event -> list A) tr :
  (forall e, progress_event e = true -> f e = []) ->
  flat_map f (actions tr) = flat_map f tr.
Proof.
  intros Hf. induction tr as [|e tr IH]; simpl; [reflexivity|].
  destruct (progress_event e) eqn:E; simpl.
  - now rewrite (Hf e E).
  - now rewrite IH.
Qed.

Lemma stdout_names_actions tr : stdout_names (actions tr) = stdout_names tr.
Proof. apply flat_map_actions, progress_not_printed. Qed.

Lemma unlink_calls_actions tr : unlink_calls (actions tr) = unlink_calls tr.
Proof. apply flat_map_actions, progress_not_unlink. Qed.

Lemma acted_actions tr : acted (actions tr) = acted tr.
Proof.
  apply flat_map_actions. intros e H.
  now rewrite progress_not_printed, progress_not_unlink.
Qed.

Lemma actions_app a b : actions (a ++ b) = actions a ++ actions b.
Proof. apply filter_app. Qed.

Lemma stdout_names_app a b : stdout_names (a ++ b) = stdout_names a ++ stdout_names b.
Proof. apply flat_map_app. Qed.

Lemma unlink_calls_app a b : unlink_calls (a ++ b) = unlink_calls a ++ unlink_calls b.
Proof. apply flat_map_app. Qed.

Lemma acted_app a b : acted (a ++ b) = acted a ++ acted b.
Proof. apply flat_map_app. Qed.

Lemma stdout_names_print ns : stdout_names (map print_event ns) = ns.
Proof. induction ns as [|n ns IH]; simpl; [reflexivity | now rewrite IH]. Qed.

Lemma unlink_calls_print ns : unlink_calls (map print_event ns) = [].
Proof. induction ns as [|n ns IH]; simpl; [reflexivity | exact IH]. Qed.

Lemma unlink_calls_unlink ns : unlink_calls (map unlink_event ns) = ns.
Proof. induction ns as [|n ns IH]; simpl; [reflexivity | now rewrite IH]. Qed.

Lemma stdout_names_unlink ns : stdout_names (map unlink_event ns) = [].
Proof. induction ns as [|n ns IH]; simpl; [reflexivity | exact IH]. Qed.

Lemma acted_print ns : acted (map print_event ns) = ns.
Proof. induction ns as [|n ns IH]; simpl; [reflexivity | now rewrite IH]. Qed.

Lemma acted_unlink ns : acted (map unlink_event ns) = ns.
Proof. induction ns as [|n ns IH]; simpl; [reflexivity | now rewrite IH]. Qed.

Section Walk.

Context {libc : search_impl}.
Variable w : world.

Lemma walk_tree_ignored node lvl s :
  walk_tree w node preorder lvl s = (Val tt, s) /\
  walk_tree w node postorder lvl s = (Val tt, s).
Proof. split; reflexivity. Qed.

Lemma walk_tree_leaf node lvl s :
  walk_tree w node leaf lvl s = walk_tree w node endorder 0 s.
Proof. reflexivity. Qed.

Lemma walk_tree_lvl node lvl s :
  walk_tree w node endorder lvl s = walk_tree w node endorder 0 s.
Proof. reflexivity. Qed.

Lemma visit_all_app a : forall b s,
  visit_all w (a ++ b) s = bind (visit_all w a) (fun _ => visit_all w b) s.
Proof.
  induction a as [|k a IH]; intros b s; [reflexivity|].
  cbn [app visit_all]. rewrite bind_assoc. apply bind_ext; [reflexivity|].
  intros _ s'. apply IH.
Qed.

(** [twalk] with [walk_tree] is the action at each key in end order. *)
Lemma twalk_rec_visit t : forall lvl s,
  twalk_rec t (walk_tree w) lvl s = visit_all w (endorder_keys t) s.
Proof.
  induction t as [|l IHl k r IHr]; intros lvl s; [reflexivity|].
  cbn [twalk_rec endorder_keys].
  destruct (is_E l && is_E r) eqn:Leaf.
  - apply andb_prop in Leaf as [El Er].
    destruct l; [|discriminate]. destruct r; [|discriminate].
    cbn [endorder_keys app visit_all]. rewrite bind_ret_unit. apply walk_tree_leaf.
  - rewrite visit_all_app.
    change (bind (walk_tree w k preorder lvl) ?f s) with (f tt s). cbv beta.
    apply bind_ext; [apply IHl|]. intros _ s1.
    change (bind (walk_tree w k postorder lvl) ?f s1) with (f tt s1). cbv beta.
    rewrite visit_all_app.
    apply bind_ext; [apply IHr|]. intros _ s2.
    cbn [visit_all]. rewrite bind_ret_unit. apply walk_tree_lvl.
Qed.

End Walk.

Section WalkSteps.

Context {libc : search_impl}.
Variable w : world.

Ltac run_step :=
  unfold walk_tree, unlink, fail_with, perror, printf, fprintf_stderr, fflush_stderr,
    sleep, emit, exit, bind, gets, modify, ret;
  cbn [delete_count show_progress print_only tree_root heap errno allocs files trace
       set_delete_count set_show_progress set_print_only set_tree_root set_heap
       set_errno set_allocs set_files emit_event negb fst snd].

Ltac state_fields :=
  cbn [delete_count show_progress print_only tree_root heap errno allocs files trace
       set_delete_count set_show_progress set_print_only set_tree_root set_heap
       set_errno set_allocs set_files emit_event].

Ltac finish_step :=
  eexists; split; [reflexivity|];
  split; [constructor; reflexivity|];
  split; [reflexivity|]; split; [reflexivity|];
  state_fields; rewrite <- ?app_assoc; eexists; split; reflexivity.

Lemma walk_print_step k s :
  print_only s <> 0 ->
  exists s',
    walk_tree w k endorder 0 s = (Val tt, s') /\
    walk_frame s s' /\ files s' = files s /\
    delete_count s' = wrap_ulong (delete_count s + 1) /\
    exists evs, trace s' = trace s ++ evs /\
                actions evs = [print_event (name_at (heap s) k)].
Proof.
  intros Hpo. apply Z.eqb_neq in Hpo. run_step. rewrite Hpo. run_step.
  change (0 <? 0) with false. cbv beta iota. state_fields.
  destruct (show_progress s =? 0); cbn [negb]; [finish_step|].
  state_fields.
  destruct (_ mod _ =? 0); [finish_step|].
  destruct (_ mod _ =? 0); finish_step.
Qed.

Lemma walk_unlink_step k s u :
  print_only s = 0 ->
  w_unlink w (name_at (heap s) k) = Ok u ->
  existsb (String.eqb (name_at (heap s) k)) (files s) = true ->
  exists s',
    walk_tree w k endorder 0 s = (Val tt, s') /\
    walk_frame s s' /\
    files s' = remove_name (name_at (heap s) k) (files s) /\
    delete_count s' = wrap_ulong (delete_count s + 1) /\
    exists evs, trace s' = trace s ++ evs /\
                actions evs = [unlink_event (name_at (heap s) k)].
Proof.
  intros Hpo Hu Hin. run_step. rewrite Hpo. change (0 =? 0) with true.
  run_step. rewrite Hu. run_step. rewrite Hin. run_step.
  change (0 <? 0) with false. cbv beta iota. state_fields.
  destruct (show_progress s =? 0); cbn [negb]; [finish_step|].
  state_fields.
  destruct (_ mod _ =? 0); [finish_step|].
  destruct (_ mod _ =? 0); finish_step.
Qed.

Lemma walk_unlink_fail k s e :
  print_only s = 0 ->
  unlink_errno w (files s) (name_at (heap s) k) = Some e ->
  exists s',
    walk_tree w k endorder 0 s = (Exit 1, s') /\
    walk_frame s s' /\ files s' = files s /\
    trace s' = trace s ++ [unlink_event (name_at (heap s) k);
                           Stderr "Failed to delete %s" [AStr (name_at (heap s) k)];
                           Perror "unlink problem" e].
Proof.
  intros Hpo He. unfold unlink_errno in He. run_step. rewrite Hpo.
  change (0 =? 0) with true. run_step.
  destruct (w_unlink w (name_at (heap s) k)) as [u|e'].
  - run_step. destruct (existsb _ (files s)); [discriminate|].
    injection He as <-. run_step. change (-1 <? 0) with true. cbv beta iota.
    eexists; split; [reflexivity|]. split; [constructor; reflexivity|].
    split; [reflexivity|]. state_fields. rewrite <- !app_assoc. reflexivity.
  - injection He as <-. run_step. change (-1 <? 0) with true. cbv beta iota.
    eexists; split; [reflexivity|]. split; [constructor; reflexivity|].
    split; [reflexivity|]. state_fields. rewrite <- !app_assoc. reflexivity.
Qed.

Lemma bump_ulong_S n : forall c, bump_ulong (S n) c = wrap_ulong (bump_ulong n c + 1).
Proof.
  induction n as [|n IH]; intros c; [reflexivity|].
  change (bump_ulong (S (S n)) c) with (bump_ulong (S n) (wrap_ulong (c + 1))).
  rewrite IH. reflexivity.
Qed.

Lemma walk_frame_refl s : walk_frame s s.
Proof. constructor; reflexivity. Qed.

Lemma walk_frame_trans s1 s2 s3 : walk_frame s1 s2 -> walk_frame s2 s3 -> walk_frame s1 s3.
Proof.
  intros [A1 A2 A3 A4 A5] [B1 B2 B3 B4 B5]. constructor; congruence.
Qed.

(** Report mode: every key is printed, nothing else is done. *)
Lemma visit_all_print ks : forall s,
  print_only s <> 0 ->
  exists s',
    visit_all w ks s = (Val tt, s') /\
    walk_frame s s' /\ files s' = files s /\
    delete_count s' = bump_ulong (List.length ks) (delete_count s) /\
    exists evs, trace s' = trace s ++ evs /\
                actions evs = map print_event (map (name_at (heap s)) ks).
Proof.
  induction ks as [|k ks IH]; intros s Hpo.
  - exists s. split; [reflexivity|]. split; [apply walk_frame_refl|].
    split; [reflexivity|]. split; [reflexivity|].
    exists []. split; [now rewrite app_nil_r | reflexivity].
  - destruct (walk_print_step k s Hpo) as (s1 & R1 & F1 & Fi1 & D1 & evs1 & T1 & A1).
    assert (Hpo1 : print_only s1 <> 0) by (rewrite (wf_print_only _ _ F1); exact Hpo).
    destruct (IH s1 Hpo1) as (s2 & R2 & F2 & Fi2 & D2 & evs2 & T2 & A2).
    exists s2. cbn [visit_all]. rewrite (bind_val _ _ _ _ _ R1).
    split; [exact R2|]. split; [eapply walk_frame_trans; eassumption|].
    split; [congruence|].
    split; [rewrite D2, D1; reflexivity|].
    exists (evs1 ++ evs2). split.
    + rewrite T2, T1, app_assoc. reflexivity.
    + rewrite actions_app, A1, A2, (wf_heap _ _ F1). reflexivity.
Qed.

Lemma existsb_eqb_In n fs : existsb (String.eqb n) fs = true <-> In n fs.
Proof.
  rewrite existsb_exists. split.
  - intros (x & Hx & E). apply String.eqb_eq in E. now subst.
  - intros H. exists n. split; [assumption | apply String.eqb_refl].
Qed.

Lemma unlink_errno_none fs n :
  unlink_errno w fs n = None ->
  (exists u, w_unlink w n = Ok u) /\ existsb (String.eqb n) fs = true.
Proof.
  unfold unlink_errno. destruct (w_unlink w n) as [u|e]; [|discriminate].
  destruct (existsb (String.eqb n) fs); [|discriminate].
  intros _. split; [now exists u | reflexivity].
Qed.

(** Destructive mode while every removal succeeds. *)
Lemma visit_all_unlink ks : forall s,
  print_only s = 0 ->
  unlinks_ok w (files s) (map (name_at (heap s)) ks) = true ->
  exists s',
    visit_all w ks s = (Val tt, s') /\
    walk_frame s s' /\
    files s' = remove_names (map (name_at (heap s)) ks) (files s) /\
    delete_count s' = bump_ulong (List.length ks) (delete_count s) /\
    exists evs, trace s' = trace s ++ evs /\
                actions evs = map unlink_event (map (name_at (heap s)) ks).
Proof.
  induction ks as [|k ks IH]; intros s Hpo Hok.
  - exists s. split; [reflexivity|]. split; [apply walk_frame_refl|].
    split; [reflexivity|]. split; [reflexivity|].
    exists []. split; [now rewrite app_nil_r | reflexivity].
  - cbn [map unlinks_ok] in Hok.
    destruct (unlink_errno w (files s) (name_at (heap s) k)) eqn:E; [discriminate|].
    destruct (unlink_errno_none _ _ E) as [[u Hu] Hin].
    destruct (walk_unlink_step k s u Hpo Hu Hin)
      as (s1 & R1 & F1 & Fi1 & D1 & evs1 & T1 & A1).
    assert (Hpo1 : print_only s1 = 0) by (rewrite (wf_print_only _ _ F1); exact Hpo).
    destruct (IH s1 Hpo1) as (s2 & R2 & F2 & Fi2 & D2 & evs2 & T2 & A2).
    + rewrite (wf_heap _ _ F1), Fi1. exact Hok.
    + exists s2. cbn [visit_all]. rewrite (bind_val _ _ _ _ _ R1).
      split; [exact R2|]. split; [eapply walk_frame_trans; eassumption|].
      split; [rewrite Fi2, Fi1, (wf_heap _ _ F1); reflexivity|].
      split; [rewrite D2, D1; reflexivity|].
      exists (evs1 ++ evs2). split.
      * rewrite T2, T1, app_assoc. reflexivity.
      * rewrite actions_app, A1, A2, (wf_heap _ _ F1). reflexivity.
Qed.

(** Destructive mode when the removal after [pre] fails. *)
Lemma visit_all_unlink_fail pre k post s e :
  print_only s = 0 ->
  unlinks_ok w (files s) (map (name_at (heap s)) pre) = true ->
  unlink_errno w (remove_names (map (name_at (heap s)) pre) (files s))
               (name_at (heap s) k) = Some e ->
  exists s',
    visit_all w (pre ++ k :: post) s = (Exit 1, s') /\
    walk_frame s s' /\
    files s' = remove_names (map (name_at (heap s)) pre) (files s) /\
    exists evs, trace s' = trace s ++ evs ++ failure_events (name_at (heap s) k) e /\
                actions evs = map unlink_event (map (name_at (heap s)) pre).
Proof.
  intros Hpo Hok He.
  destruct (visit_all_unlink pre s Hpo Hok)
    as (s1 & R1 & F1 & Fi1 & D1 & evs1 & T1 & A1).
  assert (Hpo1 : print_only s1 = 0) by (rewrite (wf_print_only _ _ F1); exact Hpo).
  rewrite <- Fi1, <- (wf_heap _ _ F1) in He.
  destruct (walk_unlink_fail k s1 e Hpo1 He) as (s2 & R2 & F2 & Fi2 & T2).
  exists s2. rewrite visit_all_app, (bind_val _ _ _ _ _ R1).
  cbn [visit_all]. rewrite (bind_exit _ _ _ _ _ R2).
  split; [reflexivity|]. split; [eapply walk_frame_trans; eassumption|].
  split; [congruence|].
  exists evs1. split; [|exact A1].
  rewrite T2, T1, (wf_heap _ _ F1), <- app_assoc. reflexivity.
Qed.

(** The removals of a list either all succeed or have a first failure. *)
Lemma unlinks_split ns : forall fs,
  unlinks_ok w fs ns = true \/
  exists pre x post e,
    ns = pre ++ x :: post /\ unlinks_ok w fs pre = true /\
    unlink_errno w (remove_names pre fs) x = Some e.
Proof.
  induction ns as [|n ns IH]; intros fs; [now left|].
  cbn [unlinks_ok]. destruct (unlink_errno w fs n) as [e|] eqn:E.
  - right. exists [], n, ns, e. repeat split; assumption.
  - destruct (IH (remove_name n fs)) as [Hok|(pre & x & post & e & -> & Hok & He)].
    + now left.
    + right. exists (n :: pre), x, post, e. cbn [unlinks_ok]. rewrite E.
      repeat split; assumption.
Qed.

Lemma unlinks_ok_app pre post : forall fs,
  unlinks_ok w fs (pre ++ post) = true ->
  unlinks_ok w fs pre = true /\ unlinks_ok w (remove_names pre fs) post = true.
Proof.
  induction pre as [|n pre IH]; intros fs H; [now split|].
  cbn [app unlinks_ok] in *.
  destruct (unlink_errno w fs n); [discriminate|]. now apply IH.
Qed.

(** The first failure is the only place where a failure follows successes. *)
Lemma first_failure_unique pre : forall fs x post e pre' x' post' e',
  pre ++ x :: post = pre' ++ x' :: post' ->
  unlinks_ok w fs pre = true -> unlink_errno w (remove_names pre fs) x = Some e ->
  unlinks_ok w fs pre' = true -> unlink_errno w (remove_names pre' fs) x' = Some e' ->
  pre = pre' /\ x = x' /\ post = post' /\ e = e'.
Proof.
  induction pre as [|n pre IH]; intros fs x post e [|n' pre'] x' post' e' Heq Hok He Hok' He'.
  - cbn [app] in Heq. injection Heq as E1 E2. subst.
    cbn in He, He'. rewrite He in He'. now injection He' as ->.
  - cbn [app] in Heq. injection Heq as E1 E2. subst.
    cbn in He. cbn [unlinks_ok] in Hok'. rewrite He in Hok'. discriminate.
  - cbn [app] in Heq. injection Heq as E1 E2. subst.
    cbn in He'. cbn [unlinks_ok] in Hok. rewrite He' in Hok. discriminate.
  - cbn [app] in Heq. injection Heq as E1 E2. subst n'.
    cbn [unlinks_ok] in Hok, Hok'.
    change (remove_names (n :: pre) fs) with (remove_names pre (remove_name n fs)) in He.
    change (remove_names (n :: pre') fs) with (remove_names pre' (remove_name n fs)) in He'.
    destruct (unlink_errno w fs n); [discriminate|].
    destruct (IH (remove_name n fs) x post e pre' x' post' e' E2 Hok He Hok' He')
      as (E3 & E4 & E5 & E6).
    subst. repeat split; reflexivity.
Qed.

End WalkSteps.

(** ** Reading the directory *)

Section Enumeration.

Context {libc : search_impl}.
Hypothesis libc_ok : search_ok libc.
Variable w : world.
Hypothesis malloc_ok : forall n, w_malloc w n = true.

Ltac state_fields :=
  cbn [delete_count show_progress print_only tree_root heap errno allocs files trace
       set_delete_count set_show_progress set_print_only set_tree_root set_heap
       set_errno set_allocs set_files emit_event].

Lemma frame_refl s : frame s s.
Proof. constructor; reflexivity. Qed.

Lemma frame_trans s1 s2 s3 : frame s1 s2 -> frame s2 s3 -> frame s1 s3.
Proof.
  intros [A1 A2 A3 A4 A5 A6] [B1 B2 B3 B4 B5 B6]. constructor; congruence.
Qed.

Lemma alloc_request_ok s :
  alloc_request w s = (Val true, set_allocs (S (allocs s)) s).
Proof.
  unfold alloc_request, bind, gets, modify, ret. now rewrite malloc_ok.
Qed.

Lemma tmember_names h key t :
  tmember (compare_fnames h) key t =
  existsb (String.eqb (name_at h key)) (map (name_at h) (inorder t)).
Proof.
  unfold tmember, compare_fnames.
  induction (inorder t) as [|x l IH]; simpl; [reflexivity|].
  rewrite IH, strcmp_eqb by apply name_at_nul_free.
  now rewrite String.eqb_sym.
Qed.

Lemma tsearch_spec key s bound :
  index_inv s bound -> (fst key <= bound)%nat ->
  exists s',
    tsearch w key s = (Val true, s') /\ frame s s' /\ index_inv s' bound /\
    forall n, In n (names_of s') <-> n = name_at (heap s) key \/ In n (names_of s).
Proof.
  intros (Hb & Hnd & Hk) Hkey.
  destruct libc_ok as [_ Hins].
  destruct (Hins (compare_fnames (heap s)) key (tree_root s)
                 (compare_fnames_order _) Hb) as [Hb' Hp].
  set (t' := tinsert (compare_fnames (heap s)) key (tree_root s)) in *.
  assert (Hn : Permutation (map (name_at (heap s)) (inorder (view t')))
                 (if tmember (compare_fnames (heap s)) key (view (tree_root s))
                  then names_of s else name_at (heap s) key :: names_of s)).
  { rewrite Hp. destruct (tmember _ key _); reflexivity. }
  assert (Hfa : Forall (fun k => (fst k <= bound)%nat) (inorder (view t'))).
  { eapply Permutation_Forall; [symmetry; exact Hp|].
    destruct (tmember _ key _); [assumption | now constructor]. }
  assert (Hinv : forall s', heap s' = heap s -> tree_root s' = t' ->
            index_inv s' bound /\
            forall n, In n (names_of s') <-> n = name_at (heap s) key \/ In n (names_of s)).
  { intros s' Hh Ht. unfold index_inv, names_of. rewrite Hh, Ht.
    split; [split; [exact Hb'|split; [|exact Hfa]]|].
    - eapply Permutation_NoDup; [symmetry; exact Hn|].
      rewrite tmember_names. fold (names_of s).
      destruct (existsb _ (names_of s)) eqn:E; [assumption|].
      constructor; [|assumption]. intros Hin.
      apply existsb_eqb_In in Hin. congruence.
    - intros n.
      assert (Hiff : In n (map (name_at (heap s)) (inorder (view t'))) <->
                     In n (if tmember (compare_fnames (heap s)) key (view (tree_root s))
                           then names_of s else name_at (heap s) key :: names_of s)).
      { split; apply Permutation_in; [exact Hn | symmetry; exact Hn]. }
      rewrite Hiff. clear Hiff.
      rewrite tmember_names. fold (names_of s).
      destruct (existsb _ (names_of s)) eqn:E.
      + apply existsb_eqb_In in E. split; [tauto|]. intros [->|H]; assumption.
      + simpl. split; intros [H|H]; auto. }
  unfold tsearch, bind, gets, modify, ret.
  destruct (tmember (compare_fnames (heap s)) key (view (tree_root s))) eqn:E.
  - eexists. split; [reflexivity|]. split; [constructor; reflexivity|].
    apply Hinv; reflexivity.
  - rewrite alloc_request_ok.
    eexists. split; [reflexivity|]. split; [constructor; reflexivity|].
    apply Hinv; reflexivity.
Qed.

Lemma dot_test r :
  wf_dirent r = true ->
  (strcmp "." (d_name r) =? 0) || (strcmp ".." (d_name r) =? 0) = is_dot r.
Proof.
  intros H. apply andb_prop in H as [Hn _]. unfold is_dot.
  now rewrite !strcmp_eqb by (assumption || reflexivity).
Qed.

Lemma encode_batch_cons r rs :
  encode_batch (r :: rs) = encode_dirent r ++ encode_batch rs.
Proof. reflexivity. Qed.

Lemma scan_buffer_spec buffer rs : forall pre fuel tot s bufcount,
  forallb wf_dirent rs = true ->
  block_at (heap s) buffer = pre ++ encode_batch rs ->
  bufcount = Z.of_nat (List.length (pre ++ encode_batch rs)) ->
  bufcount < 2147483648 ->
  (List.length rs <= fuel)%nat ->
  index_inv s buffer ->
  exists s',
    scan_buffer w fuel buffer (Z.of_nat (List.length pre)) bufcount tot s
      = (Val (bump (List.length (filter wanted rs)) tot), s') /\
    frame s s' /\ index_inv s' buffer /\
    forall n, In n (names_of s') <-> In n (names_of s) \/ In n (wanted_names rs).
Proof.
  induction rs as [|r rs IH]; intros pre fuel tot s bufcount Hwf Hblk Hbc Hlt Hfuel Hinv.
  - exists s. rewrite app_nil_r in Hbc. subst bufcount.
    destruct fuel; cbn [scan_buffer]; rewrite Z.ltb_irrefl;
      (split; [reflexivity|]; split; [apply frame_refl|]; split; [assumption|];
       intros n; simpl; tauto).
  - cbn [forallb] in Hwf. apply andb_prop in Hwf as [Hr Hrs].
    destruct fuel as [|fuel]; [simpl in Hfuel; lia|].
    rewrite encode_batch_cons in Hblk, Hbc.
    pose proof (encode_dirent_length r) as Hlen.
    pose proof (reclen_bounds r Hr) as Hrec.
    assert (Hoff : Z.of_nat (List.length pre) + reclen_of r
                   = Z.of_nat (List.length (pre ++ encode_dirent r))).
    { rewrite length_app. lia. }
    assert (Hin : Z.of_nat (List.length pre) < bufcount).
    { subst bufcount. rewrite !length_app. lia. }
    assert (Hnext : wrap_int (Z.of_nat (List.length pre) + reclen_of r)
                    = Z.of_nat (List.length (pre ++ encode_dirent r))).
    { rewrite wrap_int_small; [exact Hoff|].
      subst bufcount. rewrite !length_app in *. lia. }
    cbn [scan_buffer]. apply Z.ltb_lt in Hin. rewrite Hin.
    unfold bind at 1. unfold gets at 1. cbv zeta. rewrite Hblk.
    rewrite (decode_name pre (encode_batch rs) r Hr).
    rewrite (decode_reclen pre (encode_batch rs) r Hr).
    rewrite (decode_type pre (encode_batch rs) r Hr).
    rewrite (dot_test r Hr), Hnext.
    change (uchar (d_type r) =? DT_REG) with (is_regular r).
    assert (Hblk' : block_at (heap s) buffer = (pre ++ encode_dirent r) ++ encode_batch rs)
      by (rewrite Hblk, app_assoc; reflexivity).
    assert (Hbc' : bufcount = Z.of_nat (List.length ((pre ++ encode_dirent r) ++ encode_batch rs)))
      by (rewrite Hbc, app_assoc; reflexivity).
    assert (Hfuel' : (List.length rs <= fuel)%nat) by (simpl in Hfuel; lia).
    unfold wanted_names. cbn [filter].
    destruct (is_dot r) eqn:Edot; cbn [negb andb].
    + assert (Hw : wanted r = false) by (unfold wanted; rewrite Edot; reflexivity).
      rewrite Hw. unfold bind at 1, ret at 1.
      destruct (IH _ fuel tot s bufcount Hrs Hblk' Hbc' Hlt Hfuel' Hinv)
        as (s' & R & F & I & N).
      exists s'. split; [exact R|]. split; [exact F|]. split; [exact I|]. exact N.
    + destruct (is_regular r) eqn:Ereg.
      * assert (Hw : wanted r = true) by (unfold wanted; rewrite Edot, Ereg; reflexivity).
        rewrite Hw.
        destruct (tsearch_spec (buffer, d_name_of (Z.of_nat (List.length pre))) s buffer
                               Hinv (Nat.le_refl _)) as (s1 & R1 & F1 & I1 & N1).
        unfold name_at in N1. cbn [fst snd] in N1.
        rewrite Hblk, (decode_name pre (encode_batch rs) r Hr) in N1.
        unfold bind at 1. unfold bind at 1. rewrite R1. cbn [negb]. unfold ret at 1.
        rewrite <- (fr_heap _ _ F1) in Hblk'.
        destruct (IH _ fuel (wrap_int (tot + 1)) s1 bufcount Hrs Hblk' Hbc' Hlt Hfuel' I1)
          as (s' & R & F & I & N).
        exists s'. cbn [List.length bump]. split; [exact R|].
        split; [eapply frame_trans; eassumption|]. split; [exact I|].
        intros n. rewrite N, N1. cbn [map In]. unfold wanted_names.
        split; intros H; intuition (subst; auto).
      * assert (Hw : wanted r = false) by (unfold wanted; rewrite Edot, Ereg; reflexivity).
        rewrite Hw. unfold bind at 1, ret at 1.
        destruct (IH _ fuel tot s bufcount Hrs Hblk' Hbc' Hlt Hfuel' Hinv)
          as (s' & R & F & I & N).
        exists s'. split; [exact R|]. split; [exact F|]. split; [exact I|]. exact N.
Qed.

Lemma index_heap_ext (s s' : state) :
  tree_root s' = tree_root s ->
  (forall k, In k (inorder (view (tree_root s))) -> name_at (heap s') k = name_at (heap s) k) ->
  names_of s' = names_of s /\
  (bst (compare_fnames (heap s)) (view (tree_root s)) ->
   bst (compare_fnames (heap s')) (view (tree_root s'))).
Proof.
  intros Ht Hn. unfold names_of. rewrite Ht. split.
  - apply map_ext_in. exact Hn.
  - apply bst_ext. intros x y Hx Hy. unfold compare_fnames.
    now rewrite (Hn x Hx), (Hn y Hy).
Qed.

Lemma getdents_ok bytes dirfd buffer size s :
  getdents (Ok bytes) dirfd buffer size s =
  (Val (Z.of_nat (List.length bytes)),
   set_heap (heap_store (heap s) buffer bytes)
            (emit_event (getdents_event dirfd size buffer) s)).
Proof. reflexivity. Qed.

Lemma malloc_ok_eq size s :
  malloc w size s =
  (Val (Some (List.length (heap s))),
   set_heap (heap s ++ [Some []]) (set_allocs (S (allocs s)) s)).
Proof.
  unfold malloc. rewrite (bind_val _ _ _ _ _ (alloc_request_ok s)). reflexivity.
Qed.

Lemma prepend_ok head data s :
  linked_list_prepend_override w (Some head) data s =
  (Val (data :: head), set_allocs (S (allocs s)) s).
Proof.
  unfold linked_list_prepend_override.
  rewrite (bind_val _ _ _ _ _ (alloc_request_ok s)). reflexivity.
Qed.

Lemma bump_add a : forall c tot, bump (a + c) tot = bump c (bump a tot).
Proof.
  induction a as [|a IH]; intros c tot; [reflexivity|]. cbn [Nat.add bump]. apply IH.
Qed.

Lemma wf_batch_inv b :
  wf_batch b = true ->
  b <> [] /\ forallb wf_dirent b = true /\
  Z.of_nat (List.length (encode_batch b)) < 2147483648.
Proof.
  unfold wf_batch. intros H. apply andb_prop in H as [H H3].
  apply andb_prop in H as [H1 H2]. apply Z.ltb_lt in H3.
  split; [|split; assumption]. destruct b; [discriminate | discriminate].
Qed.

Lemma encode_batch_nonempty b : b <> [] -> (0 < List.length (encode_batch b))%nat.
Proof.
  intros H. pose proof (encode_batch_length_ge b). destruct b; [congruence|].
  simpl in *. lia.
Qed.

Lemma read_directory_spec batches : forall tail dirfd size buffer tot bufs s,
  forallb wf_batch batches = true ->
  loop_inv s buffer ->
  exists s',
    read_directory w (map answer_of batches ++ tail) dirfd size buffer tot bufs s
    = read_directory w tail dirfd size (buffer + List.length batches)
        (bump (List.length (filter wanted (List.concat batches))) tot)
        (rev (seq (S buffer) (List.length batches)) ++ bufs) s' /\
    loop_inv s' (buffer + List.length batches) /\
    (forall n, In n (names_of s') <->
               In n (names_of s) \/ In n (wanted_names (List.concat batches))) /\
    delete_count s' = delete_count s /\
    show_progress s' = show_progress s /\
    print_only s' = print_only s /\
    files s' = files s /\
    trace s' = trace s ++ map (getdents_event dirfd size) (seq buffer (List.length batches)).
Proof.
  induction batches as [|b batches IH]; intros tail dirfd size buffer tot bufs s Hwf Hinv.
  - exists s. cbn [map app List.length List.concat filter bump seq rev].
    rewrite Nat.add_0_r, app_nil_r.
    repeat (split; [reflexivity || assumption || (intros n; simpl; tauto)|]).
    reflexivity.
  - cbn [forallb] in Hwf. apply andb_prop in Hwf as [Hb Hbs].
    destruct (wf_batch_inv b Hb) as (Hne & Hrs & Hsz).
    pose proof (encode_batch_nonempty b Hne) as Hpos.
    destruct Hinv as (Hlen & Hbst & Hnd & Hkeys).
    cbn [map app read_directory]. unfold answer_of at 1.
    rewrite (bind_val _ _ _ _ _ (getdents_ok _ _ _ _ _)). cbv zeta.
    rewrite wrap_int_small by lia.
    destruct (Z.eqb_spec (Z.of_nat (List.length (encode_batch b))) 0) as [E0|_]; [lia|].
    destruct (Z.eqb_spec (Z.of_nat (List.length (encode_batch b))) (-1)) as [E1|_]; [lia|].
    set (s1 := set_heap (heap_store (heap s) buffer (encode_batch b))
                        (emit_event (getdents_event dirfd size buffer) s)).
    assert (Hext1 : forall k, In k (inorder (view (tree_root s))) ->
                              name_at (heap s1) k = name_at (heap s) k).
    { intros k Hk. unfold s1. state_fields. apply name_at_store_other.
      rewrite Forall_forall in Hkeys. specialize (Hkeys k Hk). lia. }
    destruct (index_heap_ext s s1 eq_refl Hext1) as [Hn1 Hb1].
    assert (Hinv1 : index_inv s1 buffer).
    { split; [auto|]. split; [now rewrite Hn1|].
      eapply Forall_impl; [|exact Hkeys]. cbv beta. intros; lia. }
    assert (Hblk1 : block_at (heap s1) buffer = [] ++ encode_batch b).
    { unfold s1. state_fields. apply block_at_store_same. lia. }
    destruct (scan_buffer_spec buffer b [] (Z.to_nat (Z.of_nat (List.length (encode_batch b))))
                tot s1 (Z.of_nat (List.length (encode_batch b))) Hrs Hblk1 eq_refl Hsz)
      as (s2 & R2 & F2 & I2 & N2); [|exact Hinv1|].
    { rewrite Nat2Z.id. apply encode_batch_length_ge. }
    change (Z.of_nat (List.length (@nil ascii))) with 0 in R2.
    rewrite (bind_val _ _ _ _ _ R2).
    rewrite (bind_val _ _ _ _ _ (malloc_ok_eq _ _)).
    rewrite (bind_val _ _ _ _ _ (prepend_ok _ _ _)).
    set (s4 := set_allocs _ (set_heap _ (set_allocs _ s2))).
    assert (Hh2 : heap s2 = heap_store (heap s) buffer (encode_batch b))
      by (rewrite (fr_heap _ _ F2); reflexivity).
    assert (Hlen2 : List.length (heap s2) = S buffer)
      by (rewrite Hh2, heap_store_length; lia).
    destruct I2 as (Hb2 & Hnd2 & Hk2).
    assert (Hext4 : forall k, In k (inorder (view (tree_root s2))) ->
                              name_at (heap s4) k = name_at (heap s2) k).
    { intros k Hk. unfold s4. state_fields. apply name_at_grow.
      rewrite Forall_forall in Hk2. specialize (Hk2 k Hk). lia. }
    destruct (index_heap_ext s2 s4 eq_refl Hext4) as [Hn4 Hb4].
    assert (Hinv4 : loop_inv s4 (List.length (heap s2))).
    { split; [unfold s4; state_fields; rewrite length_app; simpl; lia|].
      split; [auto|]. split; [now rewrite Hn4|].
      eapply Forall_impl; [|exact Hk2]. cbv beta. intros; lia. }
    destruct (IH tail dirfd size (List.length (heap s2))
                 (bump (List.length (filter wanted b)) tot)
                 (List.length (heap s2) :: bufs) s4 Hbs Hinv4)
      as (s' & R & I & N & D & SP & PO & FI & TR).
    exists s'. rewrite R, Hlen2 in *. clear R.
    cbn [List.length List.concat].
    rewrite filter_app, length_app, bump_add.
    replace (buffer + S (List.length batches))%nat with (S buffer + List.length batches)%nat by lia.
    split.
    { f_equal. cbn [seq rev]. rewrite <- !app_assoc. reflexivity. }
    split; [exact I|].
    split.
    { intros n. rewrite N, Hn4, N2, Hn1. unfold wanted_names.
      rewrite filter_app, map_app, in_app_iff. tauto. }
    unfold s4 in D, SP, PO, FI, TR. state_fields.
    cbn [delete_count show_progress print_only files trace set_allocs set_heap] in D, SP, PO, FI, TR.
    rewrite (fr_delete_count _ _ F2) in D. rewrite (fr_show_progress _ _ F2) in SP.
    rewrite (fr_print_only _ _ F2) in PO. rewrite (fr_files _ _ F2) in FI.
    rewrite (fr_trace _ _ F2) in TR.
    repeat (split; [assumption|]).
    rewrite TR. unfold s1. state_fields. cbn [seq map]. rewrite <- app_assoc. reflexivity.
Qed.

End Enumeration.

(** ** The whole program *)

Section Main.

Context {libc : search_impl}.
Hypothesis libc_ok : search_ok libc.
Variable w : world.

Ltac state_fields :=
  cbn [delete_count show_progress print_only tree_root heap errno allocs files trace
       set_delete_count set_show_progress set_print_only set_tree_root set_heap
       set_errno set_allocs set_files emit_event].

Lemma healthy_inv :
  healthy w = true ->
  exists u st u',
    (Z.of_nat (List.length (argv w)) <? 2) = false /\
    first_char (dir_path w) = "/"%char /\
    w_access w (dir_path w) = Ok u /\
    w_lstat w (dir_path w) = Ok st /\ S_ISDIR (st_mode st) = true /\
    w_open w (dir_path w) = Ok (dir_fd w) /\ (dir_fd w <? 0) = false /\
    w_fchdir w (dir_fd w) = Ok u'.
Proof.
  unfold healthy, dir_fd. fold (dir_path w). intros H.
  apply andb_prop in H as [H H5]. apply andb_prop in H as [H H4].
  apply andb_prop in H as [H H3]. apply andb_prop in H as [H1 H2].
  destruct (w_access w (dir_path w)) as [u|]; [|discriminate].
  destruct (w_lstat w (dir_path w)) as [st|]; [|discriminate].
  destruct (w_open w (dir_path w)) as [fd|]; [|discriminate].
  apply andb_prop in H5 as [H5 H6].
  destruct (w_fchdir w fd) as [u'|]; [|discriminate].
  exists u, st, u'. repeat split; auto.
  - apply Z.ltb_ge. apply Z.leb_le in H1. lia.
  - now apply Ascii.eqb_eq in H2.
  - apply Z.ltb_ge. now apply Z.leb_le in H5.
Qed.

Lemma free_linked_list_spec bufs : forall s,
  free_linked_list bufs s = (Val tt, set_heap (fold_left heap_free bufs (heap s)) s).
Proof.
  induction bufs as [|a bufs IH]; intros s.
  - destruct s; reflexivity.
  - cbn [free_linked_list]. unfold bind at 1. unfold free, bind, gets, modify.
    rewrite IH. reflexivity.
Qed.

Lemma access_ok p u s :
  w_access w p = Ok u -> access w p s = (Val 0, emit_event (Syscall (sys_access p)) s).
Proof. intros H. unfold access, bind, emit, modify. now rewrite H. Qed.

Lemma lstat_ok p st s :
  w_lstat w p = Ok st -> lstat w p s = (Val (0, st), emit_event (Syscall (sys_lstat p)) s).
Proof. intros H. unfold lstat, bind, emit, modify. now rewrite H. Qed.

Lemma open_ok p fd s :
  w_open w p = Ok fd -> open w p s = (Val fd, emit_event (Syscall (sys_open p)) s).
Proof. intros H. unfold open, bind, emit, modify. now rewrite H. Qed.

Lemma fchdir_ok fd u s :
  w_fchdir w fd = Ok u -> fchdir w fd s = (Val 0, emit_event (Syscall (sys_fchdir fd)) s).
Proof. intros H. unfold fchdir, bind, emit, modify. now rewrite H. Qed.

Lemma read_directory_end tail dirfd size buffer tot bufs s :
  ends_enumeration tail = true ->
  read_directory w tail dirfd size buffer tot bufs s =
  (Val (tot, bufs),
   set_heap (heap_store (heap s) buffer [])
            (emit_event (getdents_event dirfd size buffer) s)).
Proof.
  destruct tail as [|[[|c bytes]|e] tail]; try discriminate; intros _; reflexivity.
Qed.

Lemma read_directory_error e tail dirfd size buffer tot bufs s :
  read_directory w (Err e :: tail) dirfd size buffer tot bufs s =
  (Exit 1,
   emit_event (Perror "getdents" e)
     (set_errno e (emit_event (getdents_event dirfd size buffer) s))).
Proof. reflexivity. Qed.

Hypothesis malloc_ok : forall n, w_malloc w n = true.

Lemma progress_env_state s0 :
  exists s0',
    match getenv w "DENTLS_PROGRESS" with
    | Some _ => modify (set_show_progress 1)
    | None => ret tt
    end s0 = (Val tt, s0') /\
    heap s0' = heap s0 /\ tree_root s0' = tree_root s0 /\ trace s0' = trace s0 /\
    delete_count s0' = delete_count s0 /\ files s0' = files s0 /\
    print_only s0' = print_only s0.
Proof.
  destruct (getenv w "DENTLS_PROGRESS"); eexists; (split; [reflexivity|]);
    repeat split; reflexivity.
Qed.

(** A healthy run up to the moment [twalk] is called, and up to the failing
    [getdents] when the directory stream ends in an error. *)
Lemma run_spec destructive batches tail :
  healthy w = true -> mode_request w = Some destructive ->
  forallb wf_batch batches = true ->
  w_getdents w = map answer_of batches ++ tail ->
  (forall e tail', tail = Err e :: tail' ->
     exists s, run w = (Exit 1, s) /\ files s = w_files w /\
       trace s = reading_trace w (List.length batches) ++ [Perror "getdents" e]) /\
  (ends_enumeration tail = true ->
     exists s,
       run w = bind (twalk (tree_root s) (walk_tree w))
                    (fun _ => fprintf_stderr "Done\n" [] ;; close (dir_fd w) ;;
                              free_linked_list (buffers_of (List.length batches)) ;;
                              tdestroy (tree_root s) ;; ret 0) s /\
       List.length (heap s) = S (List.length batches) /\
       print_only s = (if destructive then 0 else 1) /\
       delete_count s = 0 /\ files s = w_files w /\
       NoDup (names_of s) /\
       (forall n, In n (names_of s) <-> In n (wanted_names (List.concat batches))) /\
       trace s = reading_trace w (List.length batches)
                 ++ [total_event (bump (List.length (filter wanted (List.concat batches))) 0);
                     mode_event destructive]).
Proof.
  intros Hh Hm Hwf Hstream.
  destruct (healthy_inv Hh) as (u & st & u' & A1 & A2 & A3 & A4 & A5 & A6 & A7 & A8).
  assert (Hsize : getdents_buf_size w = wrap_ulong (st_size st * 2))
    by (unfold getdents_buf_size; now rewrite A4).
  unfold run, main. fold (dir_path w). rewrite A1, A2.
  change (Ascii.eqb "/" "-" || negb (Ascii.eqb "/" "/")) with false.
  cbv zeta. cbv iota.
  match goal with
  | |- context [match getenv w "DENTLS_DELETE" with Some _ => _ | None => ?B end] =>
      set (body := B)
  end.
  assert (HB : forall s0,
    heap s0 = [] -> tree_root s0 = tnull -> trace s0 = [] ->
    delete_count s0 = 0 -> files s0 = w_files w ->
    (forall e tail', tail = Err e :: tail' ->
       exists s, body s0 = (Exit 1, s) /\ files s = w_files w /\
         trace s = reading_trace w (List.length batches) ++ [Perror "getdents" e]) /\
    (ends_enumeration tail = true ->
       exists s,
         body s0 = bind (twalk (tree_root s) (walk_tree w))
                      (fun _ => fprintf_stderr "Done\n" [] ;; close (dir_fd w) ;;
                                free_linked_list (buffers_of (List.length batches)) ;;
                                tdestroy (tree_root s) ;; ret 0) s /\
         List.length (heap s) = S (List.length batches) /\
         print_only s = print_only s0 /\
         delete_count s = 0 /\ files s = w_files w /\
         NoDup (names_of s) /\
         (forall n, In n (names_of s) <-> In n (wanted_names (List.concat batches))) /\
         trace s = reading_trace w (List.length batches)
                   ++ [total_event (bump (List.length (filter wanted (List.concat batches))) 0);
                       Stderr "Performing %s...\n"
                         [AStr (if negb (print_only s0 =? 0) then "print" else "delete")]])).
  { intros s0 H1 H2 H3 H4 H5. unfold body.
    destruct (progress_env_state s0) as (s0' & E0 & P1 & P2 & P3 & P4 & P5 & P6).
    rewrite (bind_val _ _ _ _ _ E0).
    rewrite (bind_val _ _ _ _ _ (access_ok _ _ _ A3)).
    change (0 <? 0) with false. cbv iota.
    rewrite (bind_val _ _ _ _ _ (lstat_ok _ _ _ A4)).
    cbn [fst snd]. change (0 <? 0) with false. cbv iota.
    rewrite A5. cbn [negb].
    rewrite (bind_val _ _ _ _ _ (malloc_ok_eq w malloc_ok _ _)).
    rewrite (bind_val _ _ _ _ _ (prepend_ok w malloc_ok _ _ _)).
    rewrite (bind_val _ _ _ _ _ (open_ok _ _ _ A6)).
    rewrite A7.
    rewrite (bind_val _ _ _ _ _ (fchdir_ok _ _ _ A8)).
    change (0 <? 0) with false. cbv iota.
    state_fields. rewrite P1, H1. cbn [List.length app].
    match goal with
    | |- context [bind (read_directory _ _ _ _ _ _ _) _ ?S] => set (s1 := S)
    end.
    assert (Hinv1 : loop_inv s1 0).
    { unfold loop_inv, names_of, s1. state_fields. rewrite ?P1, ?P2, ?H1, ?H2.
      destruct libc_ok as [-> _]. cbn. repeat split; constructor. }
    assert (Hnames1 : names_of s1 = []).
    { unfold names_of, s1. state_fields. rewrite ?P2, ?H2.
      destruct libc_ok as [-> _]. reflexivity. }
    assert (Htr1 : trace s1 = prelude w).
    { unfold s1. state_fields. rewrite ?P3, ?H3. reflexivity. }
    rewrite Hstream.
    destruct (read_directory_spec libc_ok w malloc_ok batches tail (dir_fd w)
                (wrap_ulong (st_size st * 2)) 0%nat 0 [0%nat] s1 Hwf Hinv1)
      as (s2 & R & I2 & N2 & D2 & SP2 & PO2 & FI2 & TR2).
    cbn [Nat.add] in R, I2.
    assert (Hfiles2 : files s2 = w_files w).
    { rewrite FI2. unfold s1. state_fields. congruence. }
    assert (Hdc2 : delete_count s2 = 0).
    { rewrite D2. unfold s1. state_fields. congruence. }
    assert (Hpo2 : print_only s2 = print_only s0).
    { rewrite PO2. unfold s1. state_fields. congruence. }
    split.
    - intros e tail' ->. unfold bind at 1. rewrite R, read_directory_error.
      eexists. split; [reflexivity|]. state_fields. split; [exact Hfiles2|].
      unfold reading_trace.
      rewrite TR2, Htr1, Hsize. rewrite seq_S, map_app. cbn [map Nat.add].
      rewrite <- !app_assoc. reflexivity.
    - intros Hend. unfold bind at 1. rewrite R, (read_directory_end _ _ _ _ _ _ _ Hend).
      cbn [fst snd].
      set (s3 := set_heap _ (emit_event _ s2)).
      destruct I2 as (Hlen2 & Hb2 & Hnd2 & Hk2).
      assert (Hext3 : forall k, In k (inorder (view (tree_root s2))) ->
                                name_at (heap s3) k = name_at (heap s2) k).
      { intros k Hk. unfold s3. state_fields. apply name_at_store_other.
        rewrite Forall_forall in Hk2. specialize (Hk2 k Hk). lia. }
      destruct (index_heap_ext s2 s3 eq_refl Hext3) as [Hn3 _].
      unfold fprintf_stderr at 1, emit at 1. unfold bind at 1, modify at 1.
      unfold bind at 1, gets at 1.
      unfold fprintf_stderr at 1, emit at 1. unfold bind at 1, modify at 1.
      unfold bind at 1, gets at 1.
      eexists.
      split; [reflexivity|]. state_fields.
      split; [unfold s3; state_fields; rewrite heap_store_length; lia|].
      split; [exact Hpo2|]. split; [exact Hdc2|]. split; [exact Hfiles2|].
      assert (Hn3' : forall e1 e2,
                names_of (emit_event e1 (emit_event e2 s3)) = names_of s2)
        by (intros; exact Hn3).
      split; [rewrite Hn3'; exact Hnd2|].
      split.
      { intros n. rewrite Hn3', N2, Hnames1. simpl. tauto. }
      unfold s3, reading_trace. state_fields.
      rewrite TR2, Htr1, Hsize, Hpo2. rewrite seq_S, map_app. cbn [map Nat.add].
      rewrite <- !app_assoc. reflexivity. }
  unfold mode_request in Hm.
  destruct (getenv w "DENTLS_DELETE") as [v|].
  - destruct (strcmp v "delete" =? 0); [|discriminate]. injection Hm as <-.
    cbn [negb]. apply (HB (set_print_only 0 (init_state w))); reflexivity.
  - injection Hm as <-. apply (HB (init_state w)); reflexivity.
Qed.

Lemma finish_spec fd bufs t s :
  (fprintf_stderr "Done\n" [] ;; close fd ;; free_linked_list bufs ;;
   tdestroy t ;; ret 0) s
  = (Val 0, set_heap (fold_left heap_free bufs (heap s))
                     (emit_event (Syscall (sys_close fd))
                        (emit_event (Stderr "Done\n" []) s))).
Proof.
  unfold fprintf_stderr at 1, close at 1, emit, tdestroy.
  unfold bind at 1, modify at 1. unfold bind at 1, modify at 1.
  unfold bind at 1. rewrite free_linked_list_spec. reflexivity.
Qed.

Lemma names_endorder s :
  Permutation (map (name_at (heap s)) (endorder_keys (view (tree_root s)))) (names_of s).
Proof. apply Permutation_map, endorder_inorder. Qed.

(** A healthy run in report mode. *)
Lemma run_report batches tail :
  healthy w = true -> mode_request w = Some false ->
  forallb wf_batch batches = true ->
  w_getdents w = map answer_of batches ++ tail ->
  ends_enumeration tail = true ->
  exists sf order evs,
    run w = (Val 0, sf) /\
    NoDup order /\
    (forall n, In n order <-> In n (wanted_names (List.concat batches))) /\
    files sf = w_files w /\ print_only sf = 1 /\
    delete_count sf = bump_ulong (List.length order) 0 /\
    actions evs = map print_event order /\
    trace sf = reading_trace w (List.length batches)
               ++ [total_event (bump (List.length (filter wanted (List.concat batches))) 0);
                   mode_event false]
               ++ evs ++ done_events w /\
    all_freed (heap sf).
Proof.
  intros Hh Hm Hwf Hstream Hend.
  destruct (run_spec false batches tail Hh Hm Hwf Hstream) as [_ Hwalk].
  destruct (Hwalk Hend) as (s & R & HL & PO & DC & FI & ND & NM & TR).
  assert (Hpo : print_only s <> 0) by (rewrite PO; discriminate).
  destruct (visit_all_print w (endorder_keys (view (tree_root s))) s Hpo)
    as (s1 & R1 & F1 & Fi1 & D1 & evs & T1 & A1).
  pose proof (finish_spec (dir_fd w) (buffers_of (List.length batches)) (tree_root s) s1)
    as E.
  eexists. exists (map (name_at (heap s)) (endorder_keys (view (tree_root s)))), evs.
  split.
  { rewrite R. unfold bind at 1, twalk. rewrite twalk_rec_visit, R1. exact E. }
  pose proof (names_endorder s) as Hperm.
  split; [eapply Permutation_NoDup; [symmetry; exact Hperm | exact ND]|].
  split.
  { intros n. rewrite <- NM. split; apply Permutation_in; [exact Hperm | symmetry; exact Hperm]. }
  state_fields.
  split; [congruence|]. split; [rewrite (wf_print_only _ _ F1); exact PO|].
  split; [rewrite D1, DC, length_map; reflexivity|].
  split; [exact A1|].
  split; [rewrite T1, TR; unfold done_events; rewrite <- !app_assoc; reflexivity|].
  apply buffers_of_all_freed. rewrite (wf_heap _ _ F1). exact HL.
Qed.

(** A healthy run in destructive mode: every removal succeeds, or the run
    stops at the first one that fails. *)
Lemma run_delete batches tail :
  healthy w = true -> mode_request w = Some true ->
  forallb wf_batch batches = true ->
  w_getdents w = map answer_of batches ++ tail ->
  ends_enumeration tail = true ->
  exists order,
    NoDup order /\
    (forall n, In n order <-> In n (wanted_names (List.concat batches))) /\
    ((unlinks_ok w (w_files w) order = true /\
      exists sf evs,
        run w = (Val 0, sf) /\
        files sf = remove_names order (w_files w) /\
        delete_count sf = bump_ulong (List.length order) 0 /\
        actions evs = map unlink_event order /\
        trace sf = reading_trace w (List.length batches)
                   ++ [total_event (bump (List.length (filter wanted (List.concat batches))) 0);
                       mode_event true]
                   ++ evs ++ done_events w /\
        all_freed (heap sf))
     \/
     (exists pre x post e sf evs,
        order = pre ++ x :: post /\
        unlinks_ok w (w_files w) pre = true /\
        unlink_errno w (remove_names pre (w_files w)) x = Some e /\
        run w = (Exit 1, sf) /\
        files sf = remove_names pre (w_files w) /\
        actions evs = map unlink_event pre /\
        trace sf = reading_trace w (List.length batches)
                   ++ [total_event (bump (List.length (filter wanted (List.concat batches))) 0);
                       mode_event true]
                   ++ evs ++ failure_events x e)).
Proof.
  intros Hh Hm Hwf Hstream Hend.
  destruct (run_spec true batches tail Hh Hm Hwf Hstream) as [_ Hwalk].
  destruct (Hwalk Hend) as (s & R & HL & PO & DC & FI & ND & NM & TR).
  set (ks := endorder_keys (view (tree_root s))).
  exists (map (name_at (heap s)) ks).
  pose proof (names_endorder s) as Hperm.
  split; [eapply Permutation_NoDup; [symmetry; exact Hperm | exact ND]|].
  split.
  { intros n. rewrite <- NM. split; apply Permutation_in; [exact Hperm | symmetry; exact Hperm]. }
  destruct (unlinks_split w (map (name_at (heap s)) ks) (w_files w))
    as [Hok|(pre & x & post & e & Hsplit & Hok & He)].
  - left. split; [exact Hok|]. rewrite <- FI in Hok.
    destruct (visit_all_unlink w ks s PO Hok) as (s1 & R1 & F1 & Fi1 & D1 & evs & T1 & A1).
    pose proof (finish_spec (dir_fd w) (buffers_of (List.length batches)) (tree_root s) s1)
      as E.
    eexists. exists evs. split.
    { rewrite R. unfold ks in R1. unfold bind at 1, twalk.
      rewrite twalk_rec_visit, R1. exact E. }
    state_fields. split; [congruence|].
    split; [rewrite D1, DC, length_map; reflexivity|].
    split; [exact A1|].
    split; [rewrite T1, TR; unfold done_events; rewrite <- !app_assoc; reflexivity|].
    apply buffers_of_all_freed. rewrite (wf_heap _ _ F1). exact HL.
  - right.
    apply map_eq_app in Hsplit as (kpre & krest & Hks & Hpre & Hrest).
    apply map_eq_cons in Hrest as (k & kpost & -> & Hk & Hpost).
    subst pre x post. rewrite <- FI in Hok, He.
    destruct (visit_all_unlink_fail w kpre k kpost s e PO Hok He)
      as (s1 & R1 & F1 & Fi1 & evs & T1 & A1).
    exists (map (name_at (heap s)) kpre), (name_at (heap s) k),
           (map (name_at (heap s)) kpost), e, s1, evs.
    split; [rewrite Hks, map_app; reflexivity|].
    rewrite <- FI. split; [exact Hok|]. split; [exact He|].
    split.
    { rewrite R. unfold ks in Hks. unfold bind at 1, twalk.
      rewrite twalk_rec_visit, Hks, R1. reflexivity. }
    split; [exact Fi1|]. split; [exact A1|].
    rewrite T1, TR. rewrite <- !app_assoc. reflexivity.
Qed.

End Main.

(** ** What the parts of a trace show *)

Lemma flat_map_silent {A} (f : event -> list A) (g : nat -> event) l :
  (forall b, f (g b) = []) -> flat_map f (map g l) = [].
Proof.
  intros H. induction l as [|b l IH]; simpl; [reflexivity|]. now rewrite H.
Qed.

Lemma stdout_names_reading w n : stdout_names (reading_trace w n) = [].
Proof.
  unfold reading_trace, stdout_names. rewrite flat_map_app.
  rewrite (flat_map_silent printed_name); reflexivity.
Qed.

Lemma unlink_calls_reading w n : unlink_calls (reading_trace w n) = [].
Proof.
  unfold reading_trace, unlink_calls. rewrite flat_map_app.
  rewrite (flat_map_silent unlinked_name); reflexivity.
Qed.

Lemma acted_reading w n : acted (reading_trace w n) = [].
Proof.
  unfold reading_trace, acted. rewrite flat_map_app.
  rewrite (flat_map_silent (fun e => printed_name e ++ unlinked_name e)); reflexivity.
Qed.

Lemma totals_reading w n : totals (reading_trace w n) = [].
Proof.
  unfold reading_trace, totals. rewrite flat_map_app.
  rewrite (flat_map_silent total_line); reflexivity.
Qed.

Lemma getdents_buffers_reading w n :
  getdents_buffers (reading_trace w n) = seq 0 (S n).
Proof.
  unfold reading_trace, getdents_buffers. rewrite flat_map_app.
  change (flat_map getdents_buffer (prelude w)) with (@nil nat). cbn [app].
  induction (seq 0 (S n)) as [|b l IH]; simpl; [reflexivity|]. now rewrite IH.
Qed.

Lemma totals_actions tr : totals (actions tr) = totals tr.
Proof.
  apply flat_map_actions. intros e H. unfold total_line.
  now rewrite (progress_not_total e H).
Qed.

Lemma totals_app a b : totals (a ++ b) = totals a ++ totals b.
Proof. apply flat_map_app. Qed.

Lemma totals_print ns : totals (map print_event ns) = [].
Proof. induction ns as [|n ns IH]; simpl; [reflexivity | exact IH]. Qed.

Lemma totals_unlink ns : totals (map unlink_event ns) = [].
Proof. induction ns as [|n ns IH]; simpl; [reflexivity | exact IH]. Qed.

Lemma getdents_buffers_app a b :
  getdents_buffers (a ++ b) = getdents_buffers a ++ getdents_buffers b.
Proof. apply flat_map_app. Qed.

Lemma progress_not_getdents e : progress_event e = true -> getdents_buffer e = [].
Proof.
  destruct e as [fmt args|fmt args| | | |c]; simpl; try discriminate; reflexivity.
Qed.

Lemma getdents_buffers_actions tr : getdents_buffers (actions tr) = getdents_buffers tr.
Proof. apply flat_map_actions, progress_not_getdents. Qed.

Lemma getdents_buffers_print ns : getdents_buffers (map print_event ns) = [].
Proof. induction ns as [|n ns IH]; simpl; [reflexivity | exact IH]. Qed.

Lemma getdents_buffers_unlink ns : getdents_buffers (map unlink_event ns) = [].
Proof. induction ns as [|n ns IH]; simpl; [reflexivity | exact IH]. Qed.

(** What a walk segment [evs] shows, read off its actions. *)
Lemma walk_segment_print evs order :
  actions evs = map print_event order ->
  stdout_names evs = order /\ unlink_calls evs = [] /\ acted evs = order /\
  totals evs = [] /\ getdents_buffers evs = [].
Proof.
  intros H.
  rewrite <- stdout_names_actions, <- unlink_calls_actions, <- acted_actions,
          <- totals_actions, <- getdents_buffers_actions, H.
  rewrite stdout_names_print, unlink_calls_print, acted_print, totals_print,
          getdents_buffers_print.
  repeat split; reflexivity.
Qed.

Lemma walk_segment_unlink evs order :
  actions evs = map unlink_event order ->
  stdout_names evs = [] /\ unlink_calls evs = order /\ acted evs = order /\
  totals evs = [] /\ getdents_buffers evs = [].
Proof.
  intros H.
  rewrite <- stdout_names_actions, <- unlink_calls_actions, <- acted_actions,
          <- totals_actions, <- getdents_buffers_actions, H.
  rewrite stdout_names_unlink, unlink_calls_unlink, acted_unlink, totals_unlink,
          getdents_buffers_unlink.
  repeat split; reflexivity.
Qed.

Lemma bump_ulong_wrap n : bump_ulong n 0 = wrap_ulong (Z.of_nat n).
Proof.
  induction n as [|n IH]; [reflexivity|].
  rewrite bump_ulong_S, IH. unfold wrap_ulong.
  rewrite Z.add_mod_idemp_l by lia. f_equal. lia.
Qed.

Lemma bump_S n : forall c, bump (S n) c = wrap_int (bump n c + 1).
Proof.
  induction n as [|n IH]; intros c; [reflexivity|].
  change (bump (S (S n)) c) with (bump (S n) (wrap_int (c + 1))).
  rewrite IH. reflexivity.
Qed.

Lemma bump_small n : Z.of_nat n < 2147483648 -> bump n 0 = Z.of_nat n.
Proof.
  induction n as [|n IH]; intros H; [reflexivity|].
  rewrite bump_S, IH by lia. rewrite wrap_int_small; lia.
Qed.

Lemma remove_name_spec m fs :
  NoDup fs ->
  NoDup (remove_name m fs) /\ forall n, In n (remove_name m fs) <-> In n fs /\ n <> m.
Proof.
  induction fs as [|x fs IH]; intros Hnd; simpl.
  - split; [constructor | intros n; tauto].
  - inversion Hnd as [|x' fs' Hx Hnd']; subst.
    destruct (IH Hnd') as [IH1 IH2].
    destruct (String.eqb_spec m x) as [->|Hne].
    + split; [assumption|]. intros n. split.
      * intros H. split; [now right | intros ->; contradiction].
      * intros [[E|H] Hn]; [congruence | assumption].
    + split.
      * constructor; [|assumption]. rewrite IH2. tauto.
      * intros n. simpl. rewrite IH2. split.
        -- intros [E|[H Hn]]; [subst; split; [now left | congruence] | tauto].
        -- intros [[E|H] Hn]; [now left | right; tauto].
Qed.

Lemma remove_names_spec ns : forall fs,
  NoDup fs ->
  forall n, In n (remove_names ns fs) <-> In n fs /\ ~ In n ns.
Proof.
  induction ns as [|m ns IH]; intros fs Hnd n.
  - simpl. tauto.
  - change (remove_names (m :: ns) fs) with (remove_names ns (remove_name m fs)).
    destruct (remove_name_spec m fs Hnd) as [Hnd' Hin].
    rewrite (IH _ Hnd'), Hin. simpl. split.
    + intros [[H1 H2] H3]. split; [assumption|]. intros [E|H]; [congruence | contradiction].
    + intros [H1 H2]. repeat split; [assumption | intros ->; tauto | tauto].
Qed.

Lemma clean_run_mode w v :
  getenv w "DENTLS_DELETE" = v ->
  (v = None -> mode_request w = Some false) /\
  (v = Some "delete"%string -> mode_request w = Some true).
Proof.
  intros H. unfold mode_request. rewrite H. split; intros ->; reflexivity.
Qed.

Lemma trace_shape w n tot d evs closing :
  let tr := reading_trace w n ++ [total_event tot; mode_event d] ++ evs ++ closing in
  stdout_names tr = stdout_names evs ++ stdout_names closing /\
  unlink_calls tr = unlink_calls evs ++ unlink_calls closing /\
  acted tr = acted evs ++ acted closing /\
  totals tr = total_event tot :: totals evs ++ totals closing /\
  getdents_buffers tr = seq 0 (S n) ++ getdents_buffers evs ++ getdents_buffers closing.
Proof.
  cbv zeta.
  rewrite stdout_names_app, unlink_calls_app, acted_app, totals_app, getdents_buffers_app.
  rewrite stdout_names_reading, unlink_calls_reading, acted_reading, totals_reading,
          getdents_buffers_reading.
  change ([total_event tot; mode_event d] ++ evs ++ closing)
    with (total_event tot :: mode_event d :: evs ++ closing).
  unfold stdout_names, unlink_calls, acted, totals, getdents_buffers.
  cbn [flat_map]. rewrite !flat_map_app.
  destruct d; repeat split; try reflexivity; rewrite app_nil_r; reflexivity.
Qed.

Lemma clean_run_inv w batches :
  clean_run w batches ->
  healthy w = true /\ (forall n, w_malloc w n = true) /\
  forallb wf_batch batches = true /\
  w_getdents w = map answer_of batches ++ [] /\
  ends_enumeration [] = true.
Proof.
  intros (H1 & H2 & H3 & H4). rewrite app_nil_r. repeat split; assumption.
Qed.

Lemma wanted_names_spec rs n :
  In n (wanted_names rs) <->
  exists d, In d rs /\ is_regular d = true /\ is_dot d = false /\ d_name d = n.
Proof.
  unfold wanted_names. rewrite in_map_iff. split.
  - intros (d & E & H). apply filter_In in H as [H Hw]. unfold wanted in Hw.
    apply andb_prop in Hw as [Hd Hr]. apply negb_true_iff in Hd. now exists d.
  - intros (d & H & Hr & Hd & E). exists d. split; [assumption|].
    apply filter_In. split; [assumption|]. unfold wanted. now rewrite Hd, Hr.
Qed.

Lemma wanted_names_perm rs rs' :
  Permutation rs rs' -> forall n, In n (wanted_names rs) <-> In n (wanted_names rs').
Proof.
  intros P n. rewrite !wanted_names_spec.
  split; intros (d & H & R); exists d; (split; [|exact R]).
  - eapply Permutation_in; eassumption.
  - eapply Permutation_in; [symmetry|]; eassumption.
Qed.

(** The run of a clean world in report mode, as seen from outside. *)
Lemma report_summary {libc : search_impl} (w : world) batches tail :
  search_ok libc -> healthy w = true -> (forall n, w_malloc w n = true) ->
  forallb wf_batch batches = true ->
  w_getdents w = map answer_of batches ++ tail -> ends_enumeration tail = true ->
  mode_request w = Some false ->
  exists order evs,
    NoDup order /\
    (forall n, In n order <-> In n (wanted_names (List.concat batches))) /\
    fst (run w) = Val 0 /\
    trace (snd (run w)) =
      reading_trace w (List.length batches)
      ++ [total_event (bump (List.length (filter wanted (List.concat batches))) 0);
          mode_event false]
      ++ evs ++ done_events w /\
    stdout_names evs = order /\ unlink_calls evs = [] /\ acted evs = order /\
    totals evs = [] /\ getdents_buffers evs = [] /\
    files (snd (run w)) = w_files w /\
    delete_count (snd (run w)) = wrap_ulong (Z.of_nat (List.length order)) /\
    all_freed (heap (snd (run w))).
Proof.
  intros Hok Hh Hm Hwf Hs He Hmode.
  destruct (run_report Hok w Hm batches tail Hh Hmode Hwf Hs He)
    as (sf & order & evs & R & ND & IN & FI & PO & DC & AC & TR & HF).
  destruct (walk_segment_print evs order AC) as (O1 & O2 & O3 & O4 & O5).
  exists order, evs. rewrite R. cbn [fst snd].
  rewrite <- bump_ulong_wrap. repeat split; try assumption; apply IN.
Qed.

(** The run of a clean world in destructive mode, as seen from outside. *)
Lemma delete_summary {libc : search_impl} (w : world) batches tail :
  search_ok libc -> healthy w = true -> (forall n, w_malloc w n = true) ->
  forallb wf_batch batches = true ->
  w_getdents w = map answer_of batches ++ tail -> ends_enumeration tail = true ->
  mode_request w = Some true ->
  exists order,
    NoDup order /\
    (forall n, In n order <-> In n (wanted_names (List.concat batches))) /\
    ((unlinks_ok w (w_files w) order = true /\
      exists evs,
        fst (run w) = Val 0 /\
        trace (snd (run w)) =
          reading_trace w (List.length batches)
          ++ [total_event (bump (List.length (filter wanted (List.concat batches))) 0);
              mode_event true]
          ++ evs ++ done_events w /\
        stdout_names evs = [] /\ unlink_calls evs = order /\ acted evs = order /\
        totals evs = [] /\ getdents_buffers evs = [] /\
        files (snd (run w)) = remove_names order (w_files w) /\
        delete_count (snd (run w)) = wrap_ulong (Z.of_nat (List.length order)) /\
        all_freed (heap (snd (run w))))
     \/
     (exists pre x post e evs,
        order = pre ++ x :: post /\
        unlinks_ok w (w_files w) pre = true /\
        unlink_errno w (remove_names pre (w_files w)) x = Some e /\
        fst (run w) = Exit 1 /\
        trace (snd (run w)) =
          reading_trace w (List.length batches)
          ++ [total_event (bump (List.length (filter wanted (List.concat batches))) 0);
              mode_event true]
          ++ evs ++ failure_events x e /\
        stdout_names evs = [] /\ unlink_calls evs = pre /\ acted evs = pre /\
        totals evs = [] /\ getdents_buffers evs = [] /\
        files (snd (run w)) = remove_names pre (w_files w))).
Proof.
  intros Hok Hh Hm Hwf Hs He Hmode.
  destruct (run_delete Hok w Hm batches tail Hh Hmode Hwf Hs He)
    as (order & ND & IN & [(U & sf & evs & R & FI & DC & AC & TR & HF)
                          |(pre & x & post & e & sf & evs & E & U & F & R & FI & AC & TR)]).
  - exists order. split; [assumption|]. split; [assumption|]. left. split; [assumption|].
    destruct (walk_segment_unlink evs order AC) as (O1 & O2 & O3 & O4 & O5).
    exists evs. rewrite R. cbn [fst snd]. rewrite <- bump_ulong_wrap.
    repeat split; assumption.
  - exists order. split; [assumption|]. split; [assumption|]. right.
    destruct (walk_segment_unlink evs pre AC) as (O1 & O2 & O3 & O4 & O5).
    exists pre, x, post, e, evs. rewrite R. cbn [fst snd].
    repeat split; assumption.
Qed.

(** * The claims *)

Lemma report_world_clean : clean_run report_world example_batches.
Proof.
  unfold clean_run. repeat split; try reflexivity.
Qed.

Lemma delete_world_clean : clean_run delete_world example_batches.
Proof.
  unfold clean_run. repeat split; try reflexivity.
Qed.

Lemma degenerate_world_clean : clean_run degenerate_world degenerate_batches.
Proof.
  unfold clean_run. repeat split; try reflexivity.
Qed.

(** The run of [report_world]: b is read from the first buffer, a and c
    from the second; the index has b at its root, and the walk prints the
    two leaves before it. *)
Example report_world_run :
  fst (run (libc := bst_impl) report_world) = Val 0 /\
  stdout_names (trace (snd (run (libc := bst_impl) report_world))) = ["a"; "c"; "b"]%string /\
  totals (trace (snd (run (libc := bst_impl) report_world))) = [total_event 3].
Proof. repeat split; reflexivity. Qed.

(** The run of [degenerate_world]: three records counted, two names kept. *)
Example degenerate_world_run :
  totals (trace (snd (run (libc := bst_impl) degenerate_world))) = [total_event 3] /\
  stdout_names (trace (snd (run (libc := bst_impl) degenerate_world))) = ["a"; "b"]%string.
Proof. split; reflexivity. Qed.

(** C1. Completeness of report mode: in a run that passes every check, the
    names written on the primary output stream are, as a set, exactly the
    names of the records whose type tag is regular file and whose name is
    neither "." nor ".."; two directories whose records are the same up to
    order (and up to the way they are cut into batches) give the same set of
    names. *)
Theorem C1_report_completeness {libc : search_impl} (w : world)
    (batches : list (list dirent)) :
  search_ok libc -> clean_run w batches -> getenv w "DENTLS_DELETE" = None ->
  fst (run w) = Val 0 /\
  (forall n, In n (stdout_names (trace (snd (run w)))) <->
             exists d, In d (List.concat batches) /\ is_regular d = true /\
                       is_dot d = false /\ d_name d = n) /\
  (forall w' batches',
     clean_run w' batches' -> getenv w' "DENTLS_DELETE" = None ->
     Permutation (List.concat batches) (List.concat batches') ->
     forall n, In n (stdout_names (trace (snd (run w')))) <->
               In n (stdout_names (trace (snd (run w))))).
Proof.
  intros Hok Hc Hmode.
  assert (Hrep : forall w0 bs, clean_run w0 bs -> getenv w0 "DENTLS_DELETE" = None ->
            fst (run w0) = Val 0 /\
            forall n, In n (stdout_names (trace (snd (run w0)))) <->
                      In n (wanted_names (List.concat bs))).
  { intros w0 bs Hc0 Hm0.
    destruct (clean_run_inv w0 bs Hc0) as (Hh & Hm & Hwf & Hs & He).
    pose proof (proj1 (clean_run_mode w0 _ Hm0) eq_refl) as Hmr.
    destruct (report_summary w0 bs [] Hok Hh Hm Hwf Hs He Hmr)
      as (order & evs & ND & IN & R & TR & O1 & O2 & O3 & O4 & O5 & FI & DC & HF).
    split; [exact R|]. intros n. rewrite TR.
    destruct (trace_shape w0 (List.length bs)
                (bump (List.length (filter wanted (List.concat bs))) 0) false evs
                (done_events w0)) as (S1 & _).
    rewrite S1, O1. cbn [done_events stdout_names flat_map printed_name app].
    rewrite app_nil_r. apply IN. }
  destruct (Hrep w batches Hc Hmode) as [R IN].
  split; [exact R|]. split.
  - intros n. rewrite IN. apply wanted_names_spec.
  - intros w' batches' Hc' Hmode' P n.
    destruct (Hrep w' batches' Hc' Hmode') as [_ IN'].
    rewrite IN, IN'. symmetry. now apply wanted_names_perm.
Qed.

Lemma C1_witness :
  fst (run (libc := bst_impl) report_world) = Val 0 /\
  (forall n, In n (stdout_names (trace (snd (run (libc := bst_impl) report_world)))) <->
             exists d, In d (List.concat example_batches) /\ is_regular d = true /\
                       is_dot d = false /\ d_name d = n).
Proof.
  destruct (C1_report_completeness (libc := bst_impl) report_world example_batches
              bst_impl_ok report_world_clean eq_refl) as (H1 & H2 & _).
  split; assumption.
Defined.




(** The action at a leaf or end-order visit: one name is acted on,
    printed in report mode, handed to [unlink] otherwise. *)
Lemma walk_tree_fires {libc : search_impl} (w : world) (node : ptr) (s : state) :
  exists evs,
    trace (snd (walk_tree w node endorder 0 s)) = trace s ++ evs /\
    acted evs = [name_at (heap s) node] /\
    (print_only s <> 0 ->
       fst (walk_tree w node endorder 0 s) = Val tt /\
       stdout_names evs = [name_at (heap s) node]) /\
    (print_only s = 0 -> unlink_calls evs = [name_at (heap s) node]).
Proof.
  destruct (Z.eq_dec (print_only s) 0) as [Hpo|Hpo].
  - destruct (unlink_errno w (files s) (name_at (heap s) node)) as [e|] eqn:E.
    + destruct (walk_unlink_fail w node s e Hpo E) as (s' & R & F & Fi & T).
      rewrite R. cbn [snd]. eexists. split; [exact T|].
      split; [reflexivity|]. split; [intros; contradiction | intros _; reflexivity].
    + destruct (unlink_errno_none w _ _ E) as [[u Hu] Hin].
      destruct (walk_unlink_step w node s u Hpo Hu Hin)
        as (s' & R & F & Fi & D & evs & T & A).
      destruct (walk_segment_unlink evs [name_at (heap s) node] A) as (_ & O2 & O3 & _).
      rewrite R. cbn [snd]. exists evs. split; [exact T|].
      split; [exact O3|]. split; [intros; contradiction | intros _; exact O2].
  - destruct (walk_print_step w node s Hpo) as (s' & R & F & Fi & D & evs & T & A).
    destruct (walk_segment_print evs [name_at (heap s) node] A) as (O1 & _ & O3 & _).
    rewrite R. cbn [fst snd]. exists evs. split; [exact T|].
    split; [exact O3|]. split; [intros _; split; [reflexivity | exact O1]|].
    intros; contradiction.
Qed.

(** C3. The walk acts at the leaf and end-order visits, and at these
    only.  [walk_tree] called for a preorder or postorder visit returns
    without any effect.  Called for a leaf or end-order visit it acts on
    the name of the node, once: the name is added to the names acted on;
    in report mode it is printed and the visit returns, otherwise it is
    handed to [unlink].  [twalk] with [walk_tree] is the action taken at
    each key in end order, and the end order of a node is the end order of
    its left subtree, then of its right subtree, then the node.  Hence the
    names acted on by a walk are the names of an initial segment of that
    order, never empty for a tree that is not; in report mode the walk
    returns and has printed the names of the whole order; in destructive
    mode the segment is what was handed to [unlink], and the walk returns
    when every removal succeeds. *)
Theorem C3_walk_end_order {libc : search_impl} (w : world) (t : tree) (lvl : Z)
    (s : state) :
  (forall node lvl' s',
     walk_tree w node preorder lvl' s' = (Val tt, s') /\
     walk_tree w node postorder lvl' s' = (Val tt, s')) /\
  (forall node val lvl' s', val = leaf \/ val = endorder ->
     acted (trace (snd (walk_tree w node val lvl' s')))
     = acted (trace s') ++ [name_at (heap s') node] /\
     (print_only s' <> 0 ->
        fst (walk_tree w node val lvl' s') = Val tt /\
        stdout_names (trace (snd (walk_tree w node val lvl' s')))
        = stdout_names (trace s') ++ [name_at (heap s') node]) /\
     (print_only s' = 0 ->
        unlink_calls (trace (snd (walk_tree w node val lvl' s')))
        = unlink_calls (trace s') ++ [name_at (heap s') node])) /\
  twalk_rec t (walk_tree w) lvl s = visit_all w (endorder_keys t) s /\
  (forall l k r, endorder_keys (T l k r) = endorder_keys l ++ endorder_keys r ++ [k]) /\
  exists done,
    acted (trace (snd (twalk_rec t (walk_tree w) lvl s)))
    = acted (trace s) ++ map (name_at (heap s)) (firstn done (endorder_keys t)) /\
    (fst (twalk_rec t (walk_tree w) lvl s) = Val tt ->
     done = List.length (endorder_keys t)) /\
    (endorder_keys t <> [] -> (0 < done)%nat) /\
    (print_only s <> 0 ->
       fst (twalk_rec t (walk_tree w) lvl s) = Val tt /\
       stdout_names (trace (snd (twalk_rec t (walk_tree w) lvl s)))
       = stdout_names (trace s) ++ map (name_at (heap s)) (endorder_keys t)) /\
    (print_only s = 0 ->
       unlink_calls (trace (snd (twalk_rec t (walk_tree w) lvl s)))
       = unlink_calls (trace s) ++ map (name_at (heap s)) (firstn done (endorder_keys t)) /\
       (unlinks_ok w (files s) (map (name_at (heap s)) (endorder_keys t)) = true ->
        fst (twalk_rec t (walk_tree w) lvl s) = Val tt)).
Proof.
  split; [intros; apply walk_tree_ignored|].
  split.
  { intros node val lvl' s' Hval.
    assert (E : walk_tree w node val lvl' s' = walk_tree w node endorder 0 s').
    { destruct Hval as [-> | ->]; [apply walk_tree_leaf | apply walk_tree_lvl]. }
    rewrite E. destruct (walk_tree_fires w node s') as (evs & T & A & P & U).
    rewrite T, acted_app, stdout_names_app, unlink_calls_app, A.
    split; [reflexivity|]. split.
    - intros Hpo. destruct (P Hpo) as [R O]. now rewrite O.
    - intros Hpo. now rewrite (U Hpo). }
  split; [apply twalk_rec_visit|].
  split; [reflexivity|].
  rewrite twalk_rec_visit. set (ks := endorder_keys t).
  destruct (Z.eq_dec (print_only s) 0) as [Hpo|Hpo].
  - destruct (unlinks_split w (map (name_at (heap s)) ks) (files s))
      as [Hok|(pre & x & post & e & Hsplit & Hok & He)].
    + destruct (visit_all_unlink w ks s Hpo Hok) as (s1 & R1 & F1 & Fi1 & D1 & evs & T1 & A1).
      destruct (walk_segment_unlink evs _ A1) as (_ & O2 & O3 & _).
      exists (List.length ks). rewrite R1. cbn [fst snd].
      rewrite T1, acted_app, unlink_calls_app, O2, O3, firstn_all.
      split; [reflexivity|]. split; [intros _; reflexivity|].
      split; [destruct ks; [congruence | simpl; lia]|].
      split; [intros; contradiction|].
      intros _. split; [reflexivity | intros _; reflexivity].
    + assert (Hbad : unlinks_ok w (files s) (map (name_at (heap s)) ks) = true -> False).
      { rewrite Hsplit. intros H. apply (unlinks_ok_app w) in H as [_ H].
        cbn [unlinks_ok] in H. rewrite He in H. discriminate H. }
      apply map_eq_app in Hsplit as (kpre & krest & Hks & Hpre & Hrest).
      apply map_eq_cons in Hrest as (k & kpost & -> & Hk & Hpost).
      subst pre x post.
      destruct (visit_all_unlink_fail w kpre k kpost s e Hpo Hok He)
        as (s1 & R1 & F1 & Fi1 & evs & T1 & A1).
      destruct (walk_segment_unlink evs _ A1) as (_ & O2 & O3 & _).
      exists (List.length (kpre ++ [k])). rewrite Hks, R1. cbn [fst snd].
      replace (kpre ++ k :: kpost) with ((kpre ++ [k]) ++ kpost)
        by (rewrite <- app_assoc; reflexivity).
      rewrite firstn_app, firstn_all, Nat.sub_diag, firstn_O, app_nil_r, map_app.
      rewrite T1, !acted_app, !unlink_calls_app, O2, O3.
      split; [reflexivity|]. split; [discriminate|].
      split; [intros _; rewrite length_app; simpl; lia|].
      split; [intros; contradiction|].
      intros _. split; [reflexivity|]. intros H. exfalso. apply Hbad.
      rewrite Hks. rewrite <- app_assoc in H. exact H.
  - destruct (visit_all_print w ks s Hpo) as (s1 & R1 & F1 & Fi1 & D1 & evs & T1 & A1).
    destruct (walk_segment_print evs _ A1) as (O1 & _ & O3 & _).
    exists (List.length ks). rewrite R1. cbn [fst snd].
    rewrite T1, acted_app, stdout_names_app, O1, O3, firstn_all.
    split; [reflexivity|]. split; [intros _; reflexivity|].
    split; [destruct ks; [congruence | simpl; lia]|].
    split; [intros _; split; reflexivity|].
    intros; contradiction.
Qed.

Lemma example_files_nodup : NoDup (w_files delete_world).
Proof.
  change (NoDup ["a"; "b"; "c"; "sub"]%string).
  repeat constructor; simpl; intuition discriminate.
Qed.

(** C4. A failing removal is fatal and leaves a partial effect: in
    destructive mode the entries are visited in an order [order] that holds
    each wanted name once, and the names handed to [unlink] by the run are
    an initial segment of it.  If the removals of the first K names [pre]
    succeed and the removal of the next name [x] fails with error [e], the
    run calls [unlink] on [pre] and then on [x] and on nothing else, writes
    the failing name and the system error on the secondary stream, exits
    with status 1 at once, and the directory has lost the names of [pre]
    and no other. *)
Theorem C4_fatal_removal {libc : search_impl} (w : world)
    (batches : list (list dirent)) :
  search_ok libc -> clean_run w batches ->
  getenv w "DENTLS_DELETE" = Some "delete"%string ->
  NoDup (w_files w) ->
  exists order,
    NoDup order /\
    (forall n, In n order <-> In n (wanted_names (List.concat batches))) /\
    (exists later, order = unlink_calls (trace (snd (run w))) ++ later) /\
    forall pre x post e,
      order = pre ++ x :: post ->
      unlinks_ok w (w_files w) pre = true ->
      unlink_errno w (remove_names pre (w_files w)) x = Some e ->
      fst (run w) = Exit 1 /\
      exits_nonzero (fst (run w)) /\
      unlink_calls (trace (snd (run w))) = pre ++ [x] /\
      (exists before,
         trace (snd (run w)) =
           before ++ [unlink_event x; Stderr "Failed to delete %s" [AStr x];
                      Perror "unlink problem" e]) /\
      files (snd (run w)) = remove_names pre (w_files w) /\
      (forall n, In n (files (snd (run w))) <-> In n (w_files w) /\ ~ In n pre).
Proof.
  intros Hok Hc Hmode Hfiles.
  destruct (clean_run_inv w batches Hc) as (Hh & Hm & Hwf & Hs & He).
  pose proof (proj2 (clean_run_mode w _ Hmode) eq_refl) as Hmr.
  destruct (delete_summary w batches [] Hok Hh Hm Hwf Hs He Hmr)
    as (order & ND & IN &
        [(U & evs & R & TR & O1 & O2 & O3 & O4 & O5 & FI & DC & HF)
        |(pre & x & post & e & evs & E & U & F & R & TR & O1 & O2 & O3 & O4 & O5 & FI)]);
    exists order; (split; [exact ND|]); (split; [exact IN|]).
  - destruct (trace_shape w (List.length batches)
                (bump (List.length (filter wanted (List.concat batches))) 0) true evs
                (done_events w)) as (_ & S2 & _).
    rewrite TR, S2, O2. cbn [done_events unlink_calls flat_map unlinked_name app].
    rewrite app_nil_r. split; [exists []; now rewrite app_nil_r|].
    intros pre x post e Eo Hpre Hx. exfalso. rewrite Eo in U.
    apply unlinks_ok_app in U as [_ U]. cbn [unlinks_ok] in U. rewrite Hx in U.
    discriminate.
  - destruct (trace_shape w (List.length batches)
                (bump (List.length (filter wanted (List.concat batches))) 0) true evs
                (failure_events x e)) as (_ & S2 & _).
    assert (Hcalls : unlink_calls (trace (snd (run w))) = pre ++ [x]).
    { rewrite TR, S2, O2. reflexivity. }
    rewrite Hcalls. split.
    { exists post. rewrite E, <- app_assoc. reflexivity. }
    intros pre' x' post' e' Eo Hpre Hx.
    rewrite E in Eo.
    destruct (first_failure_unique w pre (w_files w) x post e pre' x' post' e'
                Eo U F Hpre Hx) as (<- & <- & <- & <-).
    split; [exact R|]. split; [rewrite R; exists 1; split; [reflexivity | discriminate]|].
    split; [reflexivity|]. split.
    { exists (reading_trace w (List.length batches)
              ++ [total_event (bump (List.length (filter wanted (List.concat batches))) 0);
                  mode_event true] ++ evs).
      rewrite TR. unfold failure_events. rewrite <- !app_assoc. reflexivity. }
    split; [exact FI|]. intros n. rewrite FI. now apply remove_names_spec.
Qed.

Lemma C4_witness :
  fst (run (libc := bst_impl) delete_world) = Exit 1 /\
  unlink_calls (trace (snd (run (libc := bst_impl) delete_world))) = ["a"; "c"]%string /\
  files (snd (run (libc := bst_impl) delete_world))
  = remove_names ["a"%string] (w_files delete_world).
Proof.
  destruct (C4_fatal_removal (libc := bst_impl) delete_world example_batches
              bst_impl_ok delete_world_clean eq_refl example_files_nodup)
    as (order & H1 & H2 & (later & H3) & H4).
  change (unlink_calls (trace (snd (run (libc := bst_impl) delete_world))))
    with (["a"%string] ++ ["c"%string]) in H3.
  rewrite <- app_assoc in H3.
  destruct (H4 ["a"%string] "c"%string later 1 H3 eq_refl eq_refl)
    as (R & _ & C & _ & F & _).
  split; [exact R|]. split; [exact C | exact F].
Defined.

(** The run of [delete_world]: a is removed, the removal of c is refused,
    b is never reached. *)
Example delete_world_run :
  fst (run (libc := bst_impl) delete_world) = Exit 1 /\
  unlink_calls (trace (snd (run (libc := bst_impl) delete_world))) = ["a"; "c"]%string /\
  files (snd (run (libc := bst_impl) delete_world)) = ["b"; "c"; "sub"]%string.
Proof. repeat split; reflexivity. Qed.

Lemma acted_incl_length (l l' : list string) :
  NoDup l -> incl l l' -> (List.length l <= List.length (nodup string_dec l'))%nat.
Proof.
  intros Hnd Hincl. apply NoDup_incl_length; [assumption|].
  intros n Hn. apply nodup_In. now apply Hincl.
Qed.

Lemma nodup_length_lt (l : list string) :
  ~ NoDup l -> (List.length (nodup string_dec l) < List.length l)%nat.
Proof.
  induction l as [|x l IH]; intros H.
  - exfalso. apply H. constructor.
  - cbn [nodup]. destruct (in_dec string_dec x l) as [Hin|Hnin].
    + cbn [List.length].
      assert (List.length (nodup string_dec l) <= List.length l)%nat.
      { apply NoDup_incl_length; [apply NoDup_nodup|].
        intros n Hn. now apply nodup_In in Hn. }
      lia.
    + cbn [List.length]. apply -> Nat.succ_lt_mono. apply IH.
      intros Hnd. apply H. now constructor.
Qed.

(** C7. The end of the enumeration.  When the answers of the kernel are
    the batches [batches] followed by [tail]:
    - if [tail] is empty or begins with a zero-length answer, exactly one
      request more than there are batches is made (what follows the
      zero-length answer is never requested), the number of regular-file
      records is reported once, and nothing is printed or removed before
      that report;
    - if [tail] begins with an error, the run reports it with [perror] and
      exits with status 1 right after the failing request, having printed
      and removed nothing. *)
Theorem C7_enumeration_end {libc : search_impl} (w : world)
    (batches : list (list dirent)) (tail : list (sysret block)) (destructive : bool) :
  search_ok libc -> healthy w = true -> (forall n, w_malloc w n = true) ->
  mode_request w = Some destructive ->
  forallb wf_batch batches = true ->
  w_getdents w = map answer_of batches ++ tail ->
  (ends_enumeration tail = true ->
     getdents_buffers (trace (snd (run w))) = seq 0 (S (List.length batches)) /\
     totals (trace (snd (run w)))
     = [total_event (bump (List.length (filter wanted (List.concat batches))) 0)] /\
     (exists before after,
        trace (snd (run w))
        = before
          ++ total_event (bump (List.length (filter wanted (List.concat batches))) 0)
          :: after /\
        acted before = []) /\
     (Z.of_nat (List.length (filter wanted (List.concat batches))) < 2147483648 ->
      bump (List.length (filter wanted (List.concat batches))) 0
      = Z.of_nat (List.length (filter wanted (List.concat batches))))) /\
  (forall e later, tail = Err e :: later ->
     fst (run w) = Exit 1 /\
     exits_nonzero (fst (run w)) /\
     (exists before,
        trace (snd (run w))
        = before ++ [getdents_event (dir_fd w) (getdents_buf_size w) (List.length batches);
                     Perror "getdents" e]) /\
     getdents_buffers (trace (snd (run w))) = seq 0 (S (List.length batches)) /\
     acted (trace (snd (run w))) = [] /\
     totals (trace (snd (run w))) = [] /\
     files (snd (run w)) = w_files w).
Proof.
  intros Hok Hh Hm Hmode Hwf Hs. split.
  - intros He.
    assert (Hshape : exists evs closing,
              trace (snd (run w)) =
                reading_trace w (List.length batches)
                ++ [total_event (bump (List.length (filter wanted (List.concat batches))) 0);
                    mode_event destructive]
                ++ evs ++ closing /\
              totals evs = [] /\ getdents_buffers evs = [] /\
              totals closing = [] /\ getdents_buffers closing = []).
    { destruct destructive.
      - destruct (delete_summary w batches tail Hok Hh Hm Hwf Hs He Hmode)
          as (order & ND & IN &
              [(U & evs & R & TR & O1 & O2 & O3 & O4 & O5 & FI & DC & HF)
              |(pre & x & post & e & evs & E & U & F & R & TR & O1 & O2 & O3 & O4 & O5 & FI)]).
        + exists evs, (done_events w). repeat split; assumption || reflexivity.
        + exists evs, (failure_events x e). repeat split; assumption || reflexivity.
      - destruct (report_summary w batches tail Hok Hh Hm Hwf Hs He Hmode)
          as (order & evs & ND & IN & R & TR & O1 & O2 & O3 & O4 & O5 & FI & DC & HF).
        exists evs, (done_events w). repeat split; assumption || reflexivity. }
    destruct Hshape as (evs & closing & TR & T1 & G1 & T2 & G2).
    destruct (trace_shape w (List.length batches)
                (bump (List.length (filter wanted (List.concat batches))) 0) destructive
                evs closing) as (_ & _ & _ & S4 & S5).
    rewrite TR, S4, S5, T1, T2, G1, G2, !app_nil_r.
    split; [reflexivity|]. split; [reflexivity|]. split.
    + exists (reading_trace w (List.length batches)), (mode_event destructive :: evs ++ closing).
      split; [reflexivity | apply acted_reading].
    + apply bump_small.
  - intros e later ->.
    destruct (run_spec Hok w Hm destructive batches (Err e :: later) Hh Hmode Hwf Hs)
      as [Herr _].
    destruct (Herr e later eq_refl) as (s & R & FI & TR).
    rewrite R. cbn [fst snd]. rewrite TR.
    split; [reflexivity|]. split; [exists 1; split; [reflexivity | discriminate]|].
    split.
    { exists (prelude w ++ map (getdents_event (dir_fd w) (getdents_buf_size w))
                              (seq 0 (List.length batches))).
      unfold reading_trace. rewrite seq_S, map_app. cbn [map Nat.add].
      rewrite <- !app_assoc. reflexivity. }
    rewrite getdents_buffers_app, acted_app, totals_app.
    rewrite getdents_buffers_reading, acted_reading, totals_reading.
    cbn. rewrite app_nil_r. repeat split; reflexivity || exact FI.
Qed.

Lemma C7_witness :
  fst (run (libc := bst_impl) failing_world) = Exit 1 /\
  getdents_buffers (trace (snd (run (libc := bst_impl) failing_world))) = [0; 1]%nat.
Proof.
  destruct (C7_enumeration_end (libc := bst_impl) failing_world
              [[regular_entry "b"%string]] [Err 5] false
              bst_impl_ok eq_refl (fun _ => eq_refl) eq_refl eq_refl eq_refl)
    as [_ H].
  destruct (H 5 [] eq_refl) as (R & _ & _ & G & _).
  split; [exact R | exact G].
Defined.




(** C10. Counting against the index.  The reported total is the number of
    regular-file records, one for each record; the names acted on are
    pairwise distinct and all belong to those records, so they are at most
    as many as the distinct names, and exactly as many in report mode.
    Hence, as soon as one name occurs in two regular-file records, the
    reported total is strictly larger than the number of names printed or
    removed. *)
Theorem C10_total_counts_records {libc : search_impl} (w : world)
    (batches : list (list dirent)) (destructive : bool) :
  search_ok libc -> clean_run w batches -> mode_request w = Some destructive ->
  totals (trace (snd (run w)))
  = [total_event (bump (List.length (wanted_names (List.concat batches))) 0)] /\
  (Z.of_nat (List.length (wanted_names (List.concat batches))) < 2147483648 ->
   bump (List.length (wanted_names (List.concat batches))) 0
   = Z.of_nat (List.length (wanted_names (List.concat batches)))) /\
  NoDup (acted (trace (snd (run w)))) /\
  incl (acted (trace (snd (run w)))) (wanted_names (List.concat batches)) /\
  (List.length (acted (trace (snd (run w))))
   <= List.length (nodup string_dec (wanted_names (List.concat batches))))%nat /\
  (destructive = false ->
   List.length (acted (trace (snd (run w))))
   = List.length (nodup string_dec (wanted_names (List.concat batches)))) /\
  (~ NoDup (wanted_names (List.concat batches)) ->
   (List.length (acted (trace (snd (run w))))
    < List.length (wanted_names (List.concat batches)))%nat).
Proof.
  intros Hok Hc Hmode.
  destruct (clean_run_inv w batches Hc) as (Hh & Hm & Hwf & Hs & He).
  assert (Hlen : List.length (wanted_names (List.concat batches))
                 = List.length (filter wanted (List.concat batches)))
    by (unfold wanted_names; apply length_map).
  rewrite Hlen.
  assert (Hshape : exists order visited evs closing,
            NoDup order /\
            (forall n, In n order <-> In n (wanted_names (List.concat batches))) /\
            trace (snd (run w)) =
              reading_trace w (List.length batches)
              ++ [total_event (bump (List.length (filter wanted (List.concat batches))) 0);
                  mode_event destructive]
              ++ evs ++ closing /\
            totals evs = [] /\ totals closing = [] /\
            acted evs ++ acted closing = visited /\
            (exists later, order = visited ++ later) /\
            (destructive = false -> visited = order)).
  { destruct destructive.
    - destruct (delete_summary w batches [] Hok Hh Hm Hwf Hs He Hmode)
        as (order & ND & IN &
            [(U & evs & R & TR & O1 & O2 & O3 & O4 & O5 & FI & DC & HF)
            |(pre & x & post & e & evs & E & U & F & R & TR & O1 & O2 & O3 & O4 & O5 & FI)]).
      + exists order, order, evs, (done_events w).
        repeat split; try assumption; try apply IN; try discriminate.
        * rewrite O3. cbn. now rewrite app_nil_r.
        * exists []. now rewrite app_nil_r.
      + exists order, (pre ++ [x]), evs, (failure_events x e).
        repeat split; try assumption; try apply IN; try discriminate.
        * rewrite O3. reflexivity.
        * exists post. rewrite E, <- app_assoc. reflexivity.
    - destruct (report_summary w batches [] Hok Hh Hm Hwf Hs He Hmode)
        as (order & evs & ND & IN & R & TR & O1 & O2 & O3 & O4 & O5 & FI & DC & HF).
      exists order, order, evs, (done_events w).
      repeat split; try assumption; try apply IN.
      + rewrite O3. cbn. now rewrite app_nil_r.
      + exists []. now rewrite app_nil_r. }
  destruct Hshape as (order & visited & evs & closing & ND & IN & TR & T1 & T2 & AC
                      & (later & Eo) & Hrep).
  destruct (trace_shape w (List.length batches)
              (bump (List.length (filter wanted (List.concat batches))) 0) destructive
              evs closing) as (_ & _ & S3 & S4 & _).
  rewrite TR, S3, S4, T1, T2, AC. cbn [app].
  assert (NDv : NoDup visited).
  { rewrite Eo in ND. eapply NoDup_app_remove_r. exact ND. }
  assert (Iv : incl visited (wanted_names (List.concat batches))).
  { intros n Hn. apply IN. rewrite Eo. apply in_or_app. now left. }
  pose proof (acted_incl_length visited _ NDv Iv) as Hle.
  split; [reflexivity|]. split; [apply bump_small|].
  split; [exact NDv|]. split; [exact Iv|]. split; [exact Hle|]. split.
  - intros Hd. rewrite (Hrep Hd).
    apply Nat.le_antisymm; [rewrite <- (Hrep Hd); exact Hle|].
    apply NoDup_incl_length; [apply NoDup_nodup|].
    intros n Hn. apply nodup_In in Hn. now apply IN.
  - intros Hdup. rewrite <- Hlen.
    pose proof (nodup_length_lt _ Hdup). lia.
Qed.

Lemma C10_witness :
  totals (trace (snd (run (libc := bst_impl) degenerate_world))) = [total_event 3] /\
  List.length (acted (trace (snd (run (libc := bst_impl) degenerate_world)))) = 2%nat.
Proof.
  destruct (C10_total_counts_records (libc := bst_impl) degenerate_world
              degenerate_batches false bst_impl_ok degenerate_world_clean eq_refl)
    as (H1 & _ & _ & _ & _ & H6 & _).
  split; [exact H1 | exact (H6 eq_refl)].
Defined.

(** ** Relations kept by every step *)

Create HintDb keeps.

Section Preserves.

Context {libc : search_impl}.
Variable R : state -> state -> Prop.
Hypothesis R_refl : forall s, R s s.
Hypothesis R_trans : forall s1 s2 s3, R s1 s2 -> R s2 s3 -> R s1 s3.

Lemma preserves_ret {A} (a : A) : preserves R (ret a).
Proof. intros s. apply R_refl. Qed.

Lemma preserves_exit {A} st : preserves R (@exit libc A st).
Proof. intros s. apply R_refl. Qed.

Lemma preserves_hang {A} : preserves R (@hang libc A).
Proof. intros s. apply R_refl. Qed.

Lemma preserves_gets {A} (f : state -> A) : preserves R (gets f).
Proof. intros s. apply R_refl. Qed.

Lemma preserves_bind {A B} (m : M A) (k : A -> M B) :
  preserves R m -> (forall a, preserves R (k a)) -> preserves R (bind m k).
Proof.
  intros Hm Hk s. unfold bind. specialize (Hm s).
  destruct (m s) as [[a| |] s']; cbn [snd] in *; try assumption.
  eapply R_trans; [exact Hm | apply Hk].
Qed.

Lemma preserves_if {A} (c : bool) (m1 m2 : M A) :
  preserves R m1 -> preserves R m2 -> preserves R (if c then m1 else m2).
Proof. destruct c; auto. Qed.

End Preserves.

Section ModeKept.

Context {libc : search_impl}.
Variable w : world.

Lemma mode_kept_refl s : mode_kept s s.
Proof. unfold mode_kept. repeat split; reflexivity. Qed.

Lemma mode_kept_trans s1 s2 s3 : mode_kept s1 s2 -> mode_kept s2 s3 -> mode_kept s1 s3.
Proof.
  intros (A1 & A2 & A3) (B1 & B2 & B3). unfold mode_kept.
  split; [congruence|]. split.
  - intros H. destruct (A2 H) as [A21 A22].
    destruct B2 as [B21 B22]; [congruence|]. split; congruence.
  - intros H. rewrite B3 by congruence. now apply A3.
Qed.

Lemma same_view_refl s : same_view s s.
Proof. unfold same_view. repeat split; reflexivity. Qed.

Lemma same_view_trans s1 s2 s3 : same_view s1 s2 -> same_view s2 s3 -> same_view s1 s3.
Proof.
  intros (A1 & A2 & A3 & A4) (B1 & B2 & B3 & B4). unfold same_view.
  repeat split; congruence.
Qed.

Lemma keeps_modify (f : state -> state) :
  (forall s, print_only (f s) = print_only s /\ files (f s) = files s /\
             trace (f s) = trace s) ->
  preserves mode_kept (modify f).
Proof.
  intros H s. destruct (H s) as (H1 & H2 & H3). unfold modify, mode_kept. cbn [snd].
  rewrite H1, H2, H3. repeat split; reflexivity.
Qed.

Lemma keeps_emit e :
  printed_name e = [] -> unlinked_name e = [] -> preserves mode_kept (emit e).
Proof.
  intros H1 H2 s. unfold emit, modify, mode_kept. cbn [snd].
  destruct s; cbn [emit_event print_only files trace].
  rewrite unlink_calls_app, stdout_names_app. unfold unlink_calls, stdout_names.
  cbn [flat_map]. rewrite H1, H2, !app_nil_r. repeat split; reflexivity.
Qed.

Lemma inert_modify (f : state -> state) :
  (forall s, heap (f s) = heap s /\ tree_root (f s) = tree_root s /\
             print_only (f s) = print_only s /\ trace (f s) = trace s) ->
  preserves same_view (modify f).
Proof.
  intros H s. destruct (H s) as (H1 & H2 & H3 & H4). unfold modify, same_view. cbn [snd].
  rewrite H1, H2, H3, H4. repeat split; reflexivity.
Qed.

Lemma inert_emit e : is_stdout e = false -> preserves same_view (emit e).
Proof.
  intros H1 s. unfold emit, modify, same_view. cbn [snd].
  destruct s; cbn [emit_event heap tree_root print_only trace].
  unfold stdout_of. rewrite filter_app. cbn [filter]. rewrite H1, app_nil_r.
  repeat split; reflexivity.
Qed.

Ltac keeps :=
  repeat first
    [ solve [auto with keeps nocore]
    | simple apply preserves_ret; [apply mode_kept_refl || apply same_view_refl]
    | simple apply preserves_exit; [apply mode_kept_refl || apply same_view_refl]
    | simple apply preserves_hang; [apply mode_kept_refl || apply same_view_refl]
    | simple apply preserves_gets; [apply mode_kept_refl || apply same_view_refl]
    | simple apply preserves_bind;
        [apply mode_kept_trans || apply same_view_trans | | intros ?]
    | simple apply preserves_if
    | simple apply keeps_emit; reflexivity
    | simple apply inert_emit; reflexivity
    | simple apply keeps_modify; intros [? ? ? ? ? ? ? ? ?]; repeat split; reflexivity
    | simple apply inert_modify; intros [? ? ? ? ? ? ? ? ?]; repeat split; reflexivity
    | match goal with
      | |- preserves _ (match ?x with _ => _ end) => destruct x
      end ].

Lemma keeps_fprintf fmt args : preserves mode_kept (fprintf_stderr fmt args).
Proof. unfold fprintf_stderr. keeps. Qed.

Lemma keeps_perror msg : preserves mode_kept (perror msg).
Proof. unfold perror. keeps. Qed.

Lemma keeps_fail_with e : preserves mode_kept (fail_with e).
Proof. unfold fail_with. keeps. Qed.

Lemma keeps_alloc_request : preserves mode_kept (alloc_request w).
Proof. unfold alloc_request. keeps. Qed.

#[local] Hint Resolve keeps_fprintf keeps_perror keeps_fail_with keeps_alloc_request : keeps.

Lemma keeps_malloc size : preserves mode_kept (malloc w size).
Proof. unfold malloc. keeps. Qed.

Lemma keeps_prepend head data : preserves mode_kept (linked_list_prepend_override w head data).
Proof. unfold linked_list_prepend_override. keeps. Qed.

Lemma keeps_tsearch key : preserves mode_kept (tsearch w key).
Proof. unfold tsearch. keeps. Qed.

Lemma keeps_getdents answer dirfd buffer size :
  preserves mode_kept (getdents answer dirfd buffer size).
Proof. unfold getdents. keeps. Qed.

Lemma keeps_access p : preserves mode_kept (access w p).
Proof. unfold access. keeps. Qed.

Lemma keeps_lstat p : preserves mode_kept (lstat w p).
Proof. unfold lstat. keeps. Qed.

Lemma keeps_open p : preserves mode_kept (open w p).
Proof. unfold open. keeps. Qed.

Lemma keeps_fchdir fd : preserves mode_kept (fchdir w fd).
Proof. unfold fchdir. keeps. Qed.

Lemma keeps_close fd : preserves mode_kept (close fd).
Proof. unfold close. keeps. Qed.

#[local] Hint Resolve keeps_malloc keeps_prepend keeps_tsearch keeps_getdents
  keeps_access keeps_lstat keeps_open keeps_fchdir keeps_close : keeps.

Lemma inert_fprintf fmt args : preserves same_view (fprintf_stderr fmt args).
Proof. unfold fprintf_stderr. keeps. Qed.

Lemma inert_perror msg : preserves same_view (perror msg).
Proof. unfold perror. keeps. Qed.

Lemma inert_fail_with e : preserves same_view (fail_with e).
Proof. unfold fail_with. keeps. Qed.

Lemma inert_alloc_request : preserves same_view (alloc_request w).
Proof. unfold alloc_request. keeps. Qed.

#[local] Hint Resolve inert_fprintf inert_perror inert_fail_with inert_alloc_request : keeps.

Lemma inert_access p : preserves same_view (access w p).
Proof. unfold access. keeps. Qed.

Lemma inert_lstat p : preserves same_view (lstat w p).
Proof. unfold lstat. keeps. Qed.

Lemma inert_open p : preserves same_view (open w p).
Proof. unfold open. keeps. Qed.

Lemma inert_fchdir fd : preserves same_view (fchdir w fd).
Proof. unfold fchdir. keeps. Qed.

Lemma inert_close fd : preserves same_view (close fd).
Proof. unfold close. keeps. Qed.

Lemma inert_progress_env :
  preserves same_view
    (match getenv w "DENTLS_PROGRESS" with
     | Some _ => modify (set_show_progress 1)
     | None => ret tt
     end).
Proof. keeps. Qed.

Lemma keeps_scan_buffer fuel : forall buffer offset bufcount totalfiles,
  preserves mode_kept (scan_buffer w fuel buffer offset bufcount totalfiles).
Proof.
  induction fuel as [|fuel IH]; intros buffer offset bufcount totalfiles;
    cbn [scan_buffer]; keeps.
Qed.

#[local] Hint Resolve keeps_scan_buffer : keeps.

Lemma keeps_read_directory answers : forall dirfd size buffer totalfiles bufs,
  preserves mode_kept (read_directory w answers dirfd size buffer totalfiles bufs).
Proof.
  induction answers as [|a answers IH]; intros dirfd size buffer totalfiles bufs;
    cbn [read_directory]; cbv zeta; keeps.
Qed.

Lemma keeps_free_linked_list head : preserves mode_kept (free_linked_list head).
Proof.
  induction head as [|a head IH]; cbn [free_linked_list]; unfold free; keeps.
Qed.

Lemma keeps_walk_act node s : mode_kept s (snd (walk_tree w node endorder 0 s)).
Proof.
  destruct (Z.eq_dec (print_only s) 0) as [Hpo|Hpo].
  - destruct (unlink_errno w (files s) (name_at (heap s) node)) as [e|] eqn:E.
    + destruct (walk_unlink_fail w node s e Hpo E) as (s' & R & F & Fi & T).
      rewrite R. cbn [snd]. unfold mode_kept.
      split; [apply (wf_print_only _ _ F)|]. split; [intros; contradiction|].
      intros _. rewrite T, stdout_names_app. cbn. now rewrite app_nil_r.
    + destruct (unlink_errno_none w _ _ E) as [[u Hu] Hin].
      destruct (walk_unlink_step w node s u Hpo Hu Hin)
        as (s' & R & F & Fi & D & evs & T & A).
      destruct (walk_segment_unlink evs [name_at (heap s) node] A) as (O1 & _).
      rewrite R. cbn [snd]. unfold mode_kept.
      split; [apply (wf_print_only _ _ F)|]. split; [intros; contradiction|].
      intros _. rewrite T, stdout_names_app, O1. now rewrite app_nil_r.
  - destruct (walk_print_step w node s Hpo) as (s' & R & F & Fi & D & evs & T & A).
    destruct (walk_segment_print evs [name_at (heap s) node] A) as (_ & O2 & _).
    rewrite R. cbn [snd]. unfold mode_kept.
    split; [apply (wf_print_only _ _ F)|]. split; [|intros; contradiction].
    intros _. rewrite T, unlink_calls_app, O2, app_nil_r. split; [reflexivity | exact Fi].
Qed.

Lemma keeps_walk_tree node val lvl : preserves mode_kept (walk_tree w node val lvl).
Proof.
  intros s. destruct val; try apply mode_kept_refl; apply keeps_walk_act.
Qed.

#[local] Hint Resolve keeps_walk_tree : keeps.

Lemma keeps_twalk_rec t : forall lvl, preserves mode_kept (twalk_rec t (walk_tree w) lvl).
Proof.
  induction t as [|l IHl k r IHr]; intros lvl; cbn [twalk_rec]; keeps.
Qed.

#[local] Hint Resolve keeps_twalk_rec keeps_read_directory keeps_free_linked_list : keeps.

Lemma keeps_twalk root : preserves mode_kept (twalk root (walk_tree w)).
Proof. unfold twalk. keeps. Qed.

Lemma keeps_tdestroy root : preserves mode_kept (tdestroy root).
Proof. unfold tdestroy. keeps. Qed.

#[local] Hint Resolve keeps_twalk keeps_tdestroy : keeps.

(** [main] from the arguments it accepts: the refusal of a mistyped mode
    selector, and what the selector decides otherwise. *)
Lemma main_mode :
  good_args w ->
  (forall v, getenv w "DENTLS_DELETE" = Some v -> (strcmp v "delete" =? 0) = false ->
     run w = (Val 1,
              emit_event
                (Stderr "If you did not intend to run deletes, please unset the variable entirely.\n" [])
                (emit_event
                   (Stderr "If you'd like to delete files, please set DENTLS_DELETE to 'delete', *EXACTLY*.\n" [])
                   (init_state w)))) /\
  (forall v, getenv w "DENTLS_DELETE" = Some v -> (strcmp v "delete" =? 0) = true ->
     mode_kept (set_print_only 0 (init_state w)) (snd (run w))) /\
  (getenv w "DENTLS_DELETE" = None -> mode_kept (init_state w) (snd (run w))).
Proof.
  intros [Hargc Hchar].
  unfold run, main. rewrite Hchar.
  replace (Z.of_nat (List.length (argv w)) <? 2) with false
    by (symmetry; apply Z.ltb_ge; lia).
  change (Ascii.eqb "/" "-" || negb (Ascii.eqb "/" "/")) with false.
  cbv zeta. cbv iota.
  match goal with
  | |- context [match getenv w "DENTLS_DELETE" with Some _ => _ | None => ?B end] =>
      set (body := B)
  end.
  assert (HB : preserves mode_kept body) by (unfold body; keeps).
  split; [|split].
  - intros v Hv Hne. rewrite Hv, Hne. reflexivity.
  - intros v Hv He. rewrite Hv, He. cbn [negb]. apply HB.
  - intros Hv. rewrite Hv. apply HB.
Qed.

End ModeKept.

Lemma good_args_delete_world : good_args delete_world.
Proof. split; [simpl; lia | reflexivity]. Qed.

(** C5. The mode selector.  With arguments that [main] accepts: the run
    ends in destructive mode exactly when [DENTLS_DELETE] is the string
    "delete"; any other value, the empty one included, makes the run write
    the two explanatory lines and return 1 before any system call, so that
    nothing is enumerated and nothing is removed; with the variable unset
    the run stays in report mode, calls [unlink] on nothing and leaves the
    directory as it was; in destructive mode nothing is written on the
    primary stream. *)
Theorem C5_mode_selector {libc : search_impl} (w : world) :
  good_args w ->
  (forall v, getenv w "DENTLS_DELETE" = Some v -> nul_free v = true) ->
  (print_only (snd (run w)) = 0 <-> getenv w "DENTLS_DELETE" = Some "delete"%string) /\
  (forall v, getenv w "DENTLS_DELETE" = Some v -> v <> "delete"%string ->
     fst (run w) = Val 1 /\ exits_nonzero (fst (run w)) /\
     trace (snd (run w))
     = [Stderr "If you'd like to delete files, please set DENTLS_DELETE to 'delete', *EXACTLY*.\n" [];
        Stderr "If you did not intend to run deletes, please unset the variable entirely.\n" []] /\
     existsb is_syscall (trace (snd (run w))) = false /\
     files (snd (run w)) = w_files w) /\
  (getenv w "DENTLS_DELETE" = None ->
     print_only (snd (run w)) = 1 /\
     unlink_calls (trace (snd (run w))) = [] /\
     files (snd (run w)) = w_files w) /\
  (getenv w "DENTLS_DELETE" = Some "delete"%string ->
     stdout_names (trace (snd (run w))) = []).
Proof.
  intros Hargs Hnul.
  destruct (main_mode w Hargs) as (Hbad & Hdel & Hnone).
  assert (Hcmp : forall v, getenv w "DENTLS_DELETE" = Some v ->
                   (strcmp v "delete" =? 0) = String.eqb "delete" v).
  { intros v Hv. apply strcmp_eqb; [now apply Hnul | reflexivity]. }
  assert (Hrej : forall v, getenv w "DENTLS_DELETE" = Some v -> v <> "delete"%string ->
                   (strcmp v "delete" =? 0) = false).
  { intros v Hv Hne. rewrite (Hcmp v Hv). apply String.eqb_neq. congruence. }
  split; [|split; [|split]].
  - split.
    + intros Hpo. destruct (getenv w "DENTLS_DELETE") as [v|] eqn:Hv.
      * destruct (string_dec v "delete") as [->|Hne]; [reflexivity|].
        rewrite (Hbad v eq_refl (Hrej v eq_refl Hne)) in Hpo. discriminate.
      * destruct (Hnone eq_refl) as (H1 & _). rewrite H1 in Hpo. discriminate.
    + intros Hv. destruct (Hdel _ Hv eq_refl) as (H1 & _). exact H1.
  - intros v Hv Hne. rewrite (Hbad v Hv (Hrej v Hv Hne)). cbn [fst snd].
    split; [reflexivity|]. split; [exists 1; split; [reflexivity | discriminate]|].
    repeat split; reflexivity.
  - intros Hv. destruct (Hnone Hv) as (H1 & H2 & _).
    split; [exact H1|]. apply H2. discriminate.
  - intros Hv. destruct (Hdel _ Hv eq_refl) as (_ & _ & H3). apply H3. reflexivity.
Qed.

Lemma C5_witness :
  fst (run (libc := bst_impl) mistyped_world) = Val 1 /\
  files (snd (run (libc := bst_impl) mistyped_world)) = w_files mistyped_world.
Proof.
  assert (Hnul : forall v, getenv mistyped_world "DENTLS_DELETE" = Some v -> nul_free v = true).
  { intros v Hv. injection Hv as <-. reflexivity. }
  destruct (C5_mode_selector (libc := bst_impl) mistyped_world
              good_args_delete_world Hnul) as (_ & H & _).
  destruct (H "Delete"%string eq_refl) as (H1 & _ & _ & _ & H5); [discriminate|].
  split; [exact H1 | exact H5].
Defined.

(** C6. Usage errors.  When the path argument is missing, or begins with
    a dash, or does not begin with "/", the run writes guidance on the
    secondary stream and nothing else, makes no system call, leaves the
    directory as it was, and ends with a non-zero status: [exit(1)] for a
    missing argument, [return -1] with the usage text otherwise. *)
Theorem C6_usage_rejection {libc : search_impl} (w : world) :
  (List.length (argv w) < 2)%nat \/
  first_char (nth 1 (argv w) EmptyString) = "-"%char \/
  first_char (nth 1 (argv w) EmptyString) <> "/"%char ->
  exits_nonzero (fst (run w)) /\
  trace (snd (run w)) <> [] /\
  forallb is_stderr (trace (snd (run w))) = true /\
  files (snd (run w)) = w_files w /\
  heap (snd (run w)) = [] /\
  ((List.length (argv w) < 2)%nat ->
   fst (run w) = Exit 1 /\
   trace (snd (run w)) = [Stderr "You must supply a valid directory path.\n" []]) /\
  ((2 <= List.length (argv w))%nat ->
   fst (run w) = Val (-1) /\
   trace (snd (run w))
   = [Stderr "Usage: %s <directory>\n" [AStr (nth 0 (argv w) EmptyString)];
      Stderr "  For safety, <directory> must be fully-qualified (i.e., start with /).\n" [];
      Stderr "  Env: Set DENTLS_DELETE=delete to delete instead of print.\n" [];
      Stderr "  Env: Set DENTLS_PROGRESS to show progress on stderr.\n" []]).
Proof.
  intros H. unfold run, main.
  destruct (Z.ltb_spec (Z.of_nat (List.length (argv w))) 2) as [Hlt|Hge].
  - cbn. split; [exists 1; split; [reflexivity | discriminate]|].
    split; [discriminate|]. split; [reflexivity|]. split; [reflexivity|].
    split; [reflexivity|]. split; intros Hx; [split; reflexivity | lia].
  - assert (Hc : Ascii.eqb (first_char (nth 1 (argv w) EmptyString)) "-"
                 || negb (Ascii.eqb (first_char (nth 1 (argv w) EmptyString)) "/") = true).
    { destruct H as [H|[H|H]]; [lia | |].
      - rewrite H. reflexivity.
      - apply orb_true_iff. right. apply negb_true_iff. now apply Ascii.eqb_neq. }
    rewrite Hc. cbn. split; [exists 255; split; [reflexivity | discriminate]|].
    split; [discriminate|]. split; [reflexivity|]. split; [reflexivity|].
    split; [reflexivity|]. split; intros Hx; [lia | split; reflexivity].
Qed.

Lemma C6_witness :
  exits_nonzero (fst (run (libc := bst_impl) usage_world)) /\
  files (snd (run (libc := bst_impl) usage_world)) = w_files usage_world.
Proof.
  destruct (C6_usage_rejection (libc := bst_impl) usage_world) as (H1 & _ & _ & H4 & _).
  - right. right. discriminate.
  - split; [exact H1 | exact H4].
Defined.

(** ** Two runs in report mode over the same answers of the kernel *)

Section Simulation.

Context {libc : search_impl}.

Lemma fails_exit {A} st : fails (@exit libc A st).
Proof. intros s a s' H. discriminate. Qed.

Lemma fails_hang {A} : fails (@hang libc A).
Proof. intros s a s' H. discriminate. Qed.

Lemma fails_bind_r {A B} (m : M A) (k : A -> M B) :
  (forall a, fails (k a)) -> fails (bind m k).
Proof.
  intros Hk s b s'' H. apply bind_inv in H as (a & s' & _ & H). exact (Hk a _ _ _ H).
Qed.

Lemma sim_fails_l {A} (V : A -> A -> Prop) (m1 m2 : M A) : fails m1 -> sim_run V m1 m2.
Proof. intros H s1 s2 _ a1 s1' a2 s2' E1 _. destruct (H _ _ _ E1). Qed.

Lemma sim_fails_r {A} (V : A -> A -> Prop) (m1 m2 : M A) : fails m2 -> sim_run V m1 m2.
Proof. intros H s1 s2 _ a1 s1' a2 s2' _ E2. destruct (H _ _ _ E2). Qed.

Lemma sim_ret {A} (V : A -> A -> Prop) a1 a2 : V a1 a2 -> sim_run V (ret a1) (ret a2).
Proof.
  intros H s1 s2 Hs b1 s1' b2 s2' E1 E2. injection E1 as <- <-. injection E2 as <- <-.
  now split.
Qed.

Lemma sim_bind {A B} (V : A -> A -> Prop) (W : B -> B -> Prop)
    (m1 m2 : M A) (k1 k2 : A -> M B) :
  sim_run V m1 m2 -> (forall a1 a2, V a1 a2 -> sim_run W (k1 a1) (k2 a2)) ->
  sim_run W (bind m1 k1) (bind m2 k2).
Proof.
  intros Hm Hk s1 s2 Hs b1 s1'' b2 s2'' E1 E2.
  apply bind_inv in E1 as (a1 & s1' & E1 & K1).
  apply bind_inv in E2 as (a2 & s2' & E2 & K2).
  destruct (Hm s1 s2 Hs a1 s1' a2 s2' E1 E2) as [HV Hs'].
  exact (Hk a1 a2 HV s1' s2' Hs' b1 s1'' b2 s2'' K1 K2).
Qed.

Lemma sim_same_view s1 s2 s1' s2' :
  sim s1 s2 -> same_view s1 s1' -> same_view s2 s2' -> sim s1' s2'.
Proof.
  intros (A1 & A2 & A3 & A4 & A5) (B1 & B2 & B3 & B4) (C1 & C2 & C3 & C4).
  unfold sim. repeat split; congruence.
Qed.

Lemma sim_inert {A} (m1 m2 : M A) :
  preserves same_view m1 -> preserves same_view m2 ->
  sim_run (fun _ _ => True) m1 m2.
Proof.
  intros H1 H2 s1 s2 Hs a1 s1' a2 s2' E1 E2. split; [exact I|].
  specialize (H1 s1). specialize (H2 s2). rewrite E1 in H1. rewrite E2 in H2.
  eapply sim_same_view; eassumption.
Qed.

Lemma sim_gets {A} (V : A -> A -> Prop) (f : state -> A) :
  (forall s1 s2, sim s1 s2 -> V (f s1) (f s2)) -> sim_run V (gets f) (gets f).
Proof.
  intros H s1 s2 Hs a1 s1' a2 s2' E1 E2. injection E1 as <- <-. injection E2 as <- <-.
  split; [now apply H | assumption].
Qed.

Lemma sim_modify (f1 f2 : state -> state) :
  (forall s1 s2, sim s1 s2 -> sim (f1 s1) (f2 s2)) ->
  sim_run (fun _ _ => True) (modify f1) (modify f2).
Proof.
  intros H s1 s2 Hs a1 s1' a2 s2' E1 E2. injection E1 as <- <-. injection E2 as <- <-.
  split; [exact I | now apply H].
Qed.

Lemma sim_if {A} (V : A -> A -> Prop) (c : bool) (a1 b1 a2 b2 : M A) :
  sim_run V a1 a2 -> sim_run V b1 b2 ->
  sim_run V (if c then a1 else b1) (if c then a2 else b2).
Proof. destruct c; auto. Qed.

Lemma sim_if_fail {A} (V : A -> A -> Prop) (c1 c2 : bool) (f1 f2 k1 k2 : M A) :
  fails f1 -> fails f2 -> sim_run V k1 k2 ->
  sim_run V (if c1 then f1 else k1) (if c2 then f2 else k2).
Proof.
  intros F1 F2 H. destruct c1; [now apply sim_fails_l|].
  destruct c2; [now apply sim_fails_r | exact H].
Qed.

Lemma fails_perror_exit {A} msg st : fails (perror msg ;; @exit libc A st).
Proof. apply fails_bind_r. intros _. apply fails_exit. Qed.

Lemma fails_fprintf_exit {A} fmt args st :
  fails (fprintf_stderr fmt args ;; @exit libc A st).
Proof. apply fails_bind_r. intros _. apply fails_exit. Qed.

Variables w1 w2 : world.

Ltac state_fields :=
  cbn [delete_count show_progress print_only tree_root heap errno allocs files trace
       set_delete_count set_show_progress set_print_only set_tree_root set_heap
       set_errno set_allocs set_files emit_event].

Lemma sim_malloc_then {B} (W : B -> B -> Prop) sz1 sz2 (f1 f2 : M B) (k1 k2 : nat -> M B) :
  fails f1 -> fails f2 -> (forall b, sim_run W (k1 b) (k2 b)) ->
  sim_run W (p <- malloc w1 sz1 ;; match p with Some b => k1 b | None => f1 end)
            (p <- malloc w2 sz2 ;; match p with Some b => k2 b | None => f2 end).
Proof.
  intros F1 F2 Hk s1 s2 Hs a1 s1' a2 s2' E1 E2.
  unfold malloc, alloc_request, bind, gets, modify, ret in E1, E2.
  state_fields.
  destruct (w_malloc w1 (allocs s1)); [|destruct (F1 _ _ _ E1)].
  destruct (w_malloc w2 (allocs s2)); [|destruct (F2 _ _ _ E2)].
  cbn [heap set_allocs] in E1, E2.
  destruct Hs as (A1 & A2 & A3 & A4 & A5). rewrite A1 in E1.
  refine (Hk _ _ _ _ _ _ _ _ E1 E2).
  unfold sim. state_fields. rewrite ?A1. repeat split; assumption.
Qed.

Lemma sim_tsearch_then {B} (W : B -> B -> Prop) key (f1 f2 k1 k2 : M B) :
  fails f1 -> fails f2 -> sim_run W k1 k2 ->
  sim_run W (found <- tsearch w1 key ;; if negb found then f1 else k1)
            (found <- tsearch w2 key ;; if negb found then f2 else k2).
Proof.
  intros F1 F2 Hk s1 s2 Hs a1 s1' a2 s2' E1 E2.
  destruct Hs as (A1 & A2 & A3 & A4 & A5).
  unfold tsearch, alloc_request, bind, gets, modify, ret in E1, E2.
  rewrite A1, A2 in E1.
  destruct (tmember (compare_fnames (heap s2)) key (view (tree_root s2))).
  - cbn [negb] in E1, E2. refine (Hk _ _ _ _ _ _ _ E1 E2).
    unfold sim. state_fields. repeat split; assumption.
  - state_fields.
    destruct (w_malloc w1 (allocs s1)); [|destruct (F1 _ _ _ E1)].
    destruct (w_malloc w2 (allocs s2)); [|destruct (F2 _ _ _ E2)].
    cbn [negb] in E1, E2. refine (Hk _ _ _ _ _ _ _ E1 E2).
    unfold sim. state_fields. repeat split; assumption.
Qed.

Lemma sim_prepend head data :
  sim_run eq (linked_list_prepend_override w1 (Some head) data)
             (linked_list_prepend_override w2 (Some head) data).
Proof.
  intros s1 s2 Hs a1 s1' a2 s2' E1 E2.
  destruct Hs as (A1 & A2 & A3 & A4 & A5).
  unfold linked_list_prepend_override, alloc_request, perror, emit, exit, bind, gets,
    modify, ret in E1, E2.
  destruct (w_malloc w1 (allocs s1)); [|discriminate].
  destruct (w_malloc w2 (allocs s2)); [|discriminate].
  injection E1 as <- <-. injection E2 as <- <-.
  split; [reflexivity|]. unfold sim. state_fields. repeat split; assumption.
Qed.

Lemma sim_getdents answer fd1 fd2 buffer sz1 sz2 :
  sim_run eq (getdents answer fd1 buffer sz1) (getdents answer fd2 buffer sz2).
Proof.
  intros s1 s2 Hs a1 s1' a2 s2' E1 E2.
  destruct Hs as (A1 & A2 & A3 & A4 & A5).
  unfold getdents, fail_with, emit, bind, gets, modify, ret in E1, E2.
  destruct answer as [bytes|e]; injection E1 as <- <-; injection E2 as <- <-;
    (split; [reflexivity|]); unfold sim; state_fields;
    unfold stdout_of in *; rewrite !filter_app, A1, A5; cbn [filter is_stdout];
    repeat split; assumption || reflexivity.
Qed.

Lemma sim_scan_buffer fuel : forall buffer offset bufcount totalfiles,
  sim_run eq (scan_buffer w1 fuel buffer offset bufcount totalfiles)
             (scan_buffer w2 fuel buffer offset bufcount totalfiles).
Proof.
  induction fuel as [|fuel IH]; intros buffer offset bufcount totalfiles;
    cbn [scan_buffer]; (apply sim_if; [|now apply sim_ret]).
  - apply sim_fails_l, fails_hang.
  - eapply sim_bind with (V := eq).
    { apply sim_gets. intros s1 s2 Hs. apply Hs. }
    intros h ? <-. cbv zeta.
    eapply sim_bind with (V := eq); [|intros t ? <-; apply IH].
    apply sim_if; [|now apply sim_ret].
    apply sim_if; [|now apply sim_ret].
    apply sim_tsearch_then; try apply fails_fprintf_exit. now apply sim_ret.
Qed.

Lemma sim_read_directory answers : forall fd1 fd2 sz1 sz2 buffer totalfiles bufs,
  sim_run eq (read_directory w1 answers fd1 sz1 buffer totalfiles bufs)
             (read_directory w2 answers fd2 sz2 buffer totalfiles bufs).
Proof.
  induction answers as [|a answers IH]; intros fd1 fd2 sz1 sz2 buffer totalfiles bufs;
    cbn [read_directory].
  - eapply sim_bind; [apply sim_getdents|]. intros n ? <-. now apply sim_ret.
  - eapply sim_bind; [apply sim_getdents|]. intros n ? <-. cbv zeta.
    apply sim_if; [now apply sim_ret|].
    apply sim_if; [apply sim_fails_l, fails_perror_exit|].
    eapply sim_bind; [apply sim_scan_buffer|]. intros t ? <-.
    apply sim_malloc_then; try apply fails_perror_exit.
    intros b. eapply sim_bind; [apply sim_prepend|]. intros bufs' ? <-. apply IH.
Qed.

Lemma stdout_of_actions tr : stdout_of (actions tr) = stdout_of tr.
Proof.
  unfold stdout_of, actions. induction tr as [|e tr IH]; [reflexivity|].
  cbn [filter]. destruct (progress_event e) eqn:E; cbn [negb filter].
  - rewrite IH. destruct e; try discriminate; reflexivity.
  - now rewrite IH.
Qed.

Lemma sim_twalk root :
  sim_run eq (twalk root (walk_tree w1)) (twalk root (walk_tree w2)).
Proof.
  intros s1 s2 Hs a1 s1' a2 s2' E1 E2.
  destruct Hs as (A1 & A2 & A3 & A4 & A5).
  assert (A4' : print_only s2 <> 0) by congruence.
  unfold twalk in E1, E2. rewrite twalk_rec_visit in E1, E2.
  destruct (visit_all_print w1 (endorder_keys (view root)) s1 A4)
    as (t1 & R1 & F1 & _ & _ & evs1 & T1 & C1).
  destruct (visit_all_print w2 (endorder_keys (view root)) s2 A4')
    as (t2 & R2 & F2 & _ & _ & evs2 & T2 & C2).
  rewrite R1 in E1. rewrite R2 in E2.
  injection E1 as <- <-. injection E2 as <- <-.
  split; [reflexivity|]. unfold sim.
  rewrite (wf_heap _ _ F1), (wf_heap _ _ F2), (wf_tree_root _ _ F1), (wf_tree_root _ _ F2),
          (wf_print_only _ _ F1), (wf_print_only _ _ F2).
  repeat split; try assumption.
  rewrite T1, T2. unfold stdout_of in *. rewrite !filter_app, A5. f_equal.
  fold (stdout_of evs1). fold (stdout_of evs2).
  rewrite <- (stdout_of_actions evs1), <- (stdout_of_actions evs2), C1, C2, A1.
  reflexivity.
Qed.

Lemma sim_free_linked_list head :
  sim_run (fun _ _ => True) (free_linked_list head) (free_linked_list head).
Proof.
  induction head as [|a head IH]; cbn [free_linked_list].
  - now apply sim_ret.
  - eapply sim_bind; [|intros _ _ _; exact IH].
    unfold free. eapply sim_bind with (V := eq).
    + apply sim_gets. intros s1 s2 Hs. apply Hs.
    + intros h ? <-. apply sim_modify. intros s1 s2 (A1 & A2 & A3 & A4 & A5).
      unfold sim. state_fields. repeat split; assumption.
Qed.

(** Two runs that both return 0, in report mode, over the same answers. *)
Lemma sim_main :
  getenv w1 "DENTLS_DELETE" = None -> getenv w2 "DENTLS_DELETE" = None ->
  w_getdents w1 = w_getdents w2 ->
  forall s1' s2',
    main w1 (init_state w1) = (Val 0, s1') -> main w2 (init_state w2) = (Val 0, s2') ->
    sim s1' s2'.
Proof.
  intros M1 M2 Hans s1' s2' E1 E2.
  unfold main in E1, E2. rewrite M1 in E1. rewrite M2 in E2. rewrite Hans in E1.
  destruct (Z.of_nat (List.length (argv w1)) <? 2); [discriminate|].
  destruct (Z.of_nat (List.length (argv w2)) <? 2); [discriminate|].
  destruct (Ascii.eqb (first_char (nth 1 (argv w1) EmptyString)) "-"
            || negb (Ascii.eqb (first_char (nth 1 (argv w1) EmptyString)) "/"));
    [discriminate|].
  destruct (Ascii.eqb (first_char (nth 1 (argv w2) EmptyString)) "-"
            || negb (Ascii.eqb (first_char (nth 1 (argv w2) EmptyString)) "/"));
    [discriminate|].
  cbv zeta in E1, E2.
  assert (Hinit : sim (init_state w1) (init_state w2)).
  { unfold sim, init_state. cbn. repeat split; discriminate || reflexivity. }
  match type of E1 with
  | ?m1 _ = _ =>
      match type of E2 with
      | ?m2 _ = _ =>
          enough (Hsim : sim_run eq m1 m2)
            by exact (proj2 (Hsim _ _ Hinit _ _ _ _ E1 E2))
      end
  end.
  eapply sim_bind; [apply sim_inert; apply inert_progress_env|]. intros _ _ _.
  eapply sim_bind; [apply sim_inert; apply inert_access|]. intros rc1 rc2 _.
  apply sim_if_fail; try apply fails_perror_exit.
  eapply sim_bind; [apply sim_inert; apply inert_lstat|]. intros r1 r2 _.
  apply sim_if_fail; try apply fails_perror_exit.
  apply sim_if_fail; try apply fails_fprintf_exit.
  apply sim_malloc_then; try apply fails_perror_exit. intros buffer.
  eapply sim_bind; [apply sim_prepend|]. intros bufs ? <-.
  eapply sim_bind; [apply sim_inert; apply inert_open|]. intros fd1 fd2 _.
  apply sim_if_fail; try apply fails_perror_exit.
  eapply sim_bind; [apply sim_inert; apply inert_fchdir|]. intros rc1' rc2' _.
  apply sim_if_fail; try apply fails_perror_exit.
  eapply sim_bind; [apply sim_read_directory|]. intros r ? <-.
  eapply sim_bind; [apply sim_inert; apply inert_fprintf|]. intros _ _ _.
  eapply sim_bind with (V := fun _ _ => True).
  { apply sim_gets. intros; exact I. }
  intros po1 po2 _.
  eapply sim_bind; [apply sim_inert; apply inert_fprintf|]. intros _ _ _.
  eapply sim_bind with (V := eq).
  { apply sim_gets. intros s1 s2 Hs. apply Hs. }
  intros t ? <-.
  eapply sim_bind; [apply sim_twalk|]. intros _ _ _.
  eapply sim_bind; [apply sim_inert; apply inert_fprintf|]. intros _ _ _.
  eapply sim_bind; [apply sim_inert; apply inert_close|]. intros _ _ _.
  eapply sim_bind; [apply sim_free_linked_list|]. intros _ _ _.
  eapply sim_bind with (V := fun _ _ => True); [now apply sim_ret|]. intros _ _ _.
  now apply sim_ret.
Qed.

End Simulation.

(** C9. Report mode is deterministic in the directory records: two runs in
    report mode that both return 0 and were given the same answers by the
    successive [getdents] calls write the same primary output stream,
    whatever else differs between them (arguments and path, results of the
    checks, sizes, descriptors, progress reporting, directory content as
    [unlink] would see it). *)
Theorem C9_report_deterministic {libc : search_impl} (w1 w2 : world) :
  getenv w1 "DENTLS_DELETE" = None -> getenv w2 "DENTLS_DELETE" = None ->
  w_getdents w1 = w_getdents w2 ->
  fst (run w1) = Val 0 -> fst (run w2) = Val 0 ->
  stdout_of (trace (snd (run w1))) = stdout_of (trace (snd (run w2))).
Proof.
  intros M1 M2 Hans R1 R2. unfold run in *.
  destruct (main w1 (init_state w1)) as [r1 s1] eqn:E1.
  destruct (main w2 (init_state w2)) as [r2 s2] eqn:E2.
  cbn [fst snd] in *. subst r1 r2.
  apply (sim_main w1 w2 M1 M2 Hans s1 s2 E1 E2).
Qed.

Lemma C9_witness :
  stdout_of (trace (snd (run (libc := bst_impl) report_world)))
  = stdout_of (trace (snd (run (libc := bst_impl) other_report_world))).
Proof.
  exact (C9_report_deterministic (libc := bst_impl) report_world other_report_world
           eq_refl eq_refl eq_refl eq_refl eq_refl).
Defined.

(** * Further properties of the code *)

(** X1. [compare_fnames] orders key pointers by the names they point to:
    it gives 0 exactly for equal names, whatever buffers hold them; its
    sign flips when the arguments are swapped; "less than" is transitive;
    and the result depends on the two names only. *)
Theorem X1_compare_fnames_order (h : heap_t) :
  (forall p q, compare_fnames h p q = 0 <-> name_at h p = name_at h q) /\
  (forall p q, Z.sgn (compare_fnames h p q) = - Z.sgn (compare_fnames h q p)) /\
  (forall p q r, compare_fnames h p q < 0 -> compare_fnames h q r < 0 ->
                 compare_fnames h p r < 0) /\
  (forall h' p q p' q',
     name_at h p = name_at h' p' -> name_at h q = name_at h' q' ->
     compare_fnames h p q = compare_fnames h' p' q').
Proof.
  split; [|split; [|split]].
  - intros p q. unfold compare_fnames. split.
    + apply strcmp_eq; apply name_at_nul_free.
    + intros ->. apply strcmp_refl.
  - intros p q. apply strcmp_antisym.
  - intros p q r H1 H2.
    apply (cmp_lt_le_trans _ (compare_fnames_order h) p q r); lia.
  - intros h' p q p' q' Hp Hq. unfold compare_fnames. now rewrite Hp, Hq.
Qed.

Section ScanTrailing.

Context {libc : search_impl}.
Hypothesis libc_ok : search_ok libc.
Variable w : world.
Hypothesis malloc_ok : forall n, w_malloc w n = true.

(** The inner loop over a buffer that holds the records [rs] from the
    cursor on, followed by any bytes [rest] beyond [bufcount]. *)
Lemma scan_buffer_trailing buffer rs rest : forall pre fuel tot s bufcount,
  forallb wf_dirent rs = true ->
  block_at (heap s) buffer = pre ++ encode_batch rs ++ rest ->
  bufcount = Z.of_nat (List.length (pre ++ encode_batch rs)) ->
  bufcount < 2147483648 ->
  (List.length rs <= fuel)%nat ->
  index_inv s buffer ->
  exists s',
    scan_buffer w fuel buffer (Z.of_nat (List.length pre)) bufcount tot s
      = (Val (bump (List.length (filter wanted rs)) tot), s') /\
    frame s s' /\ index_inv s' buffer /\
    forall n, In n (names_of s') <-> In n (names_of s) \/ In n (wanted_names rs).
Proof.
  induction rs as [|r rs IH]; intros pre fuel tot s bufcount Hwf Hblk Hbc Hlt Hfuel Hinv.
  - exists s. rewrite app_nil_r in Hbc. subst bufcount.
    destruct fuel; cbn [scan_buffer]; rewrite Z.ltb_irrefl;
      (split; [reflexivity|]; split; [apply frame_refl|]; split; [assumption|];
       intros n; simpl; tauto).
  - cbn [forallb] in Hwf. apply andb_prop in Hwf as [Hr Hrs].
    destruct fuel as [|fuel]; [simpl in Hfuel; lia|].
    rewrite encode_batch_cons in Hblk, Hbc. rewrite <- app_assoc in Hblk.
    pose proof (encode_dirent_length r) as Hlen.
    pose proof (reclen_bounds r Hr) as Hrec.
    assert (Hoff : Z.of_nat (List.length pre) + reclen_of r
                   = Z.of_nat (List.length (pre ++ encode_dirent r))).
    { rewrite length_app. lia. }
    assert (Hin : Z.of_nat (List.length pre) < bufcount).
    { subst bufcount. rewrite !length_app. lia. }
    assert (Hnext : wrap_int (Z.of_nat (List.length pre) + reclen_of r)
                    = Z.of_nat (List.length (pre ++ encode_dirent r))).
    { rewrite wrap_int_small; [exact Hoff|].
      subst bufcount. rewrite !length_app in *. lia. }
    cbn [scan_buffer]. apply Z.ltb_lt in Hin. rewrite Hin.
    unfold bind at 1. unfold gets at 1. cbv zeta. rewrite Hblk.
    rewrite (decode_name pre (encode_batch rs ++ rest) r Hr).
    rewrite (decode_reclen pre (encode_batch rs ++ rest) r Hr).
    rewrite (decode_type pre (encode_batch rs ++ rest) r Hr).
    rewrite (dot_test r Hr), Hnext.
    change (uchar (d_type r) =? DT_REG) with (is_regular r).
    assert (Hblk' : block_at (heap s) buffer
                    = (pre ++ encode_dirent r) ++ encode_batch rs ++ rest)
      by (rewrite Hblk, <- app_assoc; reflexivity).
    assert (Hbc' : bufcount
                   = Z.of_nat (List.length ((pre ++ encode_dirent r) ++ encode_batch rs)))
      by (rewrite Hbc, app_assoc; reflexivity).
    assert (Hfuel' : (List.length rs <= fuel)%nat) by (simpl in Hfuel; lia).
    unfold wanted_names. cbn [filter].
    destruct (is_dot r) eqn:Edot; cbn [negb andb].
    + assert (Hw : wanted r = false) by (unfold wanted; rewrite Edot; reflexivity).
      rewrite Hw. unfold bind at 1, ret at 1.
      destruct (IH _ fuel tot s bufcount Hrs Hblk' Hbc' Hlt Hfuel' Hinv)
        as (s' & R & F & I & N).
      exists s'. split; [exact R|]. split; [exact F|]. split; [exact I|]. exact N.
    + destruct (is_regular r) eqn:Ereg.
      * assert (Hw : wanted r = true) by (unfold wanted; rewrite Edot, Ereg; reflexivity).
        rewrite Hw.
        destruct (tsearch_spec libc_ok w malloc_ok
                    (buffer, d_name_of (Z.of_nat (List.length pre))) s buffer
                    Hinv (Nat.le_refl _)) as (s1 & R1 & F1 & I1 & N1).
        unfold name_at in N1. cbn [fst snd] in N1.
        rewrite Hblk, (decode_name pre (encode_batch rs ++ rest) r Hr) in N1.
        unfold bind at 1. unfold bind at 1. rewrite R1. cbn [negb]. unfold ret at 1.
        rewrite <- (fr_heap _ _ F1) in Hblk'.
        destruct (IH _ fuel (wrap_int (tot + 1)) s1 bufcount Hrs Hblk' Hbc' Hlt Hfuel' I1)
          as (s' & R & F & I & N).
        exists s'. cbn [List.length bump]. split; [exact R|].
        split; [eapply frame_trans; eassumption|]. split; [exact I|].
        intros n. rewrite N, N1. cbn [map In]. unfold wanted_names.
        split; intros H; intuition (subst; auto).
      * assert (Hw : wanted r = false) by (unfold wanted; rewrite Edot, Ereg; reflexivity).
        rewrite Hw. unfold bind at 1, ret at 1.
        destruct (IH _ fuel tot s bufcount Hrs Hblk' Hbc' Hlt Hfuel' Hinv)
          as (s' & R & F & I & N).
        exists s'. split; [exact R|]. split; [exact F|]. split; [exact I|]. exact N.
Qed.

End ScanTrailing.

(** X2. Round trip of the record layout through the inner loop of
    [main].  When the buffer holds well-formed records, [bufcount] bytes
    of them, the loop run as [main] runs it returns; it has counted one
    for each regular file other than the dot entries, the index holds the
    names it held plus exactly the [d_name] of these records, and the
    heap and the trace are as before.  What lies in the buffer behind the
    [bufcount] bytes plays no part. *)
Theorem X2_records_round_trip {libc : search_impl} (w : world) (buffer : nat)
    (rs : list dirent) (rest : list ascii) (totalfiles : Z) (s : state) :
  search_ok libc -> (forall n, w_malloc w n = true) ->
  forallb wf_dirent rs = true ->
  Z.of_nat (List.length (encode_batch rs)) < 2147483648 ->
  block_at (heap s) buffer = encode_batch rs ++ rest ->
  index_inv s buffer ->
  exists s',
    scan_buffer w (Z.to_nat (Z.of_nat (List.length (encode_batch rs)))) buffer 0
                (Z.of_nat (List.length (encode_batch rs))) totalfiles s
    = (Val (bump (List.length (filter wanted rs)) totalfiles), s') /\
    heap s' = heap s /\ trace s' = trace s /\
    NoDup (names_of s') /\
    forall n, In n (names_of s') <-> In n (names_of s) \/ In n (wanted_names rs).
Proof.
  intros Hlibc Hm Hwf Hsz Hblk Hinv.
  destruct (scan_buffer_trailing Hlibc w Hm buffer rs rest []
              (Z.to_nat (Z.of_nat (List.length (encode_batch rs)))) totalfiles s
              (Z.of_nat (List.length (encode_batch rs))) Hwf Hblk eq_refl Hsz)
    as (s' & R & F & I & N); [|exact Hinv|].
  { rewrite Nat2Z.id. apply encode_batch_length_ge. }
  exists s'. split; [exact R|]. split; [apply (fr_heap _ _ F)|].
  split; [apply (fr_trace _ _ F)|]. split; [apply I | exact N].
Qed.

Lemma X2_witness :
  exists s',
    scan_buffer (libc := bst_impl) report_world
      (Z.to_nat (Z.of_nat (List.length (encode_batch (List.concat example_batches))))) 0 0
      (Z.of_nat (List.length (encode_batch (List.concat example_batches)))) 0
      trailing_buffer_state
    = (Val (bump (List.length (filter wanted (List.concat example_batches))) 0), s') /\
    heap s' = heap trailing_buffer_state /\ trace s' = trace trailing_buffer_state /\
    NoDup (names_of s') /\
    forall n, In n (names_of s') <->
              In n (names_of trailing_buffer_state)
              \/ In n (wanted_names (List.concat example_batches)).
Proof.
  apply (X2_records_round_trip (libc := bst_impl) report_world 0
           (List.concat example_batches) [NUL; NUL] 0 trailing_buffer_state bst_impl_ok).
  - reflexivity.
  - reflexivity.
  - vm_compute. reflexivity.
  - reflexivity.
  - unfold index_inv. simpl. repeat split; constructor.
Defined.

Lemma heap_free_other h : forall a b,
  b <> a -> nth_error (heap_free h a) b = nth_error h b.
Proof.
  induction h as [|x h IH]; intros [|a] [|b] H; simpl; try reflexivity;
    try congruence.
  apply IH. congruence.
Qed.

Lemma free_all_other bufs : forall h b,
  ~ In b bufs -> nth_error (fold_left heap_free bufs h) b = nth_error h b.
Proof.
  induction bufs as [|a bufs IH]; intros h b H; [reflexivity|].
  cbn [fold_left]. rewrite IH by (intros Hb; apply H; now right).
  apply heap_free_other. intros ->. apply H. now left.
Qed.

Section ReadingTurn.

Context {libc : search_impl}.
Hypothesis libc_ok : search_ok libc.
Variable w : world.
Hypothesis malloc_ok : forall n, w_malloc w n = true.

Ltac state_fields :=
  cbn [delete_count show_progress print_only tree_root heap errno allocs files trace
       set_delete_count set_show_progress set_print_only set_tree_root set_heap
       set_errno set_allocs set_files emit_event].

(** One turn of the outer loop of [main] on a batch of records: what the
    next turn starts from. *)
Lemma read_turn b later dirfd size buffer tot bufs s :
  wf_batch b = true -> loop_inv s buffer ->
  exists s',
    read_directory w (answer_of b :: later) dirfd size buffer tot bufs s
    = read_directory w later dirfd size (S buffer)
        (bump (List.length (filter wanted b)) tot) (S buffer :: bufs) s' /\
    loop_inv s' (S buffer) /\
    heap s' = heap_store (heap s) buffer (encode_batch b) ++ [Some []] /\
    forall n, In n (names_of s') <-> In n (names_of s) \/ In n (wanted_names b).
Proof.
  intros Hb Hinv.
  destruct (wf_batch_inv b Hb) as (Hne & Hrs & Hsz).
  pose proof (encode_batch_length_ge b) as Hge.
  pose proof (encode_batch_nonempty b Hne) as Hpos.
  destruct Hinv as (Hlen & Hbst & Hnd & Hkeys).
  cbn [read_directory]. unfold answer_of at 1.
  rewrite (bind_val _ _ _ _ _ (getdents_ok _ _ _ _ _)). cbv zeta.
  rewrite wrap_int_small by lia.
  destruct (Z.eqb_spec (Z.of_nat (List.length (encode_batch b))) 0) as [E0|_]; [lia|].
  destruct (Z.eqb_spec (Z.of_nat (List.length (encode_batch b))) (-1)) as [E1|_]; [lia|].
  set (s1 := set_heap (heap_store (heap s) buffer (encode_batch b))
                      (emit_event (getdents_event dirfd size buffer) s)).
  assert (Hext1 : forall k, In k (inorder (view (tree_root s))) ->
                            name_at (heap s1) k = name_at (heap s) k).
  { intros k Hk. unfold s1. state_fields. apply name_at_store_other.
    rewrite Forall_forall in Hkeys. specialize (Hkeys k Hk). lia. }
  destruct (index_heap_ext s s1 eq_refl Hext1) as [Hn1 Hb1].
  assert (Hinv1 : index_inv s1 buffer).
  { split; [auto|]. split; [now rewrite Hn1|].
    eapply Forall_impl; [|exact Hkeys]. cbv beta. intros; lia. }
  assert (Hblk1 : block_at (heap s1) buffer = [] ++ encode_batch b).
  { unfold s1. state_fields. apply block_at_store_same. lia. }
  destruct (scan_buffer_spec libc_ok w malloc_ok buffer b []
              (Z.to_nat (Z.of_nat (List.length (encode_batch b))))
              tot s1 (Z.of_nat (List.length (encode_batch b))) Hrs Hblk1 eq_refl Hsz)
    as (s2 & R2 & F2 & I2 & N2); [|exact Hinv1|].
  { rewrite Nat2Z.id. exact Hge. }
  change (Z.of_nat (List.length (@nil ascii))) with 0 in R2.
  rewrite (bind_val _ _ _ _ _ R2).
  rewrite (bind_val _ _ _ _ _ (malloc_ok_eq w malloc_ok _ _)).
  rewrite (bind_val _ _ _ _ _ (prepend_ok w malloc_ok _ _ _)).
  set (s4 := set_allocs _ (set_heap _ (set_allocs _ s2))).
  assert (Hh2 : heap s2 = heap_store (heap s) buffer (encode_batch b))
    by (rewrite (fr_heap _ _ F2); reflexivity).
  assert (Hlen2 : List.length (heap s2) = S buffer)
    by (rewrite Hh2, heap_store_length; lia).
  destruct I2 as (Hb2 & Hnd2 & Hk2).
  assert (Hext4 : forall k, In k (inorder (view (tree_root s2))) ->
                            name_at (heap s4) k = name_at (heap s2) k).
  { intros k Hk. unfold s4. state_fields. apply name_at_grow.
    rewrite Forall_forall in Hk2. specialize (Hk2 k Hk). lia. }
  destruct (index_heap_ext s2 s4 eq_refl Hext4) as [Hn4 Hb4].
  exists s4. rewrite Hlen2. split; [reflexivity|]. split.
  { split; [unfold s4; state_fields; rewrite length_app; simpl; lia|].
    split; [auto|]. split; [now rewrite Hn4|].
    eapply Forall_impl; [|exact Hk2]. cbv beta. intros; lia. }
  split; [unfold s4; state_fields; now rewrite Hh2|].
  intros n. rewrite Hn4, N2, Hn1. reflexivity.
Qed.

End ReadingTurn.

(** X3. One turn of the reading loop keeps every name of the index
    readable.  From the head of the loop, with [buffer] the newest block
    and no key of the index pointing into it, a batch of well-formed
    records is read and scanned, and the loop goes on with a fresh buffer
    as its newest block, which is the one handed to the next [getdents]:
    the bytes of the batch stay in the old buffer, every pointer into an
    older buffer reads the string it read before, every key that was in
    the index reads the name it had, and each key of the index, those of
    this batch included, points below the fresh buffer. *)
Theorem X3_reading_turn_keeps_names {libc : search_impl} (w : world)
    (b : list dirent) (later : list (sysret block)) (dirfd size : Z) (buffer : nat)
    (totalfiles : Z) (bufs : list nat) (s : state) :
  search_ok libc -> (forall n, w_malloc w n = true) ->
  wf_batch b = true -> loop_inv s buffer ->
  exists s',
    read_directory w (answer_of b :: later) dirfd size buffer totalfiles bufs s
    = read_directory w later dirfd size (S buffer)
        (bump (List.length (filter wanted b)) totalfiles) (S buffer :: bufs) s' /\
    loop_inv s' (S buffer) /\
    block_at (heap s') buffer = encode_batch b /\
    (forall p, (fst p < buffer)%nat -> name_at (heap s') p = name_at (heap s) p) /\
    (forall k, In k (inorder (view (tree_root s))) ->
               name_at (heap s') k = name_at (heap s) k) /\
    (forall n, In n (names_of s') <-> In n (names_of s) \/ In n (wanted_names b)).
Proof.
  intros Hlibc Hm Hb Hinv.
  destruct (read_turn Hlibc w Hm b later dirfd size buffer totalfiles bufs s Hb Hinv)
    as (s' & R & I & H & N).
  destruct Hinv as (Hlen & _ & _ & Hkeys).
  assert (Hold : forall p, (fst p < buffer)%nat ->
                           name_at (heap s') p = name_at (heap s) p).
  { intros p Hp. rewrite H.
    rewrite name_at_grow by (rewrite heap_store_length; lia).
    apply name_at_store_other. lia. }
  exists s'. split; [exact R|]. split; [exact I|]. split.
  { rewrite H. rewrite block_at_grow by (rewrite heap_store_length; lia).
    apply block_at_store_same. lia. }
  split; [exact Hold|]. split; [|exact N].
  intros k Hk. apply Hold. rewrite Forall_forall in Hkeys. exact (Hkeys k Hk).
Qed.

Lemma X3_witness :
  exists s',
    read_directory (libc := bst_impl) report_world
      [answer_of [regular_entry "b"%string]] 5 8192 0 0 [0%nat] fresh_buffer_state
    = read_directory report_world [] 5 8192 1
        (bump (List.length (filter wanted [regular_entry "b"%string])) 0)
        [1%nat; 0%nat] s' /\
    loop_inv s' 1 /\
    block_at (heap s') 0 = encode_batch [regular_entry "b"%string] /\
    (forall p, (fst p < 0)%nat -> name_at (heap s') p = name_at (heap fresh_buffer_state) p) /\
    (forall k, In k (inorder (view (tree_root fresh_buffer_state))) ->
               name_at (heap s') k = name_at (heap fresh_buffer_state) k) /\
    (forall n, In n (names_of s') <->
               In n (names_of fresh_buffer_state)
               \/ In n (wanted_names [regular_entry "b"%string])).
Proof.
  apply (X3_reading_turn_keeps_names (libc := bst_impl) report_world
           [regular_entry "b"%string] [] 5 8192 0 0 [0%nat] fresh_buffer_state
           bst_impl_ok).
  - reflexivity.
  - reflexivity.
  - unfold loop_inv. simpl. repeat split; constructor.
Defined.

(** X4. [free_linked_list] releases exactly the blocks of the list: it
    always returns, every listed block of the heap is freed, every other
    block is as before, and nothing else of the state changes; it makes no
    system call and prints nothing. *)
Theorem X4_free_linked_list_exact {libc : search_impl} (head : list nat) (s : state) :
  exists s',
    free_linked_list head s = (Val tt, s') /\
    trace s' = trace s /\ files s' = files s /\ allocs s' = allocs s /\
    tree_root s' = tree_root s /\ delete_count s' = delete_count s /\
    List.length (heap s') = List.length (heap s) /\
    (forall a, In a head -> (a < List.length (heap s))%nat ->
               nth_error (heap s') a = Some None) /\
    (forall a, ~ In a head -> nth_error (heap s') a = nth_error (heap s) a).
Proof.
  eexists. split; [apply free_linked_list_spec|].
  destruct s; simpl. repeat (split; [reflexivity|]).
  split; [apply free_all_length|]. split.
  - intros a Ha Hlt. now apply free_all_frees.
  - intros a Ha. now apply free_all_other.
Qed.

(** ** What holds whenever a computation returns *)

Create HintDb served.

Section Hoare.

Context {libc : search_impl}.

Lemma hoare_ret {A} (P : state -> Prop) (Q : A -> state -> Prop) (a : A) :
  (forall s, P s -> Q a s) -> hoare P (ret a) Q.
Proof. intros H s Hs a' s' [= <- <-]. now apply H. Qed.

Lemma hoare_gets {A} (P : state -> Prop) (Q : A -> state -> Prop) (f : state -> A) :
  (forall s, P s -> Q (f s) s) -> hoare P (gets f) Q.
Proof. intros H s Hs a' s' [= <- <-]. now apply H. Qed.

Lemma hoare_modify (P : state -> Prop) (Q : unit -> state -> Prop) (f : state -> state) :
  (forall s, P s -> Q tt (f s)) -> hoare P (modify f) Q.
Proof. intros H s Hs a' s' [= <- <-]. now apply H. Qed.

Lemma hoare_fails {A} (P : state -> Prop) (Q : A -> state -> Prop) (m : M A) :
  fails m -> hoare P m Q.
Proof. intros F s _ a s' E. destruct (F _ _ _ E). Qed.

Lemma hoare_bind {A B} (P : state -> Prop) (R : A -> state -> Prop)
    (Q : B -> state -> Prop) (m : M A) (k : A -> M B) :
  hoare P m R -> (forall a, hoare (R a) (k a) Q) -> hoare P (bind m k) Q.
Proof.
  intros Hm Hk s Hs b s'' E. apply bind_inv in E as (a & s' & E1 & E2).
  exact (Hk a s' (Hm s Hs a s' E1) b s'' E2).
Qed.

Lemma hoare_if {A} (P : state -> Prop) (Q : A -> state -> Prop) (c : bool) (m1 m2 : M A) :
  hoare P m1 Q -> hoare P m2 Q -> hoare P (if c then m1 else m2) Q.
Proof. destruct c; auto. Qed.

End Hoare.

Section Served.

Context {libc : search_impl}.
Variable w : world.

Lemma served_bind {A B} (m : M A) (k : A -> M B) :
  hoare (served w) m (fun _ => served w) ->
  (forall a, hoare (served w) (k a) (fun _ => served w)) ->
  hoare (served w) (bind m k) (fun _ => served w).
Proof. intros Hm Hk. eapply hoare_bind; [exact Hm | exact Hk]. Qed.

Lemma served_modify (f : state -> state) :
  (forall s, allocs (f s) = allocs s) ->
  hoare (served w) (modify f) (fun _ => served w).
Proof.
  intros H. apply hoare_modify. intros s Hs n Hn. apply Hs. now rewrite <- H.
Qed.

Ltac serves :=
  repeat first
    [ solve [auto with served nocore]
    | simple apply hoare_fails;
        solve [apply fails_exit | apply fails_hang
              | apply fails_perror_exit | apply fails_fprintf_exit]
    | simple apply hoare_ret; intros ? ?; assumption
    | simple apply hoare_gets; intros ? ?; assumption
    | simple apply served_bind; [|intros ?]
    | simple apply hoare_if
    | simple apply served_modify; intros [? ? ? ? ? ? ? ? ?]; reflexivity
    | match goal with
      | |- hoare _ (match ?x with _ => _ end) _ => destruct x
      end ].

Lemma served_emit e : hoare (served w) (emit e) (fun _ => served w).
Proof. unfold emit. serves. Qed.

#[local] Hint Resolve served_emit : served.

Lemma served_fprintf fmt args :
  hoare (served w) (fprintf_stderr fmt args) (fun _ => served w).
Proof. unfold fprintf_stderr. serves. Qed.

Lemma served_printf fmt args : hoare (served w) (printf fmt args) (fun _ => served w).
Proof. unfold printf. serves. Qed.

Lemma served_perror msg : hoare (served w) (perror msg) (fun _ => served w).
Proof. unfold perror. serves. Qed.

Lemma served_fail_with e : hoare (served w) (fail_with e) (fun _ => served w).
Proof. unfold fail_with. serves. Qed.

#[local] Hint Resolve served_fprintf served_printf served_perror served_fail_with : served.

Lemma served_sleep n : hoare (served w) (sleep n) (fun _ => served w).
Proof. unfold sleep. serves. Qed.

Lemma served_fflush : hoare (served w) fflush_stderr (fun _ => served w).
Proof. unfold fflush_stderr. serves. Qed.

Lemma served_access p : hoare (served w) (access w p) (fun _ => served w).
Proof. unfold access. serves. Qed.

Lemma served_lstat p : hoare (served w) (lstat w p) (fun _ => served w).
Proof. unfold lstat. serves. Qed.

Lemma served_open p : hoare (served w) (open w p) (fun _ => served w).
Proof. unfold open. serves. Qed.

Lemma served_fchdir fd : hoare (served w) (fchdir w fd) (fun _ => served w).
Proof. unfold fchdir. serves. Qed.

Lemma served_close fd : hoare (served w) (close fd) (fun _ => served w).
Proof. unfold close. serves. Qed.

Lemma served_unlink name : hoare (served w) (unlink w name) (fun _ => served w).
Proof. unfold unlink. serves. Qed.

Lemma served_getdents answer dirfd buffer size :
  hoare (served w) (getdents answer dirfd buffer size) (fun _ => served w).
Proof. unfold getdents. serves. Qed.

#[local] Hint Resolve served_sleep served_fflush served_access served_lstat served_open
  served_fchdir served_close served_unlink served_getdents : served.

(** The one place where a request can be refused. *)
Lemma served_alloc_request :
  hoare (served w) (alloc_request w) (fun ok s' => ok = true -> served w s').
Proof.
  intros s Hs ok s' E.
  unfold alloc_request, bind, gets, modify, ret in E.
  destruct (w_malloc w (allocs s)) eqn:Hm; injection E as <- <-; [|discriminate].
  intros _ n Hn. destruct s; simpl in *.
  destruct (Nat.eq_dec n allocs0) as [->|Hne]; [exact Hm|]. apply Hs. simpl. lia.
Qed.

Lemma served_malloc_then {B} size (f : M B) (k : nat -> M B) :
  fails f -> (forall b, hoare (served w) (k b) (fun _ => served w)) ->
  hoare (served w)
        (p <- malloc w size ;; match p with Some b => k b | None => f end)
        (fun _ => served w).
Proof.
  intros F Hk.
  apply hoare_bind with (R := fun p s' => p <> None -> served w s').
  - unfold malloc.
    apply hoare_bind with (R := fun ok s' => ok = true -> served w s');
      [apply served_alloc_request|].
    intros [|].
    + intros s Hs p s' E. unfold bind, gets, modify, ret in E. injection E as <- <-.
      intros _ n Hn. apply (Hs eq_refl). destruct s; exact Hn.
    + apply hoare_ret. intros s _ H. now destruct H.
  - intros [b|]; [|now apply hoare_fails].
    intros s Hs. apply Hk. apply Hs. discriminate.
Qed.

Lemma served_prepend head data :
  hoare (served w) (linked_list_prepend_override w head data) (fun _ => served w).
Proof.
  unfold linked_list_prepend_override. destruct head as [l|].
  - apply hoare_bind with (R := fun ok s' => ok = true -> served w s');
      [apply served_alloc_request|].
    intros [|]; [|apply hoare_fails, fails_perror_exit].
    apply hoare_ret. intros s Hs. now apply Hs.
  - apply hoare_fails, fails_fprintf_exit.
Qed.

Lemma served_tsearch_then {B} key (f k : M B) :
  fails f -> hoare (served w) k (fun _ => served w) ->
  hoare (served w) (found <- tsearch w key ;; if negb found then f else k)
        (fun _ => served w).
Proof.
  intros F Hk.
  apply hoare_bind with (R := fun found s' => found = true -> served w s').
  - unfold tsearch.
    apply hoare_bind with (R := fun _ => served w); [serves|]. intros h.
    apply hoare_bind with (R := fun _ => served w); [serves|]. intros t.
    apply hoare_if.
    + apply hoare_bind with (R := fun _ => served w); [serves|]. intros _.
      apply hoare_ret. auto.
    + apply hoare_bind with (R := fun ok s' => ok = true -> served w s');
        [apply served_alloc_request|].
      intros [|].
      * intros s Hs a s' E. unfold bind, modify, ret in E. injection E as <- <-.
        intros _ n Hn. apply (Hs eq_refl). destruct s; exact Hn.
      * apply hoare_ret. intros s _ H. discriminate H.
  - intros [|]; cbn [negb]; [|now apply hoare_fails].
    intros s Hs. apply Hk. now apply Hs.
Qed.

#[local] Hint Resolve served_prepend : served.

Lemma served_scan_buffer fuel : forall buffer offset bufcount totalfiles,
  hoare (served w) (scan_buffer w fuel buffer offset bufcount totalfiles)
        (fun _ => served w).
Proof.
  induction fuel as [|fuel IH]; intros buffer offset bufcount totalfiles;
    cbn [scan_buffer]; (apply hoare_if; [|serves]).
  { serves. }
  apply served_bind; [serves|]. intros h. cbv zeta.
  apply served_bind; [|intros ?; apply IH].
  apply hoare_if; [|serves]. apply hoare_if; [|serves].
  apply served_tsearch_then; [apply fails_fprintf_exit | serves].
Qed.

#[local] Hint Resolve served_scan_buffer : served.

Lemma served_read_directory answers : forall dirfd size buffer totalfiles bufs,
  hoare (served w) (read_directory w answers dirfd size buffer totalfiles bufs)
        (fun _ => served w).
Proof.
  induction answers as [|a answers IH]; intros dirfd size buffer totalfiles bufs;
    cbn [read_directory]; cbv zeta; [serves|].
  apply served_bind; [serves|]. intros n.
  apply hoare_if; [serves|]. apply hoare_if; [serves|].
  apply served_bind; [serves|]. intros t.
  apply served_malloc_then; [apply fails_perror_exit|]. intros b.
  apply served_bind; [serves|]. intros bufs'. apply IH.
Qed.

Lemma served_free_linked_list head :
  hoare (served w) (free_linked_list head) (fun _ => served w).
Proof.
  induction head as [|a head IH]; cbn [free_linked_list]; unfold free; serves.
Qed.

Lemma served_walk_tree node val lvl :
  hoare (served w) (walk_tree w node val lvl) (fun _ => served w).
Proof. unfold walk_tree. cbv zeta. destruct val; serves. Qed.

#[local] Hint Resolve served_walk_tree served_read_directory served_free_linked_list : served.

Lemma served_twalk_rec t : forall lvl,
  hoare (served w) (twalk_rec t (walk_tree w) lvl) (fun _ => served w).
Proof.
  induction t as [|l IHl k r IHr]; intros lvl; cbn [twalk_rec]; serves.
Qed.

#[local] Hint Resolve served_twalk_rec : served.

Lemma served_main : hoare (served w) (main w) (fun _ => served w).
Proof.
  unfold main. cbv zeta.
  apply hoare_if; [serves|]. apply hoare_if; [serves|].
  assert (HB : forall k : nat -> M Z,
             (forall b, hoare (served w) (k b) (fun _ => served w)) ->
             forall size,
               hoare (served w)
                     (p <- malloc w size ;;
                      match p with
                      | Some b => k b
                      | None => perror "malloc failed" ;; exit 1
                      end)
                     (fun _ => served w)).
  { intros k Hk size. apply served_malloc_then; [apply fails_perror_exit | exact Hk]. }
  destruct (getenv w "DENTLS_DELETE"); [apply hoare_if; [serves|]; apply served_bind; [serves|intros ?]|];
    (apply served_bind; [serves|]; intros ?;
     apply served_bind; [serves|]; intros ?;
     apply hoare_if; [serves|];
     apply served_bind; [serves|]; intros ?;
     apply hoare_if; [serves|]; apply hoare_if; [serves|];
     apply HB; intros b; unfold twalk, tdestroy; serves).
Qed.

End Served.

(** X5. A run that returns was served every request it made to the
    allocator: every refusal, of a buffer, of a node of the buffer list or
    of a node of the index, ends the run by [exit]. *)
Theorem X5_return_needs_memory {libc : search_impl} (w : world) (rc : Z) :
  fst (run w) = Val rc ->
  forall n, (n < allocs (snd (run w)))%nat -> w_malloc w n = true.
Proof.
  intros E. unfold run in *.
  destruct (main w (init_state w)) as [r sf] eqn:Hrun. cbn [fst snd] in *. subst r.
  apply (served_main w (init_state w)) in Hrun; [exact Hrun|].
  intros n Hn. simpl in Hn. lia.
Qed.

Lemma X5_witness :
  fst (run (libc := bst_impl) report_world) = Val 0 /\
  w_malloc report_world 3 = true.
Proof.
  split; [vm_compute; reflexivity|].
  apply (X5_return_needs_memory (libc := bst_impl) report_world 0);
    [vm_compute; reflexivity | vm_compute; lia].
Defined.

(** ** The statuses of a run *)

Create HintDb status.

Section Statuses.

Context {libc : search_impl}.
Variable w : world.

Lemma exits_one_bind {A B} (m : M A) (k : A -> M B) :
  exits_one m -> (forall a, exits_one (k a)) -> exits_one (bind m k).
Proof.
  intros Hm Hk s st s'' E. unfold bind in E.
  destruct (m s) as [[a|st0|] s'] eqn:Em.
  - exact (Hk a _ _ _ E).
  - injection E as <- <-. exact (Hm _ _ _ Em).
  - discriminate.
Qed.

Lemma exits_one_ret {A} (a : A) : exits_one (ret a).
Proof. intros s st s' E. discriminate. Qed.

Lemma exits_one_gets {A} (f : state -> A) : exits_one (gets f).
Proof. intros s st s' E. discriminate. Qed.

Lemma exits_one_modify f : exits_one (modify f).
Proof. intros s st s' E. discriminate. Qed.

Lemma exits_one_hang {A} : exits_one (@hang libc A).
Proof. intros s st s' E. discriminate. Qed.

Lemma exits_one_exit {A} : exits_one (@exit libc A 1).
Proof. intros s st s' [= <- _]. reflexivity. Qed.

Lemma exits_one_if {A} (c : bool) (m1 m2 : M A) :
  exits_one m1 -> exits_one m2 -> exits_one (if c then m1 else m2).
Proof. destruct c; auto. Qed.

Ltac statuses :=
  repeat first
    [ solve [auto with status nocore]
    | simple apply exits_one_ret
    | simple apply exits_one_gets
    | simple apply exits_one_modify
    | simple apply exits_one_hang
    | simple apply exits_one_exit
    | simple apply exits_one_bind; [|intros ?]
    | simple apply exits_one_if
    | match goal with
      | |- exits_one (match ?x with _ => _ end) => destruct x
      end ].

Lemma exits_one_emit e : exits_one (emit e).
Proof. unfold emit. statuses. Qed.

#[local] Hint Resolve exits_one_emit : status.

Lemma exits_one_fprintf fmt args : exits_one (fprintf_stderr fmt args).
Proof. unfold fprintf_stderr. statuses. Qed.

Lemma exits_one_printf fmt args : exits_one (printf fmt args).
Proof. unfold printf. statuses. Qed.

Lemma exits_one_perror msg : exits_one (perror msg).
Proof. unfold perror. statuses. Qed.

Lemma exits_one_fail_with e : exits_one (fail_with e).
Proof. unfold fail_with. statuses. Qed.

#[local] Hint Resolve exits_one_fprintf exits_one_printf exits_one_perror
  exits_one_fail_with : status.

Lemma exits_one_alloc_request : exits_one (alloc_request w).
Proof. unfold alloc_request. statuses. Qed.

#[local] Hint Resolve exits_one_alloc_request : status.

Lemma exits_one_malloc size : exits_one (malloc w size).
Proof. unfold malloc. statuses. Qed.

Lemma exits_one_prepend head data : exits_one (linked_list_prepend_override w head data).
Proof. unfold linked_list_prepend_override. statuses. Qed.

Lemma exits_one_tsearch key : exits_one (tsearch w key).
Proof. unfold tsearch. statuses. Qed.

Lemma exits_one_getdents answer dirfd buffer size :
  exits_one (getdents answer dirfd buffer size).
Proof. unfold getdents. statuses. Qed.

Lemma exits_one_access p : exits_one (access w p).
Proof. unfold access. statuses. Qed.

Lemma exits_one_lstat p : exits_one (lstat w p).
Proof. unfold lstat. statuses. Qed.

Lemma exits_one_open p : exits_one (open w p).
Proof. unfold open. statuses. Qed.

Lemma exits_one_fchdir fd : exits_one (fchdir w fd).
Proof. unfold fchdir. statuses. Qed.

Lemma exits_one_close fd : exits_one (close fd).
Proof. unfold close. statuses. Qed.

Lemma exits_one_unlink name : exits_one (unlink w name).
Proof. unfold unlink. statuses. Qed.

Lemma exits_one_sleep n : exits_one (sleep n).
Proof. unfold sleep. statuses. Qed.

Lemma exits_one_fflush : exits_one fflush_stderr.
Proof. unfold fflush_stderr. statuses. Qed.

#[local] Hint Resolve exits_one_malloc exits_one_prepend exits_one_tsearch
  exits_one_getdents exits_one_access exits_one_lstat exits_one_open exits_one_fchdir
  exits_one_close exits_one_unlink exits_one_sleep exits_one_fflush : status.

Lemma exits_one_scan_buffer fuel : forall buffer offset bufcount totalfiles,
  exits_one (scan_buffer w fuel buffer offset bufcount totalfiles).
Proof.
  induction fuel as [|fuel IH]; intros buffer offset bufcount totalfiles;
    cbn [scan_buffer]; cbv zeta; statuses.
Qed.

#[local] Hint Resolve exits_one_scan_buffer : status.

Lemma exits_one_read_directory answers : forall dirfd size buffer totalfiles bufs,
  exits_one (read_directory w answers dirfd size buffer totalfiles bufs).
Proof.
  induction answers as [|a answers IH]; intros dirfd size buffer totalfiles bufs;
    cbn [read_directory]; cbv zeta; statuses.
Qed.

Lemma exits_one_free_linked_list head : exits_one (free_linked_list head).
Proof.
  induction head as [|a head IH]; cbn [free_linked_list]; unfold free; statuses.
Qed.

Lemma exits_one_walk_tree node val lvl : exits_one (walk_tree w node val lvl).
Proof. unfold walk_tree. cbv zeta. destruct val; statuses. Qed.

#[local] Hint Resolve exits_one_walk_tree exits_one_read_directory
  exits_one_free_linked_list : status.

Lemma exits_one_twalk_rec t : forall lvl, exits_one (twalk_rec t (walk_tree w) lvl).
Proof.
  induction t as [|l IHl k r IHr]; intros lvl; cbn [twalk_rec]; statuses.
Qed.

#[local] Hint Resolve exits_one_twalk_rec : status.

Lemma exits_one_main : exits_one (main w).
Proof. unfold main, twalk, tdestroy. cbv zeta. statuses. Qed.

(** The values [main] can return. *)

Lemma returns_bind {A B} (Q : B -> state -> Prop) (m : M A) (k : A -> M B) :
  (forall a, hoare (fun _ => True) (k a) Q) -> hoare (fun _ => True) (bind m k) Q.
Proof.
  intros Hk. apply hoare_bind with (R := fun _ _ => True); [|exact Hk].
  intros s _ a s' _. exact I.
Qed.

Lemma returns_main :
  hoare (fun _ => True) (main w) (fun rc _ => rc = 0 \/ rc = 1 \/ rc = -1).
Proof.
  unfold main. cbv zeta.
  repeat first
    [ simple apply hoare_fails;
        solve [apply fails_exit | apply fails_perror_exit | apply fails_fprintf_exit]
    | simple apply hoare_ret; intros ? _; lia
    | simple apply returns_bind; intros ?
    | simple apply hoare_if
    | match goal with
      | |- hoare _ (match ?x with _ => _ end) _ => destruct x
      end ].
Qed.

End Statuses.

(** X6. The statuses of the program: [main] returns 0, 1 or -1 and
    calls [exit] with 1 only, so that a run that ends gives the status 0, 1
    or 255 to its parent. *)
Theorem X6_exit_statuses {libc : search_impl} (w : world) :
  match fst (run w) with
  | Val rc => rc = 0 \/ rc = 1 \/ rc = -1
  | Exit st => st = 1
  | Hang => True
  end /\
  match exit_status (fst (run w)) with
  | Some c => c = 0 \/ c = 1 \/ c = 255
  | None => fst (run w) = Hang
  end.
Proof.
  unfold run. destruct (main w (init_state w)) as [[rc|st|] sf] eqn:E; cbn [fst exit_status].
  - pose proof (returns_main w (init_state w) I rc sf E) as [-> | [-> | ->]];
      split; auto.
  - pose proof (exits_one_main w _ _ _ E) as ->. split; auto.
  - split; auto.
Qed.

(** ** The directory *)

Create HintDb dkept.

Lemma remove_name_incl n fs : incl (remove_name n fs) fs.
Proof.
  induction fs as [|x fs IH]; simpl; [apply incl_refl|].
  destruct (String.eqb n x).
  - apply incl_tl, incl_refl.
  - intros y [->|Hy]; [now left | right; now apply IH].
Qed.

Lemma remove_name_cases n fs m :
  In m fs -> In m (remove_name n fs) \/ m = n.
Proof.
  induction fs as [|x fs IH]; simpl; [intros []|].
  destruct (String.eqb n x) eqn:E.
  - apply String.eqb_eq in E. subst x. intros [->|H]; auto.
  - intros [->|H]; [left; now left|]. destruct (IH H); auto. left. now right.
Qed.

Section DirectoryKept.

Context {libc : search_impl}.
Variable w : world.

Lemma directory_kept_refl s : directory_kept s s.
Proof.
  exists []. rewrite app_nil_r. split; [reflexivity|].
  split; [apply incl_refl | auto].
Qed.

Lemma directory_kept_trans s1 s2 s3 :
  directory_kept s1 s2 -> directory_kept s2 s3 -> directory_kept s1 s3.
Proof.
  intros (e1 & T1 & I1 & U1) (e2 & T2 & I2 & U2).
  exists (e1 ++ e2). split; [now rewrite T2, T1, app_assoc|].
  split; [eapply incl_tran; eassumption|].
  intros n Hn. rewrite unlink_calls_app, in_app_iff.
  destruct (U1 n Hn) as [H|H]; [|auto]. destruct (U2 n H); auto.
Qed.

Lemma dk_modify (f : state -> state) :
  (forall s, trace (f s) = trace s /\ files (f s) = files s) ->
  preserves directory_kept (modify f).
Proof.
  intros H s. cbn [modify snd]. destruct (H s) as [Ht Hf].
  exists []. rewrite app_nil_r, Hf. split; [exact Ht|].
  split; [apply incl_refl | auto].
Qed.

Lemma dk_emit e : preserves directory_kept (emit e).
Proof.
  intros s. destruct s. exists [e]. simpl.
  split; [reflexivity|]. split; [apply incl_refl | auto].
Qed.

Ltac dkeeps :=
  repeat first
    [ solve [auto with dkept nocore]
    | simple apply preserves_ret; [apply directory_kept_refl]
    | simple apply preserves_exit; [apply directory_kept_refl]
    | simple apply preserves_hang; [apply directory_kept_refl]
    | simple apply preserves_gets; [apply directory_kept_refl]
    | simple apply preserves_bind; [apply directory_kept_trans | | intros ?]
    | simple apply preserves_if
    | simple apply dk_emit
    | simple apply dk_modify; intros [? ? ? ? ? ? ? ? ?]; split; reflexivity
    | match goal with
      | |- preserves _ (match ?x with _ => _ end) => destruct x
      end ].

Lemma dk_fprintf fmt args : preserves directory_kept (fprintf_stderr fmt args).
Proof. unfold fprintf_stderr. dkeeps. Qed.

Lemma dk_printf fmt args : preserves directory_kept (printf fmt args).
Proof. unfold printf. dkeeps. Qed.

Lemma dk_perror msg : preserves directory_kept (perror msg).
Proof. unfold perror. dkeeps. Qed.

Lemma dk_fail_with e : preserves directory_kept (fail_with e).
Proof. unfold fail_with. dkeeps. Qed.

Lemma dk_alloc_request : preserves directory_kept (alloc_request w).
Proof. unfold alloc_request. dkeeps. Qed.

#[local] Hint Resolve dk_fprintf dk_printf dk_perror dk_fail_with dk_alloc_request : dkept.

Lemma dk_malloc size : preserves directory_kept (malloc w size).
Proof. unfold malloc. dkeeps. Qed.

Lemma dk_prepend head data :
  preserves directory_kept (linked_list_prepend_override w head data).
Proof. unfold linked_list_prepend_override. dkeeps. Qed.

Lemma dk_tsearch key : preserves directory_kept (tsearch w key).
Proof. unfold tsearch. dkeeps. Qed.

Lemma dk_getdents answer dirfd buffer size :
  preserves directory_kept (getdents answer dirfd buffer size).
Proof. unfold getdents. dkeeps. Qed.

Lemma dk_access p : preserves directory_kept (access w p).
Proof. unfold access. dkeeps. Qed.

Lemma dk_lstat p : preserves directory_kept (lstat w p).
Proof. unfold lstat. dkeeps. Qed.

Lemma dk_open p : preserves directory_kept (open w p).
Proof. unfold open. dkeeps. Qed.

Lemma dk_fchdir fd : preserves directory_kept (fchdir w fd).
Proof. unfold fchdir. dkeeps. Qed.

Lemma dk_close fd : preserves directory_kept (close fd).
Proof. unfold close. dkeeps. Qed.

Lemma dk_sleep n : preserves directory_kept (sleep n).
Proof. unfold sleep. dkeeps. Qed.

Lemma dk_fflush : preserves directory_kept fflush_stderr.
Proof. unfold fflush_stderr. dkeeps. Qed.

(** The one call that removes a name. *)
Lemma dk_unlink name : preserves directory_kept (unlink w name).
Proof.
  intros s. destruct s. unfold unlink, emit, fail_with, bind, gets, modify, ret. simpl.
  destruct (w_unlink w name) as [u|e]; simpl;
    [destruct (existsb (String.eqb name) files0); simpl|];
    exists [Syscall (sys_unlink name)]; simpl;
    (split; [reflexivity|]).
  - split; [apply remove_name_incl|].
    intros n Hn. destruct (remove_name_cases name _ n Hn) as [H|E]; [now left|].
    right. left. now symmetry.
  - split; [apply incl_refl | auto].
  - split; [apply incl_refl | auto].
Qed.

#[local] Hint Resolve dk_malloc dk_prepend dk_tsearch dk_getdents dk_access dk_lstat
  dk_open dk_fchdir dk_close dk_sleep dk_fflush dk_unlink : dkept.

Lemma dk_scan_buffer fuel : forall buffer offset bufcount totalfiles,
  preserves directory_kept (scan_buffer w fuel buffer offset bufcount totalfiles).
Proof.
  induction fuel as [|fuel IH]; intros buffer offset bufcount totalfiles;
    cbn [scan_buffer]; cbv zeta; dkeeps.
Qed.

#[local] Hint Resolve dk_scan_buffer : dkept.

Lemma dk_read_directory answers : forall dirfd size buffer totalfiles bufs,
  preserves directory_kept (read_directory w answers dirfd size buffer totalfiles bufs).
Proof.
  induction answers as [|a answers IH]; intros dirfd size buffer totalfiles bufs;
    cbn [read_directory]; cbv zeta; dkeeps.
Qed.

Lemma dk_free_linked_list head : preserves directory_kept (free_linked_list head).
Proof.
  induction head as [|a head IH]; cbn [free_linked_list]; unfold free; dkeeps.
Qed.

Lemma dk_walk_tree node val lvl : preserves directory_kept (walk_tree w node val lvl).
Proof. unfold walk_tree. cbv zeta. destruct val; dkeeps. Qed.

#[local] Hint Resolve dk_walk_tree dk_read_directory dk_free_linked_list : dkept.

Lemma dk_twalk_rec t : forall lvl,
  preserves directory_kept (twalk_rec t (walk_tree w) lvl).
Proof.
  induction t as [|l IHl k r IHr]; intros lvl; cbn [twalk_rec]; dkeeps.
Qed.

#[local] Hint Resolve dk_twalk_rec : dkept.

Lemma dk_main : preserves directory_kept (main w).
Proof. unfold main, twalk, tdestroy. cbv zeta. dkeeps. Qed.

End DirectoryKept.

(** X7. Whatever the world answers and however the run ends, the program
    adds no name to the directory, and every name that is missing from it
    at the end was handed to [unlink] during the run. *)
Theorem X7_only_unlinked_names_leave {libc : search_impl} (w : world) :
  incl (files (snd (run w))) (w_files w) /\
  forall n, In n (w_files w) ->
            In n (files (snd (run w))) \/ In n (unlink_calls (trace (snd (run w)))).
Proof.
  destruct (dk_main w (init_state w)) as (evs & T & I & U).
  unfold run. split; [exact I|].
  intros n Hn. rewrite T. cbn [init_state trace app]. now apply U.
Qed.

(** ** The values [main] returns, and when *)

Ltac returns_only :=
  repeat first
    [ simple apply hoare_fails;
        solve [apply fails_exit | apply fails_perror_exit | apply fails_fprintf_exit]
    | simple apply hoare_ret; intros ? _; lia
    | simple apply returns_bind; intros ?
    | simple apply hoare_if
    | match goal with
      | |- hoare _ (match ?x with _ => _ end) _ => destruct x
      end ].

Ltac absurd_run H :=
  exfalso;
  first [ exact (fails_perror_exit _ _ _ _ _ H)
        | exact (fails_fprintf_exit _ _ _ _ _ _ H)
        | exact (fails_exit _ _ _ _ H) ].

Section Returns.

Context {libc : search_impl}.
Variable w : world.

Lemma access_inv p s rc s' :
  access w p s = (Val rc, s') -> (rc <? 0) = false -> exists u, w_access w p = Ok u.
Proof.
  unfold access, emit, fail_with, bind, modify, ret.
  destruct (w_access w p) as [u|e]; [eauto|].
  intros [= <- _] H. now compute in H.
Qed.

Lemma lstat_inv p s r s' :
  lstat w p s = (Val r, s') -> (fst r <? 0) = false -> w_lstat w p = Ok (snd r).
Proof.
  unfold lstat, emit, fail_with, bind, modify, ret.
  destruct (w_lstat w p) as [st|e]; intros [= <- _] H; [reflexivity|].
  now compute in H.
Qed.

Lemma open_inv p s fd s' :
  open w p s = (Val fd, s') -> (fd <? 0) = false -> w_open w p = Ok fd.
Proof.
  unfold open, emit, fail_with, bind, modify, ret.
  destruct (w_open w p) as [fd'|e]; intros [= <- _] H; [reflexivity|].
  now compute in H.
Qed.

Lemma fchdir_inv fd s rc s' :
  fchdir w fd s = (Val rc, s') -> (rc <? 0) = false -> exists u, w_fchdir w fd = Ok u.
Proof.
  unfold fchdir, emit, fail_with, bind, modify, ret.
  destruct (w_fchdir w fd) as [u|e]; [eauto|].
  intros [= <- _] H. now compute in H.
Qed.

Lemma main_zero_checked sf :
  main w (init_state w) = (Val 0, sf) -> healthy w = true /\ mode_request w <> None.
Proof.
  intros Hrun. unfold main in Hrun. cbv zeta in Hrun.
  match type of Hrun with
  | context [match getenv w "DENTLS_DELETE" with Some _ => _ | None => ?B end] =>
      set (body := B) in Hrun
  end.
  assert (HB : forall s0, body s0 = (Val 0, sf) ->
                 (exists u, w_access w (dir_path w) = Ok u) /\
                 (exists st, w_lstat w (dir_path w) = Ok st /\ S_ISDIR (st_mode st) = true) /\
                 (exists fd u, w_open w (dir_path w) = Ok fd /\ (fd <? 0) = false /\
                               w_fchdir w fd = Ok u)).
  { clear Hrun. intros s0 E. unfold body in E. clear body. fold (dir_path w) in E.
    apply bind_inv in E as (? & s1 & _ & E).
    apply bind_inv in E as (rc & s2 & Ea & E).
    destruct (rc <? 0) eqn:Hrc; [absurd_run E|].
    apply access_inv in Ea; [|exact Hrc].
    apply bind_inv in E as (r & s3 & El & E).
    destruct (fst r <? 0) eqn:Hr; [absurd_run E|].
    apply lstat_inv in El; [|exact Hr].
    destruct (S_ISDIR (st_mode (snd r))) eqn:Hdir; cbn [negb] in E; [|absurd_run E].
    apply bind_inv in E as (p & s4 & _ & E).
    destruct p as [buffer|]; [|absurd_run E].
    apply bind_inv in E as (bufs & s5 & _ & E).
    apply bind_inv in E as (fd & s6 & Eo & E).
    destruct (fd <? 0) eqn:Hfd; [absurd_run E|].
    apply open_inv in Eo; [|exact Hfd].
    apply bind_inv in E as (rc2 & s7 & Ef & E).
    destruct (rc2 <? 0) eqn:Hrc2; [absurd_run E|].
    apply fchdir_inv in Ef; [|exact Hrc2].
    split; [exact Ea|]. split; [exists (snd r); auto|].
    destruct Ef as [u Hu]. exists fd, u. auto. }
  destruct (Z.of_nat (List.length (argv w)) <? 2) eqn:Hargc; [absurd_run Hrun|].
  destruct (Ascii.eqb (first_char (nth 1 (argv w) EmptyString)) "-"
            || negb (Ascii.eqb (first_char (nth 1 (argv w) EmptyString)) "/")) eqn:Hch.
  { repeat (apply bind_inv in Hrun as (? & ? & _ & Hrun)). discriminate Hrun. }
  assert (Hmode : mode_request w <> None /\ exists s0, body s0 = (Val 0, sf)).
  { unfold mode_request.
    destruct (getenv w "DENTLS_DELETE") as [v|].
    - destruct (strcmp v "delete" =? 0); cbn [negb] in Hrun.
      + split; [discriminate|].
        apply bind_inv in Hrun as (? & s0 & _ & Hrun). now exists s0.
      + repeat (apply bind_inv in Hrun as (? & ? & _ & Hrun)). discriminate Hrun.
    - split; [discriminate|]. now exists (init_state w). }
  destruct Hmode as [Hmode [s0 E]]. split; [|exact Hmode].
  destruct (HB s0 E) as ([u Hu] & (st & Hst & Hdir) & (fd & u' & Hfd & Hpos & Hch')).
  apply orb_false_elim in Hch as [_ Hch]. apply negb_false_iff in Hch.
  unfold healthy. fold (dir_path w) in *. rewrite Hch, Hu, Hst, Hdir, Hfd, Hch'.
  apply Z.ltb_ge in Hargc. apply Z.ltb_ge in Hpos.
  replace (2 <=? Z.of_nat (List.length (argv w))) with true
    by (symmetry; apply Z.leb_le; lia).
  replace (0 <=? fd) with true by (symmetry; apply Z.leb_le; lia).
  reflexivity.
Qed.

Lemma main_usage_iff :
  fst (run w) = Val (-1) <->
  (2 <= List.length (argv w))%nat /\ first_char (dir_path w) <> "/"%char.
Proof.
  unfold run, dir_path. split.
  - destruct (main w (init_state w)) as [r sf] eqn:Hrun. cbn [fst]. intros ->.
    unfold main in Hrun. cbv zeta in Hrun.
    destruct (Z.of_nat (List.length (argv w)) <? 2) eqn:Hargc; [absurd_run Hrun|].
    apply Z.ltb_ge in Hargc.
    destruct (Ascii.eqb (first_char (nth 1 (argv w) EmptyString)) "-"
              || negb (Ascii.eqb (first_char (nth 1 (argv w) EmptyString)) "/")) eqn:Hch.
    + split; [lia|]. intros Heq. rewrite Heq in Hch. discriminate Hch.
    + exfalso.
      match type of Hrun with
      | ?m _ = _ =>
          assert (H : hoare (fun _ => True) m (fun rc _ => rc = 0 \/ rc = 1))
            by returns_only
      end.
      specialize (H _ I _ _ Hrun). cbv beta in H. lia.
  - intros [Hargc Hch]. unfold main.
    replace (Z.of_nat (List.length (argv w)) <? 2) with false
      by (symmetry; apply Z.ltb_ge; lia).
    apply Ascii.eqb_neq in Hch. rewrite Hch. cbn [negb]. rewrite orb_true_r.
    reflexivity.
Qed.

Lemma main_refusal_iff :
  fst (run w) = Val 1 <-> good_args w /\ mode_request w = None.
Proof.
  split.
  - unfold run. destruct (main w (init_state w)) as [r sf] eqn:Hrun. cbn [fst]. intros ->.
    unfold main in Hrun. cbv zeta in Hrun.
    match type of Hrun with
    | context [match getenv w "DENTLS_DELETE" with Some _ => _ | None => ?B end] =>
        set (body := B) in Hrun
    end.
    assert (HB : hoare (fun _ => True) body (fun rc _ => rc = 0))
      by (unfold body; returns_only).
    destruct (Z.of_nat (List.length (argv w)) <? 2) eqn:Hargc; [absurd_run Hrun|].
    apply Z.ltb_ge in Hargc.
    destruct (Ascii.eqb (first_char (nth 1 (argv w) EmptyString)) "-"
              || negb (Ascii.eqb (first_char (nth 1 (argv w) EmptyString)) "/")) eqn:Hch.
    { repeat (apply bind_inv in Hrun as (? & ? & _ & Hrun)). discriminate Hrun. }
    apply orb_false_elim in Hch as [_ Hch]. apply negb_false_iff in Hch.
    apply Ascii.eqb_eq in Hch.
    split; [split; [lia | exact Hch]|].
    unfold mode_request.
    destruct (getenv w "DENTLS_DELETE") as [v|].
    + destruct (strcmp v "delete" =? 0); cbn [negb] in Hrun; [|reflexivity].
      apply bind_inv in Hrun as (? & s0 & _ & Hrun).
      specialize (HB _ I _ _ Hrun). cbv beta in HB. discriminate HB.
    + specialize (HB _ I _ _ Hrun). cbv beta in HB. discriminate HB.
  - intros [Hargs Hmode]. unfold mode_request in Hmode.
    destruct (getenv w "DENTLS_DELETE") as [v|] eqn:Hv; [|discriminate].
    destruct (strcmp v "delete" =? 0) eqn:Hs; [discriminate|].
    destruct (main_mode w Hargs) as (H & _). now rewrite (H v Hv Hs).
Qed.

End Returns.

(** X8. When [main] returns which value: -1 exactly when a path is given
    that does not start with a slash (the test for a leading dash adds
    nothing to it); 1 exactly when the arguments are accepted and
    [DENTLS_DELETE] is set to something other than [delete]; and 0 only
    when the selector was accepted and every check of the path, its
    [access], [lstat], type, [open] and [fchdir], has passed. *)
Theorem X8_return_codes {libc : search_impl} (w : world) :
  (fst (run w) = Val (-1) <->
   (2 <= List.length (argv w))%nat /\ first_char (dir_path w) <> "/"%char) /\
  (fst (run w) = Val 1 <-> good_args w /\ mode_request w = None) /\
  (fst (run w) = Val 0 -> healthy w = true /\ mode_request w <> None).
Proof.
  split; [apply main_usage_iff|]. split; [apply main_refusal_iff|].
  unfold run. destruct (main w (init_state w)) as [r sf] eqn:Hrun. cbn [fst].
  intros ->. exact (main_zero_checked w sf Hrun).
Qed.

(** ** The checks of [main], one failure at a time *)

Section Failures.

Context {libc : search_impl}.
Variable w : world.

Ltac state_fields :=
  cbn [delete_count show_progress print_only tree_root heap errno allocs files trace
       set_delete_count set_show_progress set_print_only set_tree_root set_heap
       set_errno set_allocs set_files emit_event].

Lemma main_accepted d :
  good_args w -> mode_request w = Some d ->
  run w = after_mode w (if d then set_print_only 0 (init_state w) else init_state w).
Proof.
  intros [Hargc Hchar] Hm. unfold run, main. rewrite Hchar.
  replace (Z.of_nat (List.length (argv w)) <? 2) with false
    by (symmetry; apply Z.ltb_ge; lia).
  change (Ascii.eqb "/" "-" || negb (Ascii.eqb "/" "/")) with false.
  cbv zeta. cbv iota. unfold mode_request in Hm.
  destruct (getenv w "DENTLS_DELETE") as [v|].
  - destruct (strcmp v "delete" =? 0); [|discriminate]. injection Hm as <-. reflexivity.
  - injection Hm as <-. reflexivity.
Qed.

Lemma progress_env_frame s0 :
  exists s0',
    match getenv w "DENTLS_PROGRESS" with
    | Some _ => modify (set_show_progress 1)
    | None => ret tt
    end s0 = (Val tt, s0') /\
    trace s0' = trace s0 /\ files s0' = files s0 /\ allocs s0' = allocs s0 /\
    heap s0' = heap s0 /\ tree_root s0' = tree_root s0 /\ errno s0' = errno s0 /\
    print_only s0' = print_only s0 /\ delete_count s0' = delete_count s0 /\
    show_progress s0' =
      match getenv w "DENTLS_PROGRESS" with Some _ => 1 | None => show_progress s0 end.
Proof.
  destruct (getenv w "DENTLS_PROGRESS"); eexists; (split; [reflexivity|]);
    repeat split; reflexivity.
Qed.

Lemma accepted_state (d : bool) (s0 : state) :
  s0 = (if d then set_print_only 0 (init_state w) else init_state w) ->
  trace s0 = [] /\ files s0 = w_files w /\ allocs s0 = 0%nat /\ heap s0 = [] /\
  tree_root s0 = tnull /\ errno s0 = 0 /\ delete_count s0 = 0 /\ show_progress s0 = 0 /\
  print_only s0 = (if d then 0 else 1).
Proof. intros ->. destruct d; repeat split; reflexivity. Qed.

Lemma access_err p e s :
  w_access w p = Err e ->
  access w p s = (Val (-1), set_errno e (emit_event (Syscall (sys_access p)) s)).
Proof. intros H. unfold access, bind, emit, modify, fail_with, ret. now rewrite H. Qed.

Lemma lstat_err p e s :
  w_lstat w p = Err e ->
  lstat w p s = (Val (-1, mkStat 0 0), set_errno e (emit_event (Syscall (sys_lstat p)) s)).
Proof. intros H. unfold lstat, bind, emit, modify, fail_with, ret. now rewrite H. Qed.

Lemma open_err p e s :
  w_open w p = Err e ->
  open w p s = (Val (-1), set_errno e (emit_event (Syscall (sys_open p)) s)).
Proof. intros H. unfold open, bind, emit, modify, fail_with, ret. now rewrite H. Qed.

Lemma fchdir_err fd e s :
  w_fchdir w fd = Err e ->
  fchdir w fd s = (Val (-1), set_errno e (emit_event (Syscall (sys_fchdir fd)) s)).
Proof. intros H. unfold fchdir, bind, emit, modify, fail_with, ret. now rewrite H. Qed.

Lemma malloc_at size s :
  w_malloc w (allocs s) = true ->
  malloc w size s =
  (Val (Some (List.length (heap s))),
   set_heap (heap s ++ [Some []]) (set_allocs (S (allocs s)) s)).
Proof.
  intros H. unfold malloc, alloc_request, bind, gets, modify, ret. now rewrite H.
Qed.

Lemma malloc_refused size s :
  w_malloc w (allocs s) = false ->
  malloc w size s = (Val None, set_errno ENOMEM (set_allocs (S (allocs s)) s)).
Proof.
  intros H. unfold malloc, alloc_request, bind, gets, modify, ret. now rewrite H.
Qed.

Lemma prepend_at head data s :
  w_malloc w (allocs s) = true ->
  linked_list_prepend_override w (Some head) data s
  = (Val (data :: head), set_allocs (S (allocs s)) s).
Proof.
  intros H. unfold linked_list_prepend_override, alloc_request, bind, gets, modify, ret.
  now rewrite H.
Qed.

Lemma prepend_refused head data s :
  w_malloc w (allocs s) = false ->
  linked_list_prepend_override w (Some head) data s
  = (Exit 1,
     emit_event (Perror "malloc" ENOMEM) (set_errno ENOMEM (set_allocs (S (allocs s)) s))).
Proof.
  intros H.
  unfold linked_list_prepend_override, alloc_request, perror, emit, exit, bind, gets,
    modify, ret.
  now rewrite H.
Qed.

End Failures.

Ltac run_fields :=
  cbn [fst snd delete_count show_progress print_only tree_root heap errno allocs files
       trace set_delete_count set_show_progress set_print_only set_tree_root set_heap
       set_errno set_allocs set_files emit_event].

Ltac ends_with_perror :=
  unfold ended_after, perror, emit, exit, bind, gets, modify; run_fields.

Ltac ends_with_message :=
  unfold ended_after, fprintf_stderr, emit, exit, bind, gets, modify; run_fields.

(** X9. The checks of the path.  When [access] fails, the run ends by
    [exit(1)] after that one call, with [perror] of its error; when
    [lstat] fails, after these two calls; when the path is not a
    directory, after the same two calls with the message that says so.
    In each case nothing was allocated, opened or removed. *)
Theorem X9_path_checks {libc : search_impl} (w : world) (d : bool) :
  good_args w -> mode_request w = Some d ->
  match w_access w (dir_path w) with
  | Err e =>
      ended_after w (run w) [Syscall (sys_access (dir_path w))]
                  (Perror "Could not access directory" e) 0
  | Ok _ =>
      match w_lstat w (dir_path w) with
      | Err e =>
          ended_after w (run w)
                      [Syscall (sys_access (dir_path w)); Syscall (sys_lstat (dir_path w))]
                      (Perror "Unable to lstat path" e) 0
      | Ok st =>
          S_ISDIR (st_mode st) = false ->
          ended_after w (run w)
                      [Syscall (sys_access (dir_path w)); Syscall (sys_lstat (dir_path w))]
                      (Stderr "The path %s is not a directory.\n" [AStr (dir_path w)]) 0
      end
  end.
Proof.
  intros Hargs Hm. rewrite (main_accepted w d Hargs Hm).
  destruct (accepted_state w d _ eq_refl) as (T0 & F0 & A0 & _).
  match goal with |- context [after_mode w ?S] => set (s0 := S) in * end.
  clearbody s0.
  unfold after_mode. fold (dir_path w).
  destruct (progress_env_frame w s0) as (s1 & E0 & T1 & F1 & A1 & _).
  rewrite (bind_val _ _ _ _ _ E0).
  destruct (w_access w (dir_path w)) as [u|e] eqn:Hacc.
  - rewrite (bind_val _ _ _ _ _ (access_ok w _ _ _ Hacc)).
    change (0 <? 0) with false. cbv iota.
    destruct (w_lstat w (dir_path w)) as [st|e] eqn:Hl.
    + intros Hdir. rewrite (bind_val _ _ _ _ _ (lstat_ok w _ _ _ Hl)).
      cbn [fst snd]. change (0 <? 0) with false. cbv iota. rewrite Hdir. cbn [negb].
      ends_with_message. rewrite T1, T0, F1, F0, A1, A0. repeat split.
    + rewrite (bind_val _ _ _ _ _ (lstat_err w _ _ _ Hl)).
      cbn [fst snd]. change (-1 <? 0) with true. cbv iota.
      ends_with_perror. rewrite T1, T0, F1, F0, A1, A0. repeat split.
  - rewrite (bind_val _ _ _ _ _ (access_err w _ _ _ Hacc)).
    change (-1 <? 0) with true. cbv iota.
    ends_with_perror. rewrite T1, T0, F1, F0, A1, A0. repeat split.
Qed.

Lemma good_args_example mode answers : good_args (example_world mode answers).
Proof. split; [simpl; lia | reflexivity]. Qed.

Lemma X9_witness :
  ended_after (libc := bst_impl) unreadable_world (run unreadable_world)
              [Syscall (sys_access "/tmp/d")] (Perror "Could not access directory" 13) 0.
Proof.
  exact (X9_path_checks unreadable_world false
           (good_args_example None (map answer_of example_batches)) eq_refl).
Defined.

(** X10. The resources [main] takes before it reads.  With the path
    checked: a refused buffer ends the run with [perror("malloc failed")],
    a refused node of the buffer list with [perror("malloc")], a failed
    [open] with [perror("Open error")] and a failed [fchdir] with
    [perror("fchdir")]; each time by [exit(1)], right after the calls made
    so far: nothing is read or removed, nothing is closed or freed. *)
Theorem X10_resource_failures {libc : search_impl} (w : world) (d : bool) (u : unit)
    (st : stat) :
  good_args w -> mode_request w = Some d ->
  w_access w (dir_path w) = Ok u ->
  w_lstat w (dir_path w) = Ok st -> S_ISDIR (st_mode st) = true ->
  let checked := [Syscall (sys_access (dir_path w)); Syscall (sys_lstat (dir_path w))] in
  if w_malloc w 0 then
    if w_malloc w 1 then
      match w_open w (dir_path w) with
      | Err e =>
          ended_after w (run w) (checked ++ [Syscall (sys_open (dir_path w))])
                      (Perror "Open error" e) 2
      | Ok fd =>
          (fd <? 0) = false ->
          match w_fchdir w fd with
          | Err e =>
              ended_after w (run w)
                          (checked ++ [Syscall (sys_open (dir_path w));
                                       Syscall (sys_fchdir fd)])
                          (Perror "fchdir" e) 2
          | Ok _ => True
          end
      end
    else ended_after w (run w) checked (Perror "malloc" ENOMEM) 2
  else ended_after w (run w) checked (Perror "malloc failed" ENOMEM) 1.
Proof.
  intros Hargs Hm Hacc Hl Hdir checked. subst checked.
  rewrite (main_accepted w d Hargs Hm).
  destruct (accepted_state w d _ eq_refl) as (T0 & F0 & A0 & _).
  match goal with |- context [after_mode w ?S] => set (s0 := S) in * end.
  clearbody s0.
  unfold after_mode. fold (dir_path w).
  destruct (progress_env_frame w s0) as (s1 & E0 & T1 & F1 & A1 & _).
  rewrite (bind_val _ _ _ _ _ E0).
  rewrite (bind_val _ _ _ _ _ (access_ok w _ _ _ Hacc)).
  change (0 <? 0) with false. cbv iota.
  rewrite (bind_val _ _ _ _ _ (lstat_ok w _ _ _ Hl)).
  cbn [fst snd]. change (0 <? 0) with false. cbv iota. rewrite Hdir. cbn [negb].
  match goal with
  | |- context [bind (malloc _ _) _ ?S] =>
      assert (A2 : allocs S = 0%nat) by (run_fields; congruence)
  end.
  destruct (w_malloc w 0) eqn:M0.
  - rewrite <- A2 in M0. rewrite (bind_val _ _ _ _ _ (malloc_at w _ _ M0)).
    match goal with
    | |- context [bind (linked_list_prepend_override _ _ _) _ ?S] =>
        assert (A3 : allocs S = 1%nat) by (run_fields; congruence)
    end.
    destruct (w_malloc w 1) eqn:M1.
    + rewrite <- A3 in M1. rewrite (bind_val _ _ _ _ _ (prepend_at w _ _ _ M1)).
      destruct (w_open w (dir_path w)) as [fd|e] eqn:Ho.
      * intros Hfd. rewrite (bind_val _ _ _ _ _ (open_ok w _ _ _ Ho)). rewrite Hfd.
        destruct (w_fchdir w fd) as [u'|e] eqn:Hf; [exact I|].
        rewrite (bind_val _ _ _ _ _ (fchdir_err w _ _ _ Hf)).
        change (-1 <? 0) with true. cbv iota.
        ends_with_perror. rewrite T1, T0, F1, F0, A1, A0. repeat split.
      * rewrite (bind_val _ _ _ _ _ (open_err w _ _ _ Ho)).
        change (-1 <? 0) with true. cbv iota.
        ends_with_perror. rewrite T1, T0, F1, F0, A1, A0. repeat split.
    + rewrite <- A3 in M1. rewrite (bind_exit _ _ _ _ _ (prepend_refused w _ _ _ M1)).
      unfold ended_after. run_fields. rewrite T1, T0, F1, F0, A1, A0. repeat split.
  - rewrite <- A2 in M0. rewrite (bind_val _ _ _ _ _ (malloc_refused w _ _ M0)).
    ends_with_perror. rewrite T1, T0, F1, F0, A1, A0. repeat split.
Qed.

Lemma X10_witness :
  ended_after (libc := bst_impl) unopenable_world (run unopenable_world)
              [Syscall (sys_access "/tmp/d"); Syscall (sys_lstat "/tmp/d");
               Syscall (sys_open "/tmp/d")]
              (Perror "Open error" 24) 2.
Proof.
  exact (X10_resource_failures unopenable_world false tt (mkStat 16877 4096)
           (good_args_example None (map answer_of example_batches))
           eq_refl eq_refl eq_refl eq_refl).
Defined.

(** ** The inner loop: a refused index node, a record of length zero *)

Lemma encode_batch_app rs rs' :
  encode_batch (rs ++ rs') = encode_batch rs ++ encode_batch rs'.
Proof. unfold encode_batch. now rewrite map_app, concat_app. Qed.

Section InnerLoop.

Context {libc : search_impl}.
Variable w : world.

Lemma tsearch_refused key s :
  tmember (compare_fnames (heap s)) key (view (tree_root s)) = false ->
  w_malloc w (allocs s) = false ->
  tsearch w key s = (Val false, set_errno ENOMEM (set_allocs (S (allocs s)) s)).
Proof.
  intros Hm Ha. unfold tsearch, alloc_request, bind, gets, modify, ret.
  now rewrite Hm, Ha.
Qed.

(** [tsearch] returns, never touches the heap, and gives NULL only when
    the allocator refuses. *)
Lemma tsearch_cases key s :
  exists found s',
    tsearch w key s = (Val found, s') /\ heap s' = heap s /\
    (found = false -> w_malloc w (allocs s) = false).
Proof.
  unfold tsearch, alloc_request, bind, gets, modify, ret.
  destruct (tmember _ _ _).
  - eexists _, _. split; [reflexivity|]. destruct s. split; [reflexivity | discriminate].
  - destruct (w_malloc w (allocs s)) eqn:Ha; eexists _, _; (split; [reflexivity|]);
      destruct s; (split; [reflexivity|]); intros H; exact H.
Qed.

Lemma scan_buffer_refused buffer skipped : forall pre fuel tot s bufcount r rest,
  forallb wf_dirent skipped = true -> wf_dirent r = true ->
  forallb (fun x => negb (wanted x)) skipped = true -> wanted r = true ->
  block_at (heap s) buffer = pre ++ encode_batch skipped ++ encode_dirent r ++ rest ->
  Z.of_nat (List.length (pre ++ encode_batch skipped ++ encode_dirent r)) <= bufcount ->
  bufcount < 2147483648 ->
  (List.length skipped < fuel)%nat ->
  tmember (compare_fnames (heap s))
          (buffer, d_name_of (Z.of_nat (List.length (pre ++ encode_batch skipped))))
          (view (tree_root s)) = false ->
  w_malloc w (allocs s) = false ->
  scan_buffer w fuel buffer (Z.of_nat (List.length pre)) bufcount tot s
  = (Exit 1,
     emit_event (Stderr "Cannot acquire resources for tree!\n" [])
                (set_errno ENOMEM (set_allocs (S (allocs s)) s))).
Proof.
  induction skipped as [|x skipped IH];
    intros pre fuel tot s bufcount r rest Hsk Hr Hun Hw Hblk Hbc Hlt Hfuel Hmem Hmal.
  - cbn [encode_batch map List.concat app] in *. rewrite app_nil_r in Hmem.
    destruct fuel as [|fuel]; [simpl in Hfuel; lia|].
    pose proof (encode_dirent_length r) as Hlen.
    pose proof (reclen_bounds r Hr) as Hrec.
    assert (Hin : Z.of_nat (List.length pre) < bufcount)
      by (rewrite length_app in Hbc; lia).
    cbn [scan_buffer]. apply Z.ltb_lt in Hin. rewrite Hin.
    unfold bind at 1. unfold gets at 1. cbv zeta. rewrite Hblk.
    rewrite (decode_name pre rest r Hr), (decode_type pre rest r Hr), (dot_test r Hr).
    unfold wanted in Hw. apply andb_prop in Hw as [Hdot Hreg]. rewrite Hdot.
    change (uchar (d_type r) =? DT_REG) with (is_regular r). rewrite Hreg.
    unfold bind at 1. unfold bind at 1. rewrite (tsearch_refused _ _ Hmem Hmal).
    reflexivity.
  - cbn [forallb] in Hsk, Hun. apply andb_prop in Hsk as [Hx Hsk].
    apply andb_prop in Hun as [Hxu Hun].
    destruct fuel as [|fuel]; [simpl in Hfuel; lia|].
    rewrite encode_batch_cons in *. rewrite <- app_assoc in Hblk.
    pose proof (encode_dirent_length x) as Hlen.
    pose proof (reclen_bounds x Hx) as Hrec.
    pose proof (encode_dirent_length r) as Hlenr.
    pose proof (reclen_bounds r Hr) as Hrecr.
    assert (Hin : Z.of_nat (List.length pre) < bufcount)
      by (rewrite !length_app in Hbc; lia).
    assert (Hnext : wrap_int (Z.of_nat (List.length pre) + reclen_of x)
                    = Z.of_nat (List.length (pre ++ encode_dirent x))).
    { rewrite wrap_int_small; [rewrite length_app; lia|].
      rewrite !length_app in Hbc. lia. }
    cbn [scan_buffer]. apply Z.ltb_lt in Hin. rewrite Hin.
    unfold bind at 1. unfold gets at 1. cbv zeta. rewrite Hblk.
    rewrite (decode_name pre _ x Hx), (decode_reclen pre _ x Hx),
      (decode_type pre _ x Hx), (dot_test x Hx), Hnext.
    change (uchar (d_type x) =? DT_REG) with (is_regular x).
    assert (Hsel : (if negb (is_dot x)
                    then if is_regular x
                         then found <- tsearch w (buffer, d_name_of (Z.of_nat (List.length pre))) ;;
                              (if negb found
                               then fprintf_stderr "Cannot acquire resources for tree!\n" [] ;;
                                    exit 1
                               else ret (wrap_int (tot + 1)))
                         else ret tot
                    else ret tot) = ret tot).
    { unfold wanted in Hxu. destruct (is_dot x); [reflexivity|].
      destruct (is_regular x); [discriminate Hxu | reflexivity]. }
    rewrite Hsel. unfold bind at 1, ret at 1.
    apply IH with (r := r) (rest := rest); try assumption.
    + rewrite Hblk, !app_assoc. reflexivity.
    + rewrite <- !app_assoc in Hbc |- *. exact Hbc.
    + simpl in Hfuel. lia.
    + rewrite <- app_assoc. exact Hmem.
Qed.

(** A record whose [d_reclen] is 0 keeps the cursor where it is. *)
Lemma scan_buffer_stuck buffer offset bufcount b :
  0 <= offset < bufcount -> offset < 2147483648 ->
  d_reclen_at b offset = 0 ->
  forall fuel totalfiles s,
    block_at (heap s) buffer = b ->
    match fst (scan_buffer w fuel buffer offset bufcount totalfiles s) with
    | Val _ => False
    | Exit st => st = 1 /\ exists n, w_malloc w n = false
    | Hang => True
    end.
Proof.
  intros Hoff Hmax Hrec.
  assert (Hlt : (offset <? bufcount) = true) by (apply Z.ltb_lt; lia).
  assert (Hsame : wrap_int (offset + 0) = offset) by (rewrite Z.add_0_r; apply wrap_int_small; lia).
  induction fuel as [|fuel IH]; intros totalfiles s Hblk; cbn [scan_buffer]; rewrite Hlt.
  - exact I.
  - unfold bind at 1. unfold gets at 1. cbv zeta. rewrite Hblk, Hrec, Hsame.
    destruct (negb _).
    + destruct (uchar _ =? DT_REG).
      * destruct (tsearch_cases (buffer, d_name_of offset) s)
          as (found & s1 & Et & Hh & Hf).
        unfold bind at 1. unfold bind at 1. rewrite Et.
        destruct found; cbn [negb].
        -- unfold ret at 1. apply IH. now rewrite Hh.
        -- cbn. split; [reflexivity|]. exists (allocs s). now apply Hf.
      * unfold bind at 1, ret at 1. now apply IH.
    + unfold bind at 1, ret at 1. now apply IH.
Qed.

End InnerLoop.

(** X11. A refused node of the index.  When the path is in order and the
    two requests for the first buffer were served, but the third request,
    made by [tsearch] for the first regular file of the first batch, is
    refused, the run ends by [exit(1)] right after the first [getdents]
    call, with the message that the tree cannot acquire resources; nothing
    is printed or removed. *)
Theorem X11_index_refusal {libc : search_impl} (w : world) (d : bool)
    (skipped later : list dirent) (r : dirent) (tail : list (sysret block)) :
  search_ok libc ->
  healthy w = true -> mode_request w = Some d ->
  w_malloc w 0 = true -> w_malloc w 1 = true -> w_malloc w 2 = false ->
  w_getdents w = answer_of (skipped ++ r :: later) :: tail ->
  wf_batch (skipped ++ r :: later) = true ->
  forallb (fun x => negb (wanted x)) skipped = true -> wanted r = true ->
  ended_after w (run w)
              (prelude w ++ [getdents_event (dir_fd w) (getdents_buf_size w) 0])
              (Stderr "Cannot acquire resources for tree!\n" []) 3.
Proof.
  intros Hlibc Hh Hm M0 M1 M2 Hstream Hwf Hun Hw.
  destruct (healthy_inv w Hh) as (u & st & u' & A1 & A2 & A3 & A4 & A5 & A6 & A7 & A8).
  assert (Hargs : good_args w).
  { split; [apply Z.ltb_ge in A1; lia | exact A2]. }
  assert (Hsize : getdents_buf_size w = wrap_ulong (st_size st * 2))
    by (unfold getdents_buf_size; now rewrite A4).
  destruct (wf_batch_inv _ Hwf) as (_ & Hwfr & Hsz).
  rewrite forallb_app in Hwfr. apply andb_prop in Hwfr as [Hwfs Hwfr].
  cbn [forallb] in Hwfr. apply andb_prop in Hwfr as [Hwr _].
  rewrite (main_accepted w d Hargs Hm).
  destruct (accepted_state w d _ eq_refl) as (T0 & F0 & A0 & H0 & R0 & _).
  match goal with |- context [after_mode w ?S] => set (s0 := S) in * end.
  clearbody s0.
  unfold after_mode. fold (dir_path w).
  destruct (progress_env_frame w s0) as (s1 & E0 & T1 & F1 & Al1 & H1 & R1 & _).
  rewrite (bind_val _ _ _ _ _ E0).
  rewrite (bind_val _ _ _ _ _ (access_ok w _ _ _ A3)).
  change (0 <? 0) with false. cbv iota.
  rewrite (bind_val _ _ _ _ _ (lstat_ok w _ _ _ A4)).
  cbn [fst snd]. change (0 <? 0) with false. cbv iota. rewrite A5. cbn [negb].
  match goal with
  | |- context [bind (malloc _ _) _ ?S] =>
      assert (Al2 : allocs S = 0%nat) by (run_fields; congruence)
  end.
  rewrite <- Al2 in M0. rewrite (bind_val _ _ _ _ _ (malloc_at w _ _ M0)).
  match goal with
  | |- context [bind (linked_list_prepend_override _ _ _) _ ?S] =>
      assert (Al3 : allocs S = 1%nat) by (run_fields; congruence)
  end.
  rewrite <- Al3 in M1. rewrite (bind_val _ _ _ _ _ (prepend_at w _ _ _ M1)).
  rewrite (bind_val _ _ _ _ _ (open_ok w _ _ _ A6)). rewrite A7.
  rewrite (bind_val _ _ _ _ _ (fchdir_ok w _ _ _ A8)).
  change (0 <? 0) with false. cbv iota.
  run_fields. rewrite H1, H0. cbn [List.length app].
  rewrite Hstream. unfold answer_of. cbn [read_directory].
  rewrite bind_assoc, (bind_val _ _ _ _ _ (getdents_ok _ _ _ _ _)).
  set (bytes := encode_batch (skipped ++ r :: later)) in *.
  assert (Hbytes : bytes = [] ++ encode_batch skipped ++ encode_dirent r ++ encode_batch later).
  { unfold bytes. now rewrite encode_batch_app, encode_batch_cons. }
  pose proof (encode_dirent_nonempty r) as Hne.
  pose proof (encode_batch_length_ge (skipped ++ r :: later)) as Hge.
  fold bytes in Hge. rewrite length_app in Hge. cbn [List.length] in Hge.
  assert (Hpos : 0 < Z.of_nat (List.length bytes)) by lia.
  cbv zeta. rewrite wrap_int_small by lia.
  replace (Z.of_nat (List.length bytes) =? 0) with false by (symmetry; apply Z.eqb_neq; lia).
  replace (Z.of_nat (List.length bytes) =? -1) with false by (symmetry; apply Z.eqb_neq; lia).
  rewrite bind_assoc.
  match goal with
  | |- context [bind (scan_buffer _ _ _ _ _ _) _ ?S] => set (s2 := S)
  end.
  assert (Hscan : scan_buffer w (Z.to_nat (Z.of_nat (List.length bytes))) 0
                    (Z.of_nat (List.length (@nil ascii))) (Z.of_nat (List.length bytes)) 0 s2
                  = (Exit 1,
                     emit_event (Stderr "Cannot acquire resources for tree!\n" [])
                                (set_errno ENOMEM (set_allocs (S (allocs s2)) s2)))).
  { refine (scan_buffer_refused w 0 skipped [] _ 0 s2 _ r (encode_batch later)
              Hwfs Hwr Hun Hw _ _ Hsz _ _ _).
    - unfold s2. run_fields. rewrite Hbytes at 1. reflexivity.
    - rewrite Hbytes. rewrite !length_app. cbn [List.length]. lia.
    - rewrite Nat2Z.id. lia.
    - unfold s2. run_fields. rewrite R1, R0. destruct Hlibc as [-> _]. reflexivity.
    - unfold s2. run_fields. rewrite Al1, A0. exact M2. }
  cbn [List.length Z.of_nat] in Hscan.
  rewrite (bind_exit _ _ _ _ _ Hscan).
  unfold ended_after, s2, prelude, getdents_event. run_fields.
  rewrite T1, T0, F1, F0, Al1, A0, Hsize. repeat split.
Qed.

Lemma X11_witness :
  ended_after (libc := bst_impl) exhausted_world (run exhausted_world)
              (prelude exhausted_world
               ++ [getdents_event (dir_fd exhausted_world)
                                  (getdents_buf_size exhausted_world) 0])
              (Stderr "Cannot acquire resources for tree!\n" []) 3.
Proof.
  apply (X11_index_refusal exhausted_world false
           [directory_entry "."%string; directory_entry ".."%string] []
           (regular_entry "b"%string)
           [answer_of [regular_entry "a"%string; directory_entry "sub"%string;
                       regular_entry "c"%string]]);
    [apply bst_impl_ok | reflexivity | reflexivity | reflexivity | reflexivity
    | reflexivity | reflexivity | vm_compute; reflexivity | reflexivity | reflexivity].
Defined.

(** X12. A record whose [d_reclen] is 0 stops the cursor of the inner
    loop: from a position inside the buffer where such a record lies,
    the loop never ends normally, whatever bound is put on its turns; it
    can only go on for ever, or die of a refused allocation if the same
    record is indexed again and again. *)
Theorem X12_zero_reclen_never_ends {libc : search_impl} (w : world) (s : state)
    (buffer : nat) (offset bufcount totalfiles : Z) (fuel : nat) :
  0 <= offset < bufcount -> offset < 2147483648 ->
  d_reclen_at (block_at (heap s) buffer) offset = 0 ->
  match fst (scan_buffer w fuel buffer offset bufcount totalfiles s) with
  | Val _ => False
  | Exit st => st = 1 /\ exists n, w_malloc w n = false
  | Hang => True
  end.
Proof.
  intros Hoff Hmax Hrec.
  exact (scan_buffer_stuck w buffer offset bufcount _ Hoff Hmax Hrec fuel totalfiles s eq_refl).
Qed.

Lemma X12_witness :
  match fst (scan_buffer (libc := bst_impl) report_world 7 0 0 24 0 zero_buffer_state) with
  | Val _ => False
  | Exit st => st = 1 /\ exists n, w_malloc report_world n = false
  | Hang => True
  end.
Proof.
  apply (X12_zero_reclen_never_ends report_world zero_buffer_state 0 0 24 0 7);
    [lia | lia | reflexivity].
Defined.

(** ** The progress marks of the walk *)

Lemma sleeps_app a b : sleeps (a ++ b) = sleeps a + sleeps b.
Proof. unfold sleeps. rewrite filter_app, length_app. lia. Qed.

Lemma dot_markers_app a b : dot_markers (a ++ b) = dot_markers a + dot_markers b.
Proof. unfold dot_markers. rewrite filter_app, length_app. lia. Qed.

Lemma div_succ n d :
  0 <= n -> 0 < d -> (n + 1) / d = n / d + (if (n + 1) mod d =? 0 then 1 else 0).
Proof.
  intros Hn Hd.
  pose proof (Z.div_mod (n + 1) d ltac:(lia)) as E.
  pose proof (Z.mod_pos_bound (n + 1) d Hd) as B.
  destruct ((n + 1) mod d =? 0) eqn:Hm.
  - apply Z.eqb_eq in Hm. symmetry.
    assert (n / d = (n + 1) / d - 1); [|lia].
    symmetry. apply (Z.div_unique n d ((n + 1) / d - 1) (d - 1)); lia.
  - apply Z.eqb_neq in Hm. symmetry. rewrite Z.add_0_r.
    symmetry. apply (Z.div_unique n d ((n + 1) / d) ((n + 1) mod d - 1)); lia.
Qed.

Lemma major_is_minor x :
  (x mod (progress_interval_minor * progress_interval_major) =? 0) = true ->
  (x mod progress_interval_minor =? 0) = true.
Proof.
  unfold progress_interval_minor, progress_interval_major.
  intros H. apply Z.eqb_eq in H. apply Z.eqb_eq.
  apply Z.mod_divide in H; [|lia]. apply Z.mod_divide; [lia|].
  eapply Z.divide_trans; [|exact H]. exists 50. reflexivity.
Qed.

Section Progress.
Context {libc : search_impl}.
Variable w : world.

Ltac run_step :=
  unfold walk_tree, unlink, fail_with, perror, printf, fprintf_stderr, fflush_stderr,
    sleep, emit, exit, bind, gets, modify, ret;
  cbn [delete_count show_progress print_only tree_root heap errno allocs files trace
       set_delete_count set_show_progress set_print_only set_tree_root set_heap
       set_errno set_allocs set_files emit_event negb fst snd].

Ltac fields_in H :=
  cbn [delete_count show_progress print_only tree_root heap errno allocs files trace
       set_delete_count set_show_progress set_print_only set_tree_root set_heap
       set_errno set_allocs set_files emit_event] in H.

Ltac step_done :=
  intros [= <-];
  repeat match goal with
         | H : (_ =? _) = _ |- _ => progress fields_in H
         end;
  cbn [delete_count show_progress print_only tree_root heap errno allocs files trace
       set_delete_count set_show_progress set_print_only set_tree_root set_heap
       set_errno set_allocs set_files emit_event];
  repeat match goal with
         | H : (_ =? _) = _ |- _ => rewrite H
         end;
  eexists; (split; [rewrite <- ?app_assoc; reflexivity|]);
  repeat split; reflexivity.

Lemma walk_tree_markers k s s' :
  walk_tree w k endorder 0 s = (Val tt, s') ->
  exists evs,
    trace s' = trace s ++ evs /\
    delete_count s' = wrap_ulong (delete_count s + 1) /\
    show_progress s' = show_progress s /\
    sleeps evs =
      (if negb (show_progress s =? 0)
          && (delete_count s' mod (progress_interval_minor * progress_interval_major) =? 0)
       then 1 else 0) /\
    dot_markers evs =
      (if negb (show_progress s =? 0)
          && negb (delete_count s' mod (progress_interval_minor * progress_interval_major) =? 0)
          && (delete_count s' mod progress_interval_minor =? 0)
       then 1 else 0).
Proof.
  destruct s as [dc sp po tr hp er al fs tc]. run_step.
  change (wrap_ulong (progress_interval_minor * progress_interval_major))
    with (progress_interval_minor * progress_interval_major).
  destruct (negb (po =? 0)).
  - change (0 <? 0) with false. cbv iota. run_step.
    destruct (sp =? 0) eqn:E0; cbn [negb andb]; [step_done|].
    destruct (_ mod (_ * _) =? 0) eqn:E1; [step_done|].
    destruct (_ mod progress_interval_minor =? 0) eqn:E2; step_done.
  - destruct (w_unlink w (name_at hp k)) as [u|e].
    + run_step. destruct (existsb _ fs).
      * run_step. change (0 <? 0) with false. cbv iota. run_step.
        destruct (sp =? 0) eqn:E0; cbn [negb andb]; [step_done|].
        destruct (_ mod (_ * _) =? 0) eqn:E1; [step_done|].
        destruct (_ mod progress_interval_minor =? 0) eqn:E2; step_done.
      * run_step. change (-1 <? 0) with true. cbv iota. discriminate.
    + run_step. change (-1 <? 0) with true. cbv iota. discriminate.
Qed.

Lemma visit_all_markers ks : forall s s',
  visit_all w ks s = (Val tt, s') ->
  0 <= delete_count s ->
  delete_count s + Z.of_nat (List.length ks) < 18446744073709551616 ->
  exists evs,
    trace s' = trace s ++ evs /\
    delete_count s' = delete_count s + Z.of_nat (List.length ks) /\
    if show_progress s =? 0 then sleeps evs = 0 /\ dot_markers evs = 0
    else
      sleeps evs
      = delete_count s' / (progress_interval_minor * progress_interval_major)
        - delete_count s / (progress_interval_minor * progress_interval_major) /\
      dot_markers evs
      = delete_count s' / progress_interval_minor - delete_count s / progress_interval_minor
        - sleeps evs.
Proof.
  induction ks as [|k ks IH]; intros s s' H Hc Hn.
  - injection H as <-. exists []. rewrite app_nil_r, Z.add_0_r.
    split; [reflexivity|]. split; [reflexivity|].
    destruct (show_progress s =? 0); split; (reflexivity || (cbn; lia)).
  - cbn [visit_all] in H. apply bind_inv in H as ([] & s1 & H1 & H2).
    destruct (walk_tree_markers k s s1 H1) as (e1 & T1 & D1 & P1 & S1 & M1).
    cbn [List.length] in Hn.
    assert (D1' : delete_count s1 = delete_count s + 1).
    { rewrite D1. unfold wrap_ulong. apply Z.mod_small. lia. }
    destruct (IH s1 s' H2) as (e2 & T2 & D2 & C2); [lia | lia |].
    exists (e1 ++ e2). split; [rewrite T2, T1, app_assoc; reflexivity|].
    split; [cbn [List.length]; lia|].
    rewrite sleeps_app, dot_markers_app, S1, M1. rewrite P1 in C2.
    destruct (show_progress s =? 0); cbn [negb andb].
    + lia.
    + destruct C2 as [C2 C3]. rewrite C3, C2, D1'.
      pose proof (div_succ (delete_count s)
                    (progress_interval_minor * progress_interval_major) Hc eq_refl) as Q1.
      pose proof (div_succ (delete_count s) progress_interval_minor Hc eq_refl) as Q2.
      pose proof (major_is_minor (delete_count s + 1)) as Q3.
      destruct ((delete_count s + 1) mod (progress_interval_minor * progress_interval_major) =? 0);
        cbn [negb andb].
      * rewrite (Q3 eq_refl) in Q2. lia.
      * destruct ((delete_count s + 1) mod progress_interval_minor =? 0); lia.
Qed.

End Progress.

(** X13. The progress marks of a walk that starts with the counter at 0
    and visits the [n] names of the index.  Without [DENTLS_PROGRESS] the
    walk never pauses and writes no mark.  With it, the walk pauses for a
    second once in every [progress_interval_minor * progress_interval_major]
    entries, [n / 50000] times in all, and writes a dot for every other
    multiple of [progress_interval_minor]. *)
Theorem X13_progress_marks {libc : search_impl} (w : world) (s s' : state) :
  twalk (tree_root s) (walk_tree w) s = (Val tt, s') ->
  delete_count s = 0 ->
  Z.of_nat (List.length (names_of s)) < 18446744073709551616 ->
  exists evs,
    trace s' = trace s ++ evs /\
    delete_count s' = Z.of_nat (List.length (names_of s)) /\
    if show_progress s =? 0 then sleeps evs = 0 /\ dot_markers evs = 0
    else
      sleeps evs
      = Z.of_nat (List.length (names_of s))
        / (progress_interval_minor * progress_interval_major) /\
      dot_markers evs
      = Z.of_nat (List.length (names_of s)) / progress_interval_minor
        - Z.of_nat (List.length (names_of s))
          / (progress_interval_minor * progress_interval_major).
Proof.
  intros H Hc Hn. unfold twalk in H. rewrite twalk_rec_visit in H.
  assert (Hlen : List.length (endorder_keys (view (tree_root s)))
                 = List.length (names_of s)).
  { unfold names_of. rewrite length_map. apply Permutation_length, endorder_inorder. }
  destruct (visit_all_markers w _ s s' H) as (evs & T & D & C); [lia | lia |].
  rewrite Hlen, Hc in D. rewrite Z.add_0_l in D.
  exists evs. split; [exact T|]. split; [exact D|].
  destruct (show_progress s =? 0); [exact C|].
  rewrite D, Hc in C. change (0 / (progress_interval_minor * progress_interval_major))
    with 0 in C. change (0 / progress_interval_minor) with 0 in C.
  destruct C as [C1 C2]. split; lia.
Qed.

Lemma X13_witness :
  exists evs,
    trace (snd (twalk (tree_root indexed_state) (walk_tree report_world) indexed_state))
    = trace indexed_state ++ evs /\
    delete_count (snd (twalk (tree_root indexed_state) (walk_tree report_world)
                             indexed_state)) = 1 /\
    sleeps evs = 0 /\ dot_markers evs = 0.
Proof.
  destruct (X13_progress_marks report_world indexed_state
              (snd (twalk (tree_root indexed_state) (walk_tree report_world) indexed_state))
              eq_refl eq_refl)
    as (evs & T & D & C1 & C2); [simpl; lia|].
  exists evs. split; [exact T|]. split; [exact D|]. split; [exact C1 | exact C2].
Defined.

(** ** Whole runs: a removal that succeeds, a directory without files *)

Lemma remove_name_keeps n m fs : In m fs -> m <> n -> In m (remove_name n fs).
Proof. intros H Hne. destruct (remove_name_cases n fs m H); [assumption | contradiction]. Qed.

Lemma unlinks_ok_intro (w : world) ns : forall fs,
  NoDup ns ->
  (forall n, In n ns -> In n fs /\ exists u, w_unlink w n = Ok u) ->
  unlinks_ok w fs ns = true.
Proof.
  induction ns as [|n ns IH]; intros fs Hnd Hall; [reflexivity|].
  cbn [unlinks_ok]. destruct (Hall n (or_introl eq_refl)) as [Hin [u Hu]].
  unfold unlink_errno. rewrite Hu.
  replace (existsb (String.eqb n) fs) with true
    by (symmetry; now apply existsb_eqb_In).
  inversion Hnd as [|? ? Hnotin Hnd']; subst.
  apply IH; [exact Hnd'|]. intros m Hm.
  destruct (Hall m (or_intror Hm)) as [Hmf Hmu]. split; [|exact Hmu].
  apply remove_name_keeps; [exact Hmf|]. intros ->. contradiction.
Qed.

(** X14. A destructive run that meets no obstacle removes the regular
    files and nothing else: when every regular file of the enumeration is
    in the directory and [unlink] accepts it, the run returns 0 and the
    directory is left with exactly the entries that were not regular
    files; none of their names is written to the primary stream. *)
Theorem X14_delete_removes_exactly {libc : search_impl} (w : world)
    (batches : list (list dirent)) :
  search_ok libc -> clean_run w batches ->
  getenv w "DENTLS_DELETE" = Some "delete"%string ->
  NoDup (w_files w) ->
  (forall n, In n (wanted_names (List.concat batches)) ->
             In n (w_files w) /\ exists u, w_unlink w n = Ok u) ->
  fst (run w) = Val 0 /\
  (forall n, In n (files (snd (run w))) <->
             In n (w_files w) /\ ~ In n (wanted_names (List.concat batches))) /\
  stdout_names (trace (snd (run w))) = [].
Proof.
  intros Hlibc Hclean Hmode Hnd Hall.
  destruct (clean_run_inv w batches Hclean) as (Hh & Hm & Hwf & Hs & He).
  destruct (clean_run_mode w _ Hmode) as [_ Hd]. specialize (Hd eq_refl).
  destruct (delete_summary w batches [] Hlibc Hh Hm Hwf Hs He Hd)
    as (order & ND & IN & [(U & evs & R & TR & O1 & O2 & O3 & O4 & O5 & FI & _)
                          |(pre & x & post & e & evs & E & U & F & _)]).
  - split; [exact R|]. split.
    + intros n. rewrite FI, (remove_names_spec order _ Hnd n), IN. reflexivity.
    + rewrite TR, !stdout_names_app, stdout_names_reading, O1. reflexivity.
  - exfalso.
    assert (Hok : unlinks_ok w (w_files w) order = true).
    { apply unlinks_ok_intro; [exact ND|]. intros n Hn. apply Hall. now apply IN. }
    rewrite E in Hok. apply (unlinks_ok_app w) in Hok as [_ Hok].
    cbn [unlinks_ok] in Hok. rewrite F in Hok. discriminate Hok.
Qed.

Lemma willing_world_clean : clean_run willing_world example_batches.
Proof. repeat split; reflexivity. Qed.

Lemma X14_witness :
  fst (run (libc := bst_impl) willing_world) = Val 0 /\
  (forall n, In n (files (snd (run (libc := bst_impl) willing_world))) <->
             In n (w_files willing_world) /\
             ~ In n (wanted_names (List.concat example_batches))) /\
  stdout_names (trace (snd (run (libc := bst_impl) willing_world))) = [].
Proof.
  apply (X14_delete_removes_exactly willing_world example_batches bst_impl_ok
           willing_world_clean eq_refl).
  - repeat constructor; simpl; intuition discriminate.
  - intros n Hn. simpl in Hn.
    destruct Hn as [<-|[<-|[<-|[]]]]; (split; [simpl; tauto | now exists tt]).
Defined.

(** X15. A directory without regular files.  When the enumeration holds
    no regular file, a run in either mode reports a total of 0, acts on
    nothing, leaves the directory as it was and returns 0. *)
Theorem X15_nothing_to_do {libc : search_impl} (w : world)
    (batches : list (list dirent)) (d : bool) :
  search_ok libc -> clean_run w batches -> mode_request w = Some d ->
  wanted_names (List.concat batches) = [] ->
  fst (run w) = Val 0 /\
  totals (trace (snd (run w))) = [total_event 0] /\
  acted (trace (snd (run w))) = [] /\
  files (snd (run w)) = w_files w.
Proof.
  intros Hlibc Hclean Hmode Hnone.
  destruct (clean_run_inv w batches Hclean) as (Hh & Hm & Hwf & Hs & He).
  assert (Hfilter : filter wanted (List.concat batches) = [])
    by (unfold wanted_names in Hnone; now apply map_eq_nil in Hnone).
  assert (Hempty : forall order : list string,
             (forall n, In n order <-> In n (wanted_names (List.concat batches))) ->
             order = []).
  { intros [|x order] H; [reflexivity|].
    rewrite Hnone in H. destruct (proj1 (H x) (or_introl eq_refl)). }
  destruct d.
  - destruct (delete_summary w batches [] Hlibc Hh Hm Hwf Hs He Hmode)
      as (order & ND & IN & [(U & evs & R & TR & O1 & O2 & O3 & O4 & O5 & FI & _)
                            |(pre & x & post & e & evs & E & _)]).
    + rewrite (Hempty order IN) in *. rewrite Hfilter in TR.
      split; [exact R|]. split; [|split].
      * rewrite TR, !totals_app, totals_reading, O4. reflexivity.
      * rewrite TR, !acted_app, acted_reading, O3. reflexivity.
      * exact FI.
    + rewrite (Hempty order IN) in E. destruct pre; discriminate E.
  - destruct (report_summary w batches [] Hlibc Hh Hm Hwf Hs He Hmode)
      as (order & evs & ND & IN & R & TR & O1 & O2 & O3 & O4 & O5 & FI & _).
    rewrite (Hempty order IN) in *. rewrite Hfilter in TR.
    split; [exact R|]. split; [|split].
    + rewrite TR, !totals_app, totals_reading, O4. reflexivity.
    + rewrite TR, !acted_app, acted_reading, O3. reflexivity.
    + exact FI.
Qed.

Lemma bare_world_clean : clean_run bare_world bare_batches.
Proof. repeat split; reflexivity. Qed.

Lemma X15_witness :
  fst (run (libc := bst_impl) bare_world) = Val 0 /\
  totals (trace (snd (run (libc := bst_impl) bare_world))) = [total_event 0] /\
  acted (trace (snd (run (libc := bst_impl) bare_world))) = [] /\
  files (snd (run (libc := bst_impl) bare_world)) = w_files bare_world.
Proof.
  exact (X15_nothing_to_do bare_world bare_batches true bst_impl_ok bare_world_clean
           eq_refl eq_refl).
Defined.

(** ** Reading comes before removing *)

Create HintDb emits.

Lemma not_unlink_calls evs : forallb not_unlink evs = true -> unlink_calls evs = [].
Proof.
  induction evs as [|e evs IH]; [reflexivity|]. cbn [forallb]. intros H.
  apply andb_prop in H as [He H]. unfold unlink_calls in *. cbn [flat_map].
  rewrite (IH H), app_nil_r. destruct e as [| | | | |c]; try reflexivity.
  destruct c; try reflexivity. discriminate He.
Qed.

Lemma not_getdents_buffers evs :
  forallb not_getdents evs = true -> getdents_buffers evs = [].
Proof.
  induction evs as [|e evs IH]; [reflexivity|]. cbn [forallb]. intros H.
  apply andb_prop in H as [He H]. unfold getdents_buffers in *. cbn [flat_map].
  rewrite (IH H), app_nil_r. destruct e as [| | | | |c]; try reflexivity.
  destruct c; try reflexivity. discriminate He.
Qed.

Section Phases.

Context {libc : search_impl}.
Variable w : world.

Lemma eo_refl ok s : emits_only ok s s.
Proof. exists []. now rewrite app_nil_r. Qed.

Lemma eo_trans ok s1 s2 s3 :
  emits_only ok s1 s2 -> emits_only ok s2 s3 -> emits_only ok s1 s3.
Proof.
  intros (e1 & T1 & O1) (e2 & T2 & O2). exists (e1 ++ e2).
  split; [now rewrite T2, T1, app_assoc|]. now rewrite forallb_app, O1, O2.
Qed.

Lemma eo_modify ok (f : state -> state) :
  (forall s, trace (f s) = trace s) -> preserves (emits_only ok) (modify f).
Proof.
  intros H s. exists []. cbn [modify snd]. now rewrite H, app_nil_r.
Qed.

Lemma eo_emit ok e : ok e = true -> preserves (emits_only ok) (emit e).
Proof.
  intros H s. destruct s. exists [e]. simpl. now rewrite H.
Qed.

Ltac emits :=
  repeat first
    [ solve [auto with emits nocore]
    | simple apply preserves_ret; [apply eo_refl]
    | simple apply preserves_exit; [apply eo_refl]
    | simple apply preserves_hang; [apply eo_refl]
    | simple apply preserves_gets; [apply eo_refl]
    | simple apply preserves_bind; [apply eo_trans | | intros ?]
    | simple apply preserves_if
    | simple apply eo_emit; reflexivity
    | simple apply eo_modify; intros [? ? ? ? ? ? ? ? ?]; reflexivity
    | match goal with
      | |- preserves _ (match ?x with _ => _ end) => destruct x
      end
    | progress
        (unfold access, lstat, open, fchdir, close, unlink, malloc, alloc_request,
           linked_list_prepend_override, tsearch, getdents, fail_with, perror,
           fprintf_stderr, printf, sleep, fflush_stderr, free, walk_tree, twalk,
           tdestroy;
         cbv beta iota zeta) ].

(** The reading loop never calls [unlink]. *)
Lemma reading_scan_buffer fuel : forall buffer offset bufcount totalfiles,
  preserves (emits_only reading_event) (scan_buffer w fuel buffer offset bufcount totalfiles).
Proof.
  induction fuel as [|fuel IH]; intros buffer offset bufcount totalfiles;
    cbn [scan_buffer]; emits.
Qed.

#[local] Hint Resolve reading_scan_buffer : emits.

Lemma reading_read_directory answers : forall dirfd size buffer totalfiles bufs,
  preserves (emits_only reading_event)
            (read_directory w answers dirfd size buffer totalfiles bufs).
Proof.
  induction answers as [|a answers IH]; intros dirfd size buffer totalfiles bufs;
    cbn [read_directory]; emits.
Qed.

(** The walk and the teardown never call [getdents]. *)
Lemma walking_twalk_rec t : forall lvl,
  preserves (emits_only walking_event) (twalk_rec t (walk_tree w) lvl).
Proof.
  induction t as [|l IHl k r IHr]; intros lvl; cbn [twalk_rec];
    [emits|].
  destruct (is_E l && is_E r).
  - destruct lvl; emits.
  - apply preserves_bind; [apply eo_trans | emits | intros ?].
    apply preserves_bind; [apply eo_trans | apply IHl | intros ?].
    apply preserves_bind; [apply eo_trans | emits | intros ?].
    apply preserves_bind; [apply eo_trans | apply IHr | intros ?].
    emits.
Qed.

Lemma walking_free_linked_list head :
  preserves (emits_only walking_event) (free_linked_list head).
Proof.
  induction head as [|a head IH]; cbn [free_linked_list]; emits.
Qed.

#[local] Hint Resolve reading_read_directory walking_twalk_rec walking_free_linked_list
  : emits.

Lemma phases_of_reading {A} (m : M A) :
  preserves (emits_only reading_event) m -> preserves reads_then_removes m.
Proof.
  intros H s. destruct (H s) as (a & T & O). exists a, [].
  now rewrite app_nil_r.
Qed.

Lemma phases_of_walking {A} (m : M A) :
  preserves (emits_only walking_event) m -> preserves reads_then_removes m.
Proof.
  intros H s. destruct (H s) as (b & T & O). exists [], b. now split.
Qed.

Lemma phases_bind {A B} (m : M A) (k : A -> M B) :
  preserves (emits_only reading_event) m ->
  (forall a, preserves reads_then_removes (k a)) ->
  preserves reads_then_removes (bind m k).
Proof.
  intros Hm Hk s. unfold bind. destruct (Hm s) as (e1 & T1 & O1).
  destruct (m s) as [[a| |] s1]; cbn [snd] in *.
  - destruct (Hk a s1) as (e2 & e3 & T2 & O2 & O3).
    exists (e1 ++ e2), e3. split; [now rewrite T2, T1, !app_assoc|].
    split; [now rewrite forallb_app, O1, O2 | exact O3].
  - exists e1, []. now rewrite app_nil_r.
  - exists e1, []. now rewrite app_nil_r.
Qed.

Lemma phases_main : preserves reads_then_removes (main w).
Proof.
  unfold main. cbv zeta.
  repeat first
    [ simple apply phases_bind; [solve [emits] | intros ?]
    | simple apply preserves_if
    | simple apply phases_of_reading; solve [emits]
    | simple apply phases_of_walking; solve [emits]
    | match goal with
      | |- preserves _ (match ?x with _ => _ end) => destruct x
      end ].
Qed.

End Phases.

Lemma forallb_weaken {A} (p q : A -> bool) l :
  (forall x, p x = true -> q x = true) -> forallb p l = true -> forallb q l = true.
Proof.
  intros H. induction l as [|x l IH]; [reflexivity|]. cbn [forallb]. intros Hl.
  apply andb_prop in Hl as [Hx Hl]. now rewrite (H x Hx), (IH Hl).
Qed.

(** X16. Reading comes before removing.  In every world, and however the
    run ends, the program makes no [unlink] call before its last
    [getdents] call: its trace splits into a first part without [unlink]
    and a second part without [getdents]. *)
Theorem X16_reads_before_it_removes {libc : search_impl} (w : world) :
  exists a b,
    trace (snd (run w)) = a ++ b /\
    unlink_calls a = [] /\ getdents_buffers b = [].
Proof.
  destruct (phases_main w (init_state w)) as (a & b & T & O1 & O2).
  exists a, b. split; [exact T|]. split.
  - apply not_unlink_calls. revert O1. apply forallb_weaken.
    intros e H. now apply andb_prop in H as [H _].
  - apply not_getdents_buffers. revert O2. apply forallb_weaken.
    intros e H. now apply andb_prop in H as [H _].
Qed.

(** X17. The branch of [linked_list_prepend_override] for a NULL head is
    never taken: [main] always passes the address of its list variable, so
    in no world does a run write the diagnostic of that branch. *)
Theorem X17_null_head_never_reported {libc : search_impl} (w : world) :
  forallb not_null_head (trace (snd (run w))) = true.
Proof.
  destruct (phases_main w (init_state w)) as (a & b & T & O1 & O2).
  unfold run. rewrite T. cbn [init_state trace app]. rewrite forallb_app.
  rewrite (forallb_weaken reading_event not_null_head a),
    (forallb_weaken walking_event not_null_head b);
    try assumption; try reflexivity;
    intros e H; now apply andb_prop in H as [_ H].
Qed.
